(** * Script opcodes of the transaction script engine (package txscript)

    A shallow embedding of [pkg/chain/tx/script/opcode.go]: the opcode
    constants and table, the parsed-opcode helpers, the conditional opcodes,
    the lock-time opcode and the signature checking opcodes, followed by the
    properties the specification states about them.

    Conventions.  A Go [byte] is a [Byte.byte]; a Go [int] or [int64] is a [Z]
    (no computation of this file leaves the 64-bit range, lengths are
    [Z.of_nat] of a list length); a Go slice [[]byte] is a [list byte]; a
    function returning [error] returns a [result]: [Ok], [Err] with the error
    code of [scriptError] (the formatted description string is dropped), or
    [Panic] for a Go run-time panic (index out of range).  A Go loop that is
    not a plain counted loop is a [Fixpoint] on a fuel argument and gives
    [OutOfFuel] when the fuel is used up; the theorems show that the fuel the
    callers pass is always enough. *)

From Stdlib Require Import ZArith Lia Strings.Byte String Sorted.
From stdpp Require Import base option list strings gmap.

Local Open Scope Z_scope.

Abbreviation byteSlice := (list byte).

(** Numeric value of a byte, as Go's integer conversions read it. *)
Definition byteZ (b : byte) : Z := Z.of_N (Byte.to_N b).

(** [byte(x)]: Go's conversion of an integer to a byte keeps the low 8 bits. *)
Definition toByte (x : Z) : byte :=
  match Byte.of_N (Z.to_N (x mod 256)) with
  | Some b => b
  | None => x00
  end.

(** [len(s)] of a slice. *)
Definition len {A} (s : list A) : Z := Z.of_nat (length s).

(** ** Error codes

    The [ErrorCode] values that [opcode.go] passes to [scriptError], and
    [ErrStackUnderflow] for the stack of the specification. *)
Inductive ErrorCode : Set :=
  | ErrInternal
  | ErrMinimalData
  | ErrDisabledOpcode
  | ErrReservedOpcode
  | ErrDiscourageUpgradableNOPs
  | ErrMinimalIf
  | ErrUnbalancedConditional
  | ErrVerify
  | ErrEarlyReturn
  | ErrUnsatisfiedLockTime
  | ErrNegativeLockTime
  | ErrInvalidPubKeyCount
  | ErrInvalidSignatureCount
  | ErrTooManyOperations
  | ErrSigNullDummy
  | ErrNullFail
  | ErrCheckSigVerify
  | ErrCheckMultiSigVerify
  | ErrMalformedPush
  | ErrStackUnderflow
  | ErrOther (code : Z).

Inductive result (A : Type) : Type :=
  | Ok (a : A)
  | Err (e : ErrorCode)
  | Panic
  | OutOfFuel.
Arguments Ok {A} a.
Arguments Err {A} e.
Arguments Panic {A}.
Arguments OutOfFuel {A}.

#[global] Instance result_ret : MRet result := fun A a => Ok a.
#[global] Instance result_bind : MBind result := fun A B f m =>
  match m with
  | Ok a => f a
  | Err e => Err e
  | Panic => Panic
  | OutOfFuel => OutOfFuel
  end.

(** [scriptError(c, str)] *)
Definition scriptError {A} (c : ErrorCode) : result A := Err c.

(** ** Opcode constants *)
Abbreviation OpZero := x00 (only parsing).
Abbreviation OpFalse := x00 (only parsing).
Abbreviation OpData1 := x01 (only parsing).
Abbreviation OpData2 := x02 (only parsing).
Abbreviation OpData3 := x03 (only parsing).
Abbreviation OpData4 := x04 (only parsing).
Abbreviation OpData5 := x05 (only parsing).
Abbreviation OpData6 := x06 (only parsing).
Abbreviation OpData7 := x07 (only parsing).
Abbreviation OpData8 := x08 (only parsing).
Abbreviation OpData9 := x09 (only parsing).
Abbreviation OpData10 := x0a (only parsing).
Abbreviation OpData11 := x0b (only parsing).
Abbreviation OpData12 := x0c (only parsing).
Abbreviation OpData13 := x0d (only parsing).
Abbreviation OpData14 := x0e (only parsing).
Abbreviation OpData15 := x0f (only parsing).
Abbreviation OpData16 := x10 (only parsing).
Abbreviation OpData17 := x11 (only parsing).
Abbreviation OpData18 := x12 (only parsing).
Abbreviation OpData19 := x13 (only parsing).
Abbreviation OpData20 := x14 (only parsing).
Abbreviation OpData21 := x15 (only parsing).
Abbreviation OpData22 := x16 (only parsing).
Abbreviation OpData23 := x17 (only parsing).
Abbreviation OpData24 := x18 (only parsing).
Abbreviation OpData25 := x19 (only parsing).
Abbreviation OpData26 := x1a (only parsing).
Abbreviation OpData27 := x1b (only parsing).
Abbreviation OpData28 := x1c (only parsing).
Abbreviation OpData29 := x1d (only parsing).
Abbreviation OpData30 := x1e (only parsing).
Abbreviation OpData31 := x1f (only parsing).
Abbreviation OpData32 := x20 (only parsing).
Abbreviation OpData33 := x21 (only parsing).
Abbreviation OpData34 := x22 (only parsing).
Abbreviation OpData35 := x23 (only parsing).
Abbreviation OpData36 := x24 (only parsing).
Abbreviation OpData37 := x25 (only parsing).
Abbreviation OpData38 := x26 (only parsing).
Abbreviation OpData39 := x27 (only parsing).
Abbreviation OpData40 := x28 (only parsing).
Abbreviation OpData41 := x29 (only parsing).
Abbreviation OpData42 := x2a (only parsing).
Abbreviation OpData43 := x2b (only parsing).
Abbreviation OpData44 := x2c (only parsing).
Abbreviation OpData45 := x2d (only parsing).
Abbreviation OpData46 := x2e (only parsing).
Abbreviation OpData47 := x2f (only parsing).
Abbreviation OpData48 := x30 (only parsing).
Abbreviation OpData49 := x31 (only parsing).
Abbreviation OpData50 := x32 (only parsing).
Abbreviation OpData51 := x33 (only parsing).
Abbreviation OpData52 := x34 (only parsing).
Abbreviation OpData53 := x35 (only parsing).
Abbreviation OpData54 := x36 (only parsing).
Abbreviation OpData55 := x37 (only parsing).
Abbreviation OpData56 := x38 (only parsing).
Abbreviation OpData57 := x39 (only parsing).
Abbreviation OpData58 := x3a (only parsing).
Abbreviation OpData59 := x3b (only parsing).
Abbreviation OpData60 := x3c (only parsing).
Abbreviation OpData61 := x3d (only parsing).
Abbreviation OpData62 := x3e (only parsing).
Abbreviation OpData63 := x3f (only parsing).
Abbreviation OpData64 := x40 (only parsing).
Abbreviation OpData65 := x41 (only parsing).
Abbreviation OpData66 := x42 (only parsing).
Abbreviation OpData67 := x43 (only parsing).
Abbreviation OpData68 := x44 (only parsing).
Abbreviation OpData69 := x45 (only parsing).
Abbreviation OpData70 := x46 (only parsing).
Abbreviation OpData71 := x47 (only parsing).
Abbreviation OpData72 := x48 (only parsing).
Abbreviation OpData73 := x49 (only parsing).
Abbreviation OpData74 := x4a (only parsing).
Abbreviation OpData75 := x4b (only parsing).
Abbreviation OpPushData1 := x4c (only parsing).
Abbreviation OpPushData2 := x4d (only parsing).
Abbreviation OpPushData4 := x4e (only parsing).
Abbreviation Op1Negate := x4f (only parsing).
Abbreviation OpReserved := x50 (only parsing).
Abbreviation Op1 := x51 (only parsing).
Abbreviation OpTrue := x51 (only parsing).
Abbreviation Op2 := x52 (only parsing).
Abbreviation Op3 := x53 (only parsing).
Abbreviation Op4 := x54 (only parsing).
Abbreviation Op5 := x55 (only parsing).
Abbreviation Op6 := x56 (only parsing).
Abbreviation Op7 := x57 (only parsing).
Abbreviation Op8 := x58 (only parsing).
Abbreviation Op9 := x59 (only parsing).
Abbreviation Op10 := x5a (only parsing).
Abbreviation Op11 := x5b (only parsing).
Abbreviation Op12 := x5c (only parsing).
Abbreviation Op13 := x5d (only parsing).
Abbreviation Op14 := x5e (only parsing).
Abbreviation Op15 := x5f (only parsing).
Abbreviation Op16 := x60 (only parsing).
Abbreviation OpNoOp := x61 (only parsing).
Abbreviation OpVer := x62 (only parsing).
Abbreviation OpIf := x63 (only parsing).
Abbreviation OpIfNot := x64 (only parsing).
Abbreviation OpVerIf := x65 (only parsing).
Abbreviation OpVerIfNot := x66 (only parsing).
Abbreviation OpElse := x67 (only parsing).
Abbreviation OpEndIf := x68 (only parsing).
Abbreviation OpVerify := x69 (only parsing).
Abbreviation OpReturn := x6a (only parsing).
Abbreviation OpToAltStack := x6b (only parsing).
Abbreviation OpFromAltStack := x6c (only parsing).
Abbreviation Op2Drop := x6d (only parsing).
Abbreviation Op2Dup := x6e (only parsing).
Abbreviation Op3Dup := x6f (only parsing).
Abbreviation Op2Over := x70 (only parsing).
Abbreviation Op2Rot := x71 (only parsing).
Abbreviation Op2Swap := x72 (only parsing).
Abbreviation OpIfDup := x73 (only parsing).
Abbreviation OpDepth := x74 (only parsing).
Abbreviation OpDrop := x75 (only parsing).
Abbreviation OpDup := x76 (only parsing).
Abbreviation OpNip := x77 (only parsing).
Abbreviation OpOver := x78 (only parsing).
Abbreviation OpPick := x79 (only parsing).
Abbreviation OpRoll := x7a (only parsing).
Abbreviation OpRot := x7b (only parsing).
Abbreviation OpSwap := x7c (only parsing).
Abbreviation OpTuck := x7d (only parsing).
Abbreviation OpCat := x7e (only parsing).
Abbreviation OpSubstr := x7f (only parsing).
Abbreviation OpLeft := x80 (only parsing).
Abbreviation OpRight := x81 (only parsing).
Abbreviation OpSize := x82 (only parsing).
Abbreviation OpInvert := x83 (only parsing).
Abbreviation OpAnd := x84 (only parsing).
Abbreviation OpOr := x85 (only parsing).
Abbreviation OpXor := x86 (only parsing).
Abbreviation OpEqual := x87 (only parsing).
Abbreviation OpEqualVerify := x88 (only parsing).
Abbreviation OpReserved1 := x89 (only parsing).
Abbreviation OpReserved2 := x8a (only parsing).
Abbreviation Op1Add := x8b (only parsing).
Abbreviation Op1Sub := x8c (only parsing).
Abbreviation Op1Mul := x8d (only parsing).
Abbreviation Op2Div := x8e (only parsing).
Abbreviation OpNegate := x8f (only parsing).
Abbreviation OpAbs := x90 (only parsing).
Abbreviation OpNot := x91 (only parsing).
Abbreviation Op0NotEqual := x92 (only parsing).
Abbreviation OpAdd := x93 (only parsing).
Abbreviation OpSub := x94 (only parsing).
Abbreviation OpMul := x95 (only parsing).
Abbreviation OpDiv := x96 (only parsing).
Abbreviation OpMod := x97 (only parsing).
Abbreviation OpLShift := x98 (only parsing).
Abbreviation OpRShift := x99 (only parsing).
Abbreviation OpBoolAnd := x9a (only parsing).
Abbreviation OpBoolOr := x9b (only parsing).
Abbreviation OpNumEqual := x9c (only parsing).
Abbreviation OpNumEqualVerify := x9d (only parsing).
Abbreviation OpNumNotEqual := x9e (only parsing).
Abbreviation OpLessThan := x9f (only parsing).
Abbreviation OpGreaterThan := xa0 (only parsing).
Abbreviation OpLessThanOrEqual := xa1 (only parsing).
Abbreviation OpGreaterThanOrEqual := xa2 (only parsing).
Abbreviation OpMin := xa3 (only parsing).
Abbreviation OpMax := xa4 (only parsing).
Abbreviation OpWithin := xa5 (only parsing).
Abbreviation OpRipeMD160 := xa6 (only parsing).
Abbreviation OpSHA1 := xa7 (only parsing).
Abbreviation OpSHA256 := xa8 (only parsing).
Abbreviation OpHash160 := xa9 (only parsing).
Abbreviation OpHash256 := xaa (only parsing).
Abbreviation OpCodeSeparator := xab (only parsing).
Abbreviation OpCheckSig := xac (only parsing).
Abbreviation OpCheckSigVerify := xad (only parsing).
Abbreviation OpCheckMultiSig := xae (only parsing).
Abbreviation OpCheckMultiSigVerify := xaf (only parsing).
Abbreviation OpNoOp1 := xb0 (only parsing).
Abbreviation OpNoOp2 := xb1 (only parsing).
Abbreviation OpCheckLockTimeVerify := xb1 (only parsing).
Abbreviation OpNoOp3 := xb2 (only parsing).
Abbreviation OpCheckSequenceVerify := xb2 (only parsing).
Abbreviation OpNoOp4 := xb3 (only parsing).
Abbreviation OpNoOp5 := xb4 (only parsing).
Abbreviation OpNoOp6 := xb5 (only parsing).
Abbreviation OpNoOp7 := xb6 (only parsing).
Abbreviation OpNoOp8 := xb7 (only parsing).
Abbreviation OpNoOp9 := xb8 (only parsing).
Abbreviation OpNoOp10 := xb9 (only parsing).
Abbreviation OpUnknown186 := xba (only parsing).
Abbreviation OpUnknown187 := xbb (only parsing).
Abbreviation OpUnknown188 := xbc (only parsing).
Abbreviation OpUnknown189 := xbd (only parsing).
Abbreviation OpUnknown190 := xbe (only parsing).
Abbreviation OpUnknown191 := xbf (only parsing).
Abbreviation OpUnknown192 := xc0 (only parsing).
Abbreviation OpUnknown193 := xc1 (only parsing).
Abbreviation OpUnknown194 := xc2 (only parsing).
Abbreviation OpUnknown195 := xc3 (only parsing).
Abbreviation OpUnknown196 := xc4 (only parsing).
Abbreviation OpUnknown197 := xc5 (only parsing).
Abbreviation OpUnknown198 := xc6 (only parsing).
Abbreviation OpUnknown199 := xc7 (only parsing).
Abbreviation OpUnknown200 := xc8 (only parsing).
Abbreviation OpUnknown201 := xc9 (only parsing).
Abbreviation OpUnknown202 := xca (only parsing).
Abbreviation OpUnknown203 := xcb (only parsing).
Abbreviation OpUnknown204 := xcc (only parsing).
Abbreviation OpUnknown205 := xcd (only parsing).
Abbreviation OpUnknown206 := xce (only parsing).
Abbreviation OpUnknown207 := xcf (only parsing).
Abbreviation OpUnknown208 := xd0 (only parsing).
Abbreviation OpUnknown209 := xd1 (only parsing).
Abbreviation OpUnknown210 := xd2 (only parsing).
Abbreviation OpUnknown211 := xd3 (only parsing).
Abbreviation OpUnknown212 := xd4 (only parsing).
Abbreviation OpUnknown213 := xd5 (only parsing).
Abbreviation OpUnknown214 := xd6 (only parsing).
Abbreviation OpUnknown215 := xd7 (only parsing).
Abbreviation OpUnknown216 := xd8 (only parsing).
Abbreviation OpUnknown217 := xd9 (only parsing).
Abbreviation OpUnknown218 := xda (only parsing).
Abbreviation OpUnknown219 := xdb (only parsing).
Abbreviation OpUnknown220 := xdc (only parsing).
Abbreviation OpUnknown221 := xdd (only parsing).
Abbreviation OpUnknown222 := xde (only parsing).
Abbreviation OpUnknown223 := xdf (only parsing).
Abbreviation OpUnknown224 := xe0 (only parsing).
Abbreviation OpUnknown225 := xe1 (only parsing).
Abbreviation OpUnknown226 := xe2 (only parsing).
Abbreviation OpUnknown227 := xe3 (only parsing).
Abbreviation OpUnknown228 := xe4 (only parsing).
Abbreviation OpUnknown229 := xe5 (only parsing).
Abbreviation OpUnknown230 := xe6 (only parsing).
Abbreviation OpUnknown231 := xe7 (only parsing).
Abbreviation OpUnknown232 := xe8 (only parsing).
Abbreviation OpUnknown233 := xe9 (only parsing).
Abbreviation OpUnknown234 := xea (only parsing).
Abbreviation OpUnknown235 := xeb (only parsing).
Abbreviation OpUnknown236 := xec (only parsing).
Abbreviation OpUnknown237 := xed (only parsing).
Abbreviation OpUnknown238 := xee (only parsing).
Abbreviation OpUnknown239 := xef (only parsing).
Abbreviation OpUnknown240 := xf0 (only parsing).
Abbreviation OpUnknown241 := xf1 (only parsing).
Abbreviation OpUnknown242 := xf2 (only parsing).
Abbreviation OpUnknown243 := xf3 (only parsing).
Abbreviation OpUnknown244 := xf4 (only parsing).
Abbreviation OpUnknown245 := xf5 (only parsing).
Abbreviation OpUnknown246 := xf6 (only parsing).
Abbreviation OpUnknown247 := xf7 (only parsing).
Abbreviation OpUnknown248 := xf8 (only parsing).
Abbreviation OpUnknown249 := xf9 (only parsing).
Abbreviation OpSmallInteger := xfa (only parsing).
Abbreviation OpPubKeys := xfb (only parsing).
Abbreviation OpUnknown252 := xfc (only parsing).
Abbreviation OpPubKeyHash := xfd (only parsing).
Abbreviation OpPubKey := xfe (only parsing).
Abbreviation OpInvalidOpCode := xff (only parsing).

(** Conditional execution constants. *)
Definition OpCondFalse : Z := 0.
Definition OpCondTrue : Z := 1.
Definition OpCondSkip : Z := 2.

(** The handler column of the opcode table: one tag per handler function. *)
Inductive OpFunc : Set :=
  | fn_opcodeFalse
  | fn_opcodePushData
  | fn_opcode1Negate
  | fn_opcodeReserved
  | fn_opcodeN
  | fn_opcodeNop
  | fn_opcodeIf
  | fn_opcodeNotIf
  | fn_opcodeElse
  | fn_opcodeEndif
  | fn_opcodeVerify
  | fn_opcodeReturn
  | fn_opcodeCheckLockTimeVerify
  | fn_opcodeCheckSequenceVerify
  | fn_opcodeToAltStack
  | fn_opcodeFromAltStack
  | fn_opcode2Drop
  | fn_opcode2Dup
  | fn_opcode3Dup
  | fn_opcode2Over
  | fn_opcode2Rot
  | fn_opcode2Swap
  | fn_opcodeIfDup
  | fn_opcodeDepth
  | fn_opcodeDrop
  | fn_opcodeDup
  | fn_opcodeNip
  | fn_opcodeOver
  | fn_opcodePick
  | fn_opcodeRoll
  | fn_opcodeRot
  | fn_opcodeSwap
  | fn_opcodeTuck
  | fn_opcodeDisabled
  | fn_opcodeSize
  | fn_opcodeEqual
  | fn_opcodeEqualVerify
  | fn_opcode1Add
  | fn_opcode1Sub
  | fn_opcodeNegate
  | fn_opcodeAbs
  | fn_opcodeNot
  | fn_opcode0NotEqual
  | fn_opcodeAdd
  | fn_opcodeSub
  | fn_opcodeBoolAnd
  | fn_opcodeBoolOr
  | fn_opcodeNumEqual
  | fn_opcodeNumEqualVerify
  | fn_opcodeNumNotEqual
  | fn_opcodeLessThan
  | fn_opcodeGreaterThan
  | fn_opcodeLessThanOrEqual
  | fn_opcodeGreaterThanOrEqual
  | fn_opcodeMin
  | fn_opcodeMax
  | fn_opcodeWithin
  | fn_opcodeRipemd160
  | fn_opcodeSha1
  | fn_opcodeSha256
  | fn_opcodeHash160
  | fn_opcodeHash256
  | fn_opcodeCodeSeparator
  | fn_opcodeCheckSig
  | fn_opcodeCheckSigVerify
  | fn_opcodeCheckMultiSig
  | fn_opcodeCheckMultiSigVerify
  | fn_opcodeInvalid
.

(** An opcode: its value, name, length and handler.  The field [length] of
    the source is [oplength] here. *)
Record opcode : Set := mkOpcode {
  value : byte;
  name : string;
  oplength : Z;
  opfunc : OpFunc
}.

(** [opcodeArray] holds the details of all 256 opcodes, indexed by byte. *)
Definition opcodeArray (b : byte) : opcode :=
  match b with
  | OpFalse => mkOpcode OpFalse "OpZero"%string (1) fn_opcodeFalse
  | OpData1 => mkOpcode OpData1 "OpData1"%string (2) fn_opcodePushData
  | OpData2 => mkOpcode OpData2 "OpData2"%string (3) fn_opcodePushData
  | OpData3 => mkOpcode OpData3 "OpData3"%string (4) fn_opcodePushData
  | OpData4 => mkOpcode OpData4 "OpData4"%string (5) fn_opcodePushData
  | OpData5 => mkOpcode OpData5 "OpData5"%string (6) fn_opcodePushData
  | OpData6 => mkOpcode OpData6 "OpData6"%string (7) fn_opcodePushData
  | OpData7 => mkOpcode OpData7 "OpData7"%string (8) fn_opcodePushData
  | OpData8 => mkOpcode OpData8 "OpData8"%string (9) fn_opcodePushData
  | OpData9 => mkOpcode OpData9 "OpData9"%string (10) fn_opcodePushData
  | OpData10 => mkOpcode OpData10 "OpData10"%string (11) fn_opcodePushData
  | OpData11 => mkOpcode OpData11 "OpData11"%string (12) fn_opcodePushData
  | OpData12 => mkOpcode OpData12 "OpData12"%string (13) fn_opcodePushData
  | OpData13 => mkOpcode OpData13 "OpData13"%string (14) fn_opcodePushData
  | OpData14 => mkOpcode OpData14 "OpData14"%string (15) fn_opcodePushData
  | OpData15 => mkOpcode OpData15 "OpData15"%string (16) fn_opcodePushData
  | OpData16 => mkOpcode OpData16 "OpData16"%string (17) fn_opcodePushData
  | OpData17 => mkOpcode OpData17 "OpData17"%string (18) fn_opcodePushData
  | OpData18 => mkOpcode OpData18 "OpData18"%string (19) fn_opcodePushData
  | OpData19 => mkOpcode OpData19 "OpData19"%string (20) fn_opcodePushData
  | OpData20 => mkOpcode OpData20 "OpData20"%string (21) fn_opcodePushData
  | OpData21 => mkOpcode OpData21 "OpData21"%string (22) fn_opcodePushData
  | OpData22 => mkOpcode OpData22 "OpData22"%string (23) fn_opcodePushData
  | OpData23 => mkOpcode OpData23 "OpData23"%string (24) fn_opcodePushData
  | OpData24 => mkOpcode OpData24 "OpData24"%string (25) fn_opcodePushData
  | OpData25 => mkOpcode OpData25 "OpData25"%string (26) fn_opcodePushData
  | OpData26 => mkOpcode OpData26 "OpData26"%string (27) fn_opcodePushData
  | OpData27 => mkOpcode OpData27 "OpData27"%string (28) fn_opcodePushData
  | OpData28 => mkOpcode OpData28 "OpData28"%string (29) fn_opcodePushData
  | OpData29 => mkOpcode OpData29 "OpData29"%string (30) fn_opcodePushData
  | OpData30 => mkOpcode OpData30 "OpData30"%string (31) fn_opcodePushData
  | OpData31 => mkOpcode OpData31 "OpData31"%string (32) fn_opcodePushData
  | OpData32 => mkOpcode OpData32 "OpData32"%string (33) fn_opcodePushData
  | OpData33 => mkOpcode OpData33 "OpData33"%string (34) fn_opcodePushData
  | OpData34 => mkOpcode OpData34 "OpData34"%string (35) fn_opcodePushData
  | OpData35 => mkOpcode OpData35 "OpData35"%string (36) fn_opcodePushData
  | OpData36 => mkOpcode OpData36 "OpData36"%string (37) fn_opcodePushData
  | OpData37 => mkOpcode OpData37 "OpData37"%string (38) fn_opcodePushData
  | OpData38 => mkOpcode OpData38 "OpData38"%string (39) fn_opcodePushData
  | OpData39 => mkOpcode OpData39 "OpData39"%string (40) fn_opcodePushData
  | OpData40 => mkOpcode OpData40 "OpData40"%string (41) fn_opcodePushData
  | OpData41 => mkOpcode OpData41 "OpData41"%string (42) fn_opcodePushData
  | OpData42 => mkOpcode OpData42 "OpData42"%string (43) fn_opcodePushData
  | OpData43 => mkOpcode OpData43 "OpData43"%string (44) fn_opcodePushData
  | OpData44 => mkOpcode OpData44 "OpData44"%string (45) fn_opcodePushData
  | OpData45 => mkOpcode OpData45 "OpData45"%string (46) fn_opcodePushData
  | OpData46 => mkOpcode OpData46 "OpData46"%string (47) fn_opcodePushData
  | OpData47 => mkOpcode OpData47 "OpData47"%string (48) fn_opcodePushData
  | OpData48 => mkOpcode OpData48 "OpData48"%string (49) fn_opcodePushData
  | OpData49 => mkOpcode OpData49 "OpData49"%string (50) fn_opcodePushData
  | OpData50 => mkOpcode OpData50 "OpData50"%string (51) fn_opcodePushData
  | OpData51 => mkOpcode OpData51 "OpData51"%string (52) fn_opcodePushData
  | OpData52 => mkOpcode OpData52 "OpData52"%string (53) fn_opcodePushData
  | OpData53 => mkOpcode OpData53 "OpData53"%string (54) fn_opcodePushData
  | OpData54 => mkOpcode OpData54 "OpData54"%string (55) fn_opcodePushData
  | OpData55 => mkOpcode OpData55 "OpData55"%string (56) fn_opcodePushData
  | OpData56 => mkOpcode OpData56 "OpData56"%string (57) fn_opcodePushData
  | OpData57 => mkOpcode OpData57 "OpData57"%string (58) fn_opcodePushData
  | OpData58 => mkOpcode OpData58 "OpData58"%string (59) fn_opcodePushData
  | OpData59 => mkOpcode OpData59 "OpData59"%string (60) fn_opcodePushData
  | OpData60 => mkOpcode OpData60 "OpData60"%string (61) fn_opcodePushData
  | OpData61 => mkOpcode OpData61 "OpData61"%string (62) fn_opcodePushData
  | OpData62 => mkOpcode OpData62 "OpData62"%string (63) fn_opcodePushData
  | OpData63 => mkOpcode OpData63 "OpData63"%string (64) fn_opcodePushData
  | OpData64 => mkOpcode OpData64 "OpData64"%string (65) fn_opcodePushData
  | OpData65 => mkOpcode OpData65 "OpData65"%string (66) fn_opcodePushData
  | OpData66 => mkOpcode OpData66 "OpData66"%string (67) fn_opcodePushData
  | OpData67 => mkOpcode OpData67 "OpData67"%string (68) fn_opcodePushData
  | OpData68 => mkOpcode OpData68 "OpData68"%string (69) fn_opcodePushData
  | OpData69 => mkOpcode OpData69 "OpData69"%string (70) fn_opcodePushData
  | OpData70 => mkOpcode OpData70 "OpData70"%string (71) fn_opcodePushData
  | OpData71 => mkOpcode OpData71 "OpData71"%string (72) fn_opcodePushData
  | OpData72 => mkOpcode OpData72 "OpData72"%string (73) fn_opcodePushData
  | OpData73 => mkOpcode OpData73 "OpData73"%string (74) fn_opcodePushData
  | OpData74 => mkOpcode OpData74 "OpData74"%string (75) fn_opcodePushData
  | OpData75 => mkOpcode OpData75 "OpData75"%string (76) fn_opcodePushData
  | OpPushData1 => mkOpcode OpPushData1 "OpPushData1"%string (-1) fn_opcodePushData
  | OpPushData2 => mkOpcode OpPushData2 "OpPushData2"%string (-2) fn_opcodePushData
  | OpPushData4 => mkOpcode OpPushData4 "OpPushData4"%string (-4) fn_opcodePushData
  | Op1Negate => mkOpcode Op1Negate "Op1Negate"%string (1) fn_opcode1Negate
  | OpReserved => mkOpcode OpReserved "OpReserved"%string (1) fn_opcodeReserved
  | OpTrue => mkOpcode OpTrue "Op1"%string (1) fn_opcodeN
  | Op2 => mkOpcode Op2 "Op2"%string (1) fn_opcodeN
  | Op3 => mkOpcode Op3 "Op3"%string (1) fn_opcodeN
  | Op4 => mkOpcode Op4 "Op4"%string (1) fn_opcodeN
  | Op5 => mkOpcode Op5 "Op5"%string (1) fn_opcodeN
  | Op6 => mkOpcode Op6 "Op6"%string (1) fn_opcodeN
  | Op7 => mkOpcode Op7 "Op7"%string (1) fn_opcodeN
  | Op8 => mkOpcode Op8 "Op8"%string (1) fn_opcodeN
  | Op9 => mkOpcode Op9 "Op9"%string (1) fn_opcodeN
  | Op10 => mkOpcode Op10 "Op10"%string (1) fn_opcodeN
  | Op11 => mkOpcode Op11 "Op11"%string (1) fn_opcodeN
  | Op12 => mkOpcode Op12 "Op12"%string (1) fn_opcodeN
  | Op13 => mkOpcode Op13 "Op13"%string (1) fn_opcodeN
  | Op14 => mkOpcode Op14 "Op14"%string (1) fn_opcodeN
  | Op15 => mkOpcode Op15 "Op15"%string (1) fn_opcodeN
  | Op16 => mkOpcode Op16 "Op16"%string (1) fn_opcodeN
  | OpNoOp => mkOpcode OpNoOp "OpNoOp"%string (1) fn_opcodeNop
  | OpVer => mkOpcode OpVer "OpVer"%string (1) fn_opcodeReserved
  | OpIf => mkOpcode OpIf "OpIf"%string (1) fn_opcodeIf
  | OpIfNot => mkOpcode OpIfNot "OpIfNot"%string (1) fn_opcodeNotIf
  | OpVerIf => mkOpcode OpVerIf "OpVerIf"%string (1) fn_opcodeReserved
  | OpVerIfNot => mkOpcode OpVerIfNot "OpVerIfNot"%string (1) fn_opcodeReserved
  | OpElse => mkOpcode OpElse "OpElse"%string (1) fn_opcodeElse
  | OpEndIf => mkOpcode OpEndIf "OpEndIf"%string (1) fn_opcodeEndif
  | OpVerify => mkOpcode OpVerify "OpVerify"%string (1) fn_opcodeVerify
  | OpReturn => mkOpcode OpReturn "OpReturn"%string (1) fn_opcodeReturn
  | OpCheckLockTimeVerify => mkOpcode OpCheckLockTimeVerify "OpCheckLockTimeVerify"%string (1) fn_opcodeCheckLockTimeVerify
  | OpCheckSequenceVerify => mkOpcode OpCheckSequenceVerify "OpCheckSequenceVerify"%string (1) fn_opcodeCheckSequenceVerify
  | OpToAltStack => mkOpcode OpToAltStack "OpToAltStack"%string (1) fn_opcodeToAltStack
  | OpFromAltStack => mkOpcode OpFromAltStack "OpFromAltStack"%string (1) fn_opcodeFromAltStack
  | Op2Drop => mkOpcode Op2Drop "Op2Drop"%string (1) fn_opcode2Drop
  | Op2Dup => mkOpcode Op2Dup "Op2Dup"%string (1) fn_opcode2Dup
  | Op3Dup => mkOpcode Op3Dup "Op3Dup"%string (1) fn_opcode3Dup
  | Op2Over => mkOpcode Op2Over "Op2Over"%string (1) fn_opcode2Over
  | Op2Rot => mkOpcode Op2Rot "Op2Rot"%string (1) fn_opcode2Rot
  | Op2Swap => mkOpcode Op2Swap "Op2Swap"%string (1) fn_opcode2Swap
  | OpIfDup => mkOpcode OpIfDup "OpIfDup"%string (1) fn_opcodeIfDup
  | OpDepth => mkOpcode OpDepth "OpDepth"%string (1) fn_opcodeDepth
  | OpDrop => mkOpcode OpDrop "OpDrop"%string (1) fn_opcodeDrop
  | OpDup => mkOpcode OpDup "OpDup"%string (1) fn_opcodeDup
  | OpNip => mkOpcode OpNip "OpNip"%string (1) fn_opcodeNip
  | OpOver => mkOpcode OpOver "OpOver"%string (1) fn_opcodeOver
  | OpPick => mkOpcode OpPick "OpPick"%string (1) fn_opcodePick
  | OpRoll => mkOpcode OpRoll "OpRoll"%string (1) fn_opcodeRoll
  | OpRot => mkOpcode OpRot "OpRot"%string (1) fn_opcodeRot
  | OpSwap => mkOpcode OpSwap "OpSwap"%string (1) fn_opcodeSwap
  | OpTuck => mkOpcode OpTuck "OpTuck"%string (1) fn_opcodeTuck
  | OpCat => mkOpcode OpCat "OpCat"%string (1) fn_opcodeDisabled
  | OpSubstr => mkOpcode OpSubstr "OpSubstr"%string (1) fn_opcodeDisabled
  | OpLeft => mkOpcode OpLeft "OpLeft"%string (1) fn_opcodeDisabled
  | OpRight => mkOpcode OpRight "OpRight"%string (1) fn_opcodeDisabled
  | OpSize => mkOpcode OpSize "OpSize"%string (1) fn_opcodeSize
  | OpInvert => mkOpcode OpInvert "OpInvert"%string (1) fn_opcodeDisabled
  | OpAnd => mkOpcode OpAnd "OpAnd"%string (1) fn_opcodeDisabled
  | OpOr => mkOpcode OpOr "OpOr"%string (1) fn_opcodeDisabled
  | OpXor => mkOpcode OpXor "OpXor"%string (1) fn_opcodeDisabled
  | OpEqual => mkOpcode OpEqual "OpEqual"%string (1) fn_opcodeEqual
  | OpEqualVerify => mkOpcode OpEqualVerify "OpEqualVerify"%string (1) fn_opcodeEqualVerify
  | OpReserved1 => mkOpcode OpReserved1 "OpReserved1"%string (1) fn_opcodeReserved
  | OpReserved2 => mkOpcode OpReserved2 "OpReserved2"%string (1) fn_opcodeReserved
  | Op1Add => mkOpcode Op1Add "Op1Add"%string (1) fn_opcode1Add
  | Op1Sub => mkOpcode Op1Sub "Op1Sub"%string (1) fn_opcode1Sub
  | Op1Mul => mkOpcode Op1Mul "Op1Mul"%string (1) fn_opcodeDisabled
  | Op2Div => mkOpcode Op2Div "Op2Div"%string (1) fn_opcodeDisabled
  | OpNegate => mkOpcode OpNegate "OpNegate"%string (1) fn_opcodeNegate
  | OpAbs => mkOpcode OpAbs "OpAbs"%string (1) fn_opcodeAbs
  | OpNot => mkOpcode OpNot "OpNot"%string (1) fn_opcodeNot
  | Op0NotEqual => mkOpcode Op0NotEqual "Op0NotEqual"%string (1) fn_opcode0NotEqual
  | OpAdd => mkOpcode OpAdd "OpAdd"%string (1) fn_opcodeAdd
  | OpSub => mkOpcode OpSub "OpSub"%string (1) fn_opcodeSub
  | OpMul => mkOpcode OpMul "OpMul"%string (1) fn_opcodeDisabled
  | OpDiv => mkOpcode OpDiv "OpDiv"%string (1) fn_opcodeDisabled
  | OpMod => mkOpcode OpMod "OpMod"%string (1) fn_opcodeDisabled
  | OpLShift => mkOpcode OpLShift "OpLShift"%string (1) fn_opcodeDisabled
  | OpRShift => mkOpcode OpRShift "OpRShift"%string (1) fn_opcodeDisabled
  | OpBoolAnd => mkOpcode OpBoolAnd "OpBoolAnd"%string (1) fn_opcodeBoolAnd
  | OpBoolOr => mkOpcode OpBoolOr "OpBoolOr"%string (1) fn_opcodeBoolOr
  | OpNumEqual => mkOpcode OpNumEqual "OpNumEqual"%string (1) fn_opcodeNumEqual
  | OpNumEqualVerify => mkOpcode OpNumEqualVerify "OpNumEqualVerify"%string (1) fn_opcodeNumEqualVerify
  | OpNumNotEqual => mkOpcode OpNumNotEqual "OpNumNotEqual"%string (1) fn_opcodeNumNotEqual
  | OpLessThan => mkOpcode OpLessThan "OpLessThan"%string (1) fn_opcodeLessThan
  | OpGreaterThan => mkOpcode OpGreaterThan "OpGreaterThan"%string (1) fn_opcodeGreaterThan
  | OpLessThanOrEqual => mkOpcode OpLessThanOrEqual "OpLessThanOrEqual"%string (1) fn_opcodeLessThanOrEqual
  | OpGreaterThanOrEqual => mkOpcode OpGreaterThanOrEqual "OpGreaterThanOrEqual"%string (1) fn_opcodeGreaterThanOrEqual
  | OpMin => mkOpcode OpMin "OpMin"%string (1) fn_opcodeMin
  | OpMax => mkOpcode OpMax "OpMax"%string (1) fn_opcodeMax
  | OpWithin => mkOpcode OpWithin "OpWithin"%string (1) fn_opcodeWithin
  | OpRipeMD160 => mkOpcode OpRipeMD160 "OpRipeMD160"%string (1) fn_opcodeRipemd160
  | OpSHA1 => mkOpcode OpSHA1 "OpSHA1"%string (1) fn_opcodeSha1
  | OpSHA256 => mkOpcode OpSHA256 "OpSHA256"%string (1) fn_opcodeSha256
  | OpHash160 => mkOpcode OpHash160 "OpHash160"%string (1) fn_opcodeHash160
  | OpHash256 => mkOpcode OpHash256 "OpHash256"%string (1) fn_opcodeHash256
  | OpCodeSeparator => mkOpcode OpCodeSeparator "OpCodeSeparator"%string (1) fn_opcodeCodeSeparator
  | OpCheckSig => mkOpcode OpCheckSig "OpCheckSig"%string (1) fn_opcodeCheckSig
  | OpCheckSigVerify => mkOpcode OpCheckSigVerify "OpCheckSigVerify"%string (1) fn_opcodeCheckSigVerify
  | OpCheckMultiSig => mkOpcode OpCheckMultiSig "OpCheckMultiSig"%string (1) fn_opcodeCheckMultiSig
  | OpCheckMultiSigVerify => mkOpcode OpCheckMultiSigVerify "OpCheckMultiSigVerify"%string (1) fn_opcodeCheckMultiSigVerify
  | OpNoOp1 => mkOpcode OpNoOp1 "OpNoOp1"%string (1) fn_opcodeNop
  | OpNoOp4 => mkOpcode OpNoOp4 "OpNoOp4"%string (1) fn_opcodeNop
  | OpNoOp5 => mkOpcode OpNoOp5 "OpNoOp5"%string (1) fn_opcodeNop
  | OpNoOp6 => mkOpcode OpNoOp6 "OpNoOp6"%string (1) fn_opcodeNop
  | OpNoOp7 => mkOpcode OpNoOp7 "OpNoOp7"%string (1) fn_opcodeNop
  | OpNoOp8 => mkOpcode OpNoOp8 "OpNoOp8"%string (1) fn_opcodeNop
  | OpNoOp9 => mkOpcode OpNoOp9 "OpNoOp9"%string (1) fn_opcodeNop
  | OpNoOp10 => mkOpcode OpNoOp10 "OpNoOp10"%string (1) fn_opcodeNop
  | OpUnknown186 => mkOpcode OpUnknown186 "OpUnknown186"%string (1) fn_opcodeInvalid
  | OpUnknown187 => mkOpcode OpUnknown187 "OpUnknown187"%string (1) fn_opcodeInvalid
  | OpUnknown188 => mkOpcode OpUnknown188 "OpUnknown188"%string (1) fn_opcodeInvalid
  | OpUnknown189 => mkOpcode OpUnknown189 "OpUnknown189"%string (1) fn_opcodeInvalid
  | OpUnknown190 => mkOpcode OpUnknown190 "OpUnknown190"%string (1) fn_opcodeInvalid
  | OpUnknown191 => mkOpcode OpUnknown191 "OpUnknown191"%string (1) fn_opcodeInvalid
  | OpUnknown192 => mkOpcode OpUnknown192 "OpUnknown192"%string (1) fn_opcodeInvalid
  | OpUnknown193 => mkOpcode OpUnknown193 "OpUnknown193"%string (1) fn_opcodeInvalid
  | OpUnknown194 => mkOpcode OpUnknown194 "OpUnknown194"%string (1) fn_opcodeInvalid
  | OpUnknown195 => mkOpcode OpUnknown195 "OpUnknown195"%string (1) fn_opcodeInvalid
  | OpUnknown196 => mkOpcode OpUnknown196 "OpUnknown196"%string (1) fn_opcodeInvalid
  | OpUnknown197 => mkOpcode OpUnknown197 "OpUnknown197"%string (1) fn_opcodeInvalid
  | OpUnknown198 => mkOpcode OpUnknown198 "OpUnknown198"%string (1) fn_opcodeInvalid
  | OpUnknown199 => mkOpcode OpUnknown199 "OpUnknown199"%string (1) fn_opcodeInvalid
  | OpUnknown200 => mkOpcode OpUnknown200 "OpUnknown200"%string (1) fn_opcodeInvalid
  | OpUnknown201 => mkOpcode OpUnknown201 "OpUnknown201"%string (1) fn_opcodeInvalid
  | OpUnknown202 => mkOpcode OpUnknown202 "OpUnknown202"%string (1) fn_opcodeInvalid
  | OpUnknown203 => mkOpcode OpUnknown203 "OpUnknown203"%string (1) fn_opcodeInvalid
  | OpUnknown204 => mkOpcode OpUnknown204 "OpUnknown204"%string (1) fn_opcodeInvalid
  | OpUnknown205 => mkOpcode OpUnknown205 "OpUnknown205"%string (1) fn_opcodeInvalid
  | OpUnknown206 => mkOpcode OpUnknown206 "OpUnknown206"%string (1) fn_opcodeInvalid
  | OpUnknown207 => mkOpcode OpUnknown207 "OpUnknown207"%string (1) fn_opcodeInvalid
  | OpUnknown208 => mkOpcode OpUnknown208 "OpUnknown208"%string (1) fn_opcodeInvalid
  | OpUnknown209 => mkOpcode OpUnknown209 "OpUnknown209"%string (1) fn_opcodeInvalid
  | OpUnknown210 => mkOpcode OpUnknown210 "OpUnknown210"%string (1) fn_opcodeInvalid
  | OpUnknown211 => mkOpcode OpUnknown211 "OpUnknown211"%string (1) fn_opcodeInvalid
  | OpUnknown212 => mkOpcode OpUnknown212 "OpUnknown212"%string (1) fn_opcodeInvalid
  | OpUnknown213 => mkOpcode OpUnknown213 "OpUnknown213"%string (1) fn_opcodeInvalid
  | OpUnknown214 => mkOpcode OpUnknown214 "OpUnknown214"%string (1) fn_opcodeInvalid
  | OpUnknown215 => mkOpcode OpUnknown215 "OpUnknown215"%string (1) fn_opcodeInvalid
  | OpUnknown216 => mkOpcode OpUnknown216 "OpUnknown216"%string (1) fn_opcodeInvalid
  | OpUnknown217 => mkOpcode OpUnknown217 "OpUnknown217"%string (1) fn_opcodeInvalid
  | OpUnknown218 => mkOpcode OpUnknown218 "OpUnknown218"%string (1) fn_opcodeInvalid
  | OpUnknown219 => mkOpcode OpUnknown219 "OpUnknown219"%string (1) fn_opcodeInvalid
  | OpUnknown220 => mkOpcode OpUnknown220 "OpUnknown220"%string (1) fn_opcodeInvalid
  | OpUnknown221 => mkOpcode OpUnknown221 "OpUnknown221"%string (1) fn_opcodeInvalid
  | OpUnknown222 => mkOpcode OpUnknown222 "OpUnknown222"%string (1) fn_opcodeInvalid
  | OpUnknown223 => mkOpcode OpUnknown223 "OpUnknown223"%string (1) fn_opcodeInvalid
  | OpUnknown224 => mkOpcode OpUnknown224 "OpUnknown224"%string (1) fn_opcodeInvalid
  | OpUnknown225 => mkOpcode OpUnknown225 "OpUnknown225"%string (1) fn_opcodeInvalid
  | OpUnknown226 => mkOpcode OpUnknown226 "OpUnknown226"%string (1) fn_opcodeInvalid
  | OpUnknown227 => mkOpcode OpUnknown227 "OpUnknown227"%string (1) fn_opcodeInvalid
  | OpUnknown228 => mkOpcode OpUnknown228 "OpUnknown228"%string (1) fn_opcodeInvalid
  | OpUnknown229 => mkOpcode OpUnknown229 "OpUnknown229"%string (1) fn_opcodeInvalid
  | OpUnknown230 => mkOpcode OpUnknown230 "OpUnknown230"%string (1) fn_opcodeInvalid
  | OpUnknown231 => mkOpcode OpUnknown231 "OpUnknown231"%string (1) fn_opcodeInvalid
  | OpUnknown232 => mkOpcode OpUnknown232 "OpUnknown232"%string (1) fn_opcodeInvalid
  | OpUnknown233 => mkOpcode OpUnknown233 "OpUnknown233"%string (1) fn_opcodeInvalid
  | OpUnknown234 => mkOpcode OpUnknown234 "OpUnknown234"%string (1) fn_opcodeInvalid
  | OpUnknown235 => mkOpcode OpUnknown235 "OpUnknown235"%string (1) fn_opcodeInvalid
  | OpUnknown236 => mkOpcode OpUnknown236 "OpUnknown236"%string (1) fn_opcodeInvalid
  | OpUnknown237 => mkOpcode OpUnknown237 "OpUnknown237"%string (1) fn_opcodeInvalid
  | OpUnknown238 => mkOpcode OpUnknown238 "OpUnknown238"%string (1) fn_opcodeInvalid
  | OpUnknown239 => mkOpcode OpUnknown239 "OpUnknown239"%string (1) fn_opcodeInvalid
  | OpUnknown240 => mkOpcode OpUnknown240 "OpUnknown240"%string (1) fn_opcodeInvalid
  | OpUnknown241 => mkOpcode OpUnknown241 "OpUnknown241"%string (1) fn_opcodeInvalid
  | OpUnknown242 => mkOpcode OpUnknown242 "OpUnknown242"%string (1) fn_opcodeInvalid
  | OpUnknown243 => mkOpcode OpUnknown243 "OpUnknown243"%string (1) fn_opcodeInvalid
  | OpUnknown244 => mkOpcode OpUnknown244 "OpUnknown244"%string (1) fn_opcodeInvalid
  | OpUnknown245 => mkOpcode OpUnknown245 "OpUnknown245"%string (1) fn_opcodeInvalid
  | OpUnknown246 => mkOpcode OpUnknown246 "OpUnknown246"%string (1) fn_opcodeInvalid
  | OpUnknown247 => mkOpcode OpUnknown247 "OpUnknown247"%string (1) fn_opcodeInvalid
  | OpUnknown248 => mkOpcode OpUnknown248 "OpUnknown248"%string (1) fn_opcodeInvalid
  | OpUnknown249 => mkOpcode OpUnknown249 "OpUnknown249"%string (1) fn_opcodeInvalid
  | OpSmallInteger => mkOpcode OpSmallInteger "OpSmallInteger"%string (1) fn_opcodeInvalid
  | OpPubKeys => mkOpcode OpPubKeys "OpPubKeys"%string (1) fn_opcodeInvalid
  | OpUnknown252 => mkOpcode OpUnknown252 "OpUnknown252"%string (1) fn_opcodeInvalid
  | OpPubKeyHash => mkOpcode OpPubKeyHash "OpPubKeyHash"%string (1) fn_opcodeInvalid
  | OpPubKey => mkOpcode OpPubKey "OpPubKey"%string (1) fn_opcodeInvalid
  | OpInvalidOpCode => mkOpcode OpInvalidOpCode "OpInvalidOpCode"%string (1) fn_opcodeInvalid
  end.

(** ** Parsed opcodes *)

(** [parsedOpcode] is an opcode that has been parsed, with the data that
    goes with it.  The field [opcode] of the source is [popOpcode] here. *)
Record parsedOpcode : Set := mkParsedOpcode {
  popOpcode : opcode;
  data : byteSlice
}.

(** [isDisabled]: the opcode is disabled and thus always bad to see in the
    instruction stream (even if turned off by a conditional). *)
Definition isDisabled (pop : parsedOpcode) : bool :=
  match value (popOpcode pop) with
  | OpCat => true
  | OpSubstr => true
  | OpLeft => true
  | OpRight => true
  | OpInvert => true
  | OpAnd => true
  | OpOr => true
  | OpXor => true
  | Op1Mul => true
  | Op2Div => true
  | OpMul => true
  | OpDiv => true
  | OpMod => true
  | OpLShift => true
  | OpRShift => true
  | _ => false
  end.

(** [alwaysIllegal]: illegal when passed over by the program counter even in
    a non-executed branch. *)
Definition alwaysIllegal (pop : parsedOpcode) : bool :=
  match value (popOpcode pop) with
  | OpVerIf => true
  | OpVerIfNot => true
  | _ => false
  end.

(** [isConditional]: the opcode changes the conditional execution stack. *)
Definition isConditional (pop : parsedOpcode) : bool :=
  match value (popOpcode pop) with
  | OpIf => true
  | OpIfNot => true
  | OpElse => true
  | OpEndIf => true
  | _ => false
  end.

(** [data[0]] as an integer.  The source reads it only behind the guard
    [dataLen == 1], so the default of [nth] is never seen. *)
Definition data0 (d : byteSlice) : Z := byteZ (nth 0%nat d x00).

(** [checkMinimalDataPush]: does the data push use the smallest possible
    opcode to represent it?  [Ok tt] is the source's [nil]. *)
Definition checkMinimalDataPush (pop : parsedOpcode) : result unit :=
  let data := data pop in
  let dataLen := len data in
  let opcode := value (popOpcode pop) in
  if (dataLen =? 0) && negb (Byte.eqb opcode OpZero) then
    scriptError ErrMinimalData
  else if (dataLen =? 1) && (1 <=? data0 data) && (data0 data <=? 16) then
    if negb (Byte.eqb opcode (toByte (byteZ Op1 + data0 data - 1))) then
      (* Should have used Op1 .. Op16 *)
      scriptError ErrMinimalData
    else Ok tt
  else if (dataLen =? 1) && (data0 data =? 0x81) then
    if negb (Byte.eqb opcode Op1Negate) then
      scriptError ErrMinimalData
    else Ok tt
  else if dataLen <=? 75 then
    if negb (byteZ opcode =? dataLen) then
      (* Should have used a direct push *)
      scriptError ErrMinimalData
    else Ok tt
  else if dataLen <=? 255 then
    if negb (Byte.eqb opcode OpPushData1) then
      scriptError ErrMinimalData
    else Ok tt
  else if dataLen <=? 65535 then
    if negb (Byte.eqb opcode OpPushData2) then
      scriptError ErrMinimalData
    else Ok tt
  else Ok tt.

(** [binary.LittleEndian.Uint16] and [Uint32]; they panic on a slice that is
    too short. *)
Definition LittleEndian_Uint16 (b : byteSlice) : result Z :=
  match b with
  | b0 :: b1 :: _ => Ok (Z.lor (byteZ b0) (Z.shiftl (byteZ b1) 8))
  | _ => Panic
  end.

Definition LittleEndian_Uint32 (b : byteSlice) : result Z :=
  match b with
  | b0 :: b1 :: b2 :: b3 :: _ =>
      Ok (Z.lor (Z.lor (Z.lor (byteZ b0) (Z.shiftl (byteZ b1) 8))
                       (Z.shiftl (byteZ b2) 16))
                (Z.shiftl (byteZ b3) 24))
  | _ => Panic
  end.

(** [retbytes[1]] *)
Definition index1 (b : byteSlice) : result byte :=
  match b !! 1%nat with
  | Some x => Ok x
  | None => Panic
  end.

(** [bytes] returns the data of the opcode encoded as it would be in a
    script; it is used for unparsing scripts from parsed opcodes. *)
Definition bytes (pop : parsedOpcode) : result byteSlice :=
  let retbytes := [value (popOpcode pop)] in
  if oplength (popOpcode pop) =? 1 then
    if negb (len (data pop) =? 0) then scriptError ErrInternal
    else Ok retbytes
  else
    let nbytes := oplength (popOpcode pop) in
    '(retbytes, nbytes) ←
      (if oplength (popOpcode pop) <? 0 then
         let l := len (data pop) in
         if oplength (popOpcode pop) =? -1 then
           let retbytes := retbytes ++ [toByte l] in
           r1 ← index1 retbytes;
           Ok (retbytes, byteZ r1 + len retbytes)
         else if oplength (popOpcode pop) =? -2 then
           let retbytes := retbytes ++ [toByte (Z.land l 0xff);
                                        toByte (Z.land (Z.shiftr l 8) 0xff)] in
           v ← LittleEndian_Uint16 (drop 1 retbytes);
           Ok (retbytes, v + len retbytes)
         else if oplength (popOpcode pop) =? -4 then
           let retbytes := retbytes ++ [toByte (Z.land l 0xff);
                                        toByte (Z.land (Z.shiftr l 8) 0xff);
                                        toByte (Z.land (Z.shiftr l 16) 0xff);
                                        toByte (Z.land (Z.shiftr l 24) 0xff)] in
           v ← LittleEndian_Uint32 (drop 1 retbytes);
           Ok (retbytes, v + len retbytes)
         else Ok (retbytes, nbytes)
       else Ok (retbytes, nbytes));
    let retbytes := retbytes ++ data pop in
    if negb (len retbytes =? nbytes) then scriptError ErrInternal
    else Ok retbytes.


(** ** The transaction (package wire)

    Only the fields that [opcode.go] reads are declared: the version, the
    lock time and the sequence number of each input. *)
Record TxIn : Set := mkTxIn { Sequence : Z }.

Record MsgTx : Set := mkMsgTx {
  Version : Z;
  TxInputs : list TxIn;
  LockTime : Z
}.

(** [s[i]] for a Go [int] index: [None] stands for the run-time panic. *)
Definition indexZ {A} (s : list A) (i : Z) : option A :=
  if i <? 0 then None else s !! Z.to_nat i.

(** ** The data stack *)

(** Modelled from the spec: the stack type of [stack.go], which is not among
    the sources.  The stack is an ordered sequence of byte sequences, here
    with its top at the head of the list; [verifyMinimalData] is the
    minimal-encoding flag handed to the number decoder. *)
Record stack : Set := mkStack {
  stk : list byteSlice;
  verifyMinimalData : bool
}.

(** Modelled from the spec: [PushByteArray] of [stack.go], the push of a byte
    sequence.  The handlers call it as a statement, so it cannot fail
    there. *)
Definition PushByteArray (s : stack) (so : byteSlice) : stack :=
  mkStack (so :: stk s) (verifyMinimalData s).

(** Modelled from the spec: [PopByteArray] of [stack.go]; an operation that
    needs more elements than present fails with a stack underflow. *)
Definition PopByteArray (s : stack) : result (byteSlice * stack) :=
  match stk s with
  | [] => scriptError ErrStackUnderflow
  | so :: rest => Ok (so, mkStack rest (verifyMinimalData s))
  end.

(** Modelled from the spec: [PeekByteArray] of [stack.go], the item at depth
    [idx], which stays on the stack. *)
Definition PeekByteArray (s : stack) (idx : Z) : result byteSlice :=
  match indexZ (stk s) idx with
  | Some so => Ok so
  | None => scriptError ErrStackUnderflow
  end.

(** ** Policy flags *)
Inductive ScriptFlag : Set :=
  | ScriptDiscourageUpgradableNops
  | ScriptVerifyCheckLockTimeVerify
  | ScriptVerifyCheckSequenceVerify
  | ScriptVerifyDERSignatures
  | ScriptVerifyMinimalIf
  | ScriptVerifyNullFail
  | ScriptStrictMultiSig
  | ScriptVerifyStrictEncoding.

#[global] Instance ScriptFlag_eq_dec : EqDecision ScriptFlag.
Proof. solve_decision. Defined.

(** ** Types of the collaborators

    The parsed public keys and signatures of the elliptic-curve package, the
    signature cache, the cached signature-hash midstate, and the part of the
    engine that [opcode.go] never touches (the scripts, the script index, the
    witness program). *)
Class ExtTypes : Type := {
  PublicKey : Type;
  Signature : Type;
  SigCache : Type;
  TxSigHashes : Type;
  EngineRest : Type
}.

Section WithTypes.
Context {T : ExtTypes}.

(** ** The engine

    The fields of [Engine] that [opcode.go] reads or writes.  [flags] is
    modelled from the spec (the active policy flags of the execution
    context); a [nil] cache pointer is [None]. *)
Record Engine : Type := mkEngine {
  dstack : stack;
  astack : stack;
  condStack : list Z;
  numOps : Z;
  flags : list ScriptFlag;
  tx : MsgTx;
  txIdx : Z;
  inputAmount : Z;
  lastCodeSep : Z;
  hashCache : option TxSigHashes;
  sigCache : option SigCache;
  rest : EngineRest
}.

Definition set_dstack (vm : Engine) (s : stack) : Engine :=
  mkEngine s (astack vm) (condStack vm) (numOps vm) (flags vm) (tx vm)
    (txIdx vm) (inputAmount vm) (lastCodeSep vm) (hashCache vm) (sigCache vm)
    (rest vm).

Definition set_condStack (vm : Engine) (c : list Z) : Engine :=
  mkEngine (dstack vm) (astack vm) c (numOps vm) (flags vm) (tx vm)
    (txIdx vm) (inputAmount vm) (lastCodeSep vm) (hashCache vm) (sigCache vm)
    (rest vm).

Definition set_numOps (vm : Engine) (n : Z) : Engine :=
  mkEngine (dstack vm) (astack vm) (condStack vm) n (flags vm) (tx vm)
    (txIdx vm) (inputAmount vm) (lastCodeSep vm) (hashCache vm) (sigCache vm)
    (rest vm).

Definition set_sigCache (vm : Engine) (c : option SigCache) : Engine :=
  mkEngine (dstack vm) (astack vm) (condStack vm) (numOps vm) (flags vm)
    (tx vm) (txIdx vm) (inputAmount vm) (lastCodeSep vm) (hashCache vm) c
    (rest vm).

(** Modelled from the spec: [hasFlag] of [engine.go]; each policy flag is
    independently set or not in the flag set of the evaluation. *)
Definition hasFlag (vm : Engine) (f : ScriptFlag) : bool :=
  bool_decide (f ∈ flags vm).

(** Modelled from the spec: [isBranchExecuting] of [engine.go]; the current
    branch is executing when the condition stack is empty, or its top marker
    is True and no ancestor marker is Skip or False. *)
Definition isBranchExecuting (vm : Engine) : bool :=
  forallb (Z.eqb OpCondTrue) (condStack vm).

(** ** Functions and constants of the collaborators

    What [opcode.go] calls and the sources do not contain: the script number
    codec, the boolean views of a stack item, the methods of [engine.go], the
    signature hashes, the elliptic-curve package, the signature cache, and
    the constants of [engine.go], [script.go] and [wire].  The theorems hold
    for every choice of them. *)
Class Externals : Type := {
  (* scriptnum.go *)
  makeScriptNum : byteSlice -> bool -> Z -> result Z;
  scriptNum_Int32 : Z -> Z;
  (* stack.go *)
  asBool : byteSlice -> bool;
  fromBool : bool -> byteSlice;
  (* engine.go *)
  isWitnessVersionActive : Engine -> Z -> bool;
  checkHashTypeEncoding : Engine -> byte -> result unit;
  checkSignatureEncoding : Engine -> byteSlice -> result unit;
  checkPubKeyEncoding : Engine -> byteSlice -> result unit;
  subScript : Engine -> list parsedOpcode;
  (* script.go *)
  removeOpcodeByData : list parsedOpcode -> byteSlice -> list parsedOpcode;
  calcSignatureHash : list parsedOpcode -> byte -> MsgTx -> Z -> byteSlice;
  calcWitnessSignatureHash :
    list parsedOpcode -> TxSigHashes -> byte -> MsgTx -> Z -> Z ->
    result byteSlice;
  NewTxSigHashes : MsgTx -> TxSigHashes;
  (* the elliptic-curve package; [None] is a parse error *)
  ParsePubKey : byteSlice -> option PublicKey;
  ParseSignature : byteSlice -> option Signature;
  ParseDERSignature : byteSlice -> option Signature;
  Verify : Signature -> byteSlice -> PublicKey -> bool;
  (* sigcache.go *)
  SigCache_Exists : SigCache -> byteSlice -> Signature -> PublicKey -> bool;
  SigCache_Add : SigCache -> byteSlice -> Signature -> PublicKey -> SigCache;
  (* constants *)
  MaxPubKeysPerMultiSig : Z;
  MaxOpsPerScript : Z;
  LockTimeThreshold : Z;
  MaxTxInSequenceNum : Z
}.

End WithTypes.
Arguments Engine : clear implicits.
Arguments Externals : clear implicits.

Section Handlers.
Context {T : ExtTypes} {X : Externals T}.

(** ** Stack views used by the handlers *)

(** Modelled from the spec: [PopInt] of [stack.go]; an integer is popped with
    the 4-byte limit of ordinary arithmetic and the minimal-encoding flag of
    the stack. *)
Definition PopInt (s : stack) : result (Z * stack) :=
  '(so, s) ← PopByteArray s;
  n ← makeScriptNum so (verifyMinimalData s) 4;
  Ok (n, s).

(** Modelled from the spec: [PopBool] of [stack.go], the top item popped and
    read as a boolean. *)
Definition PopBool (s : stack) : result (bool * stack) :=
  '(so, s) ← PopByteArray s;
  Ok (asBool so, s).

(** Modelled from the spec: [PushBool] of [stack.go], the push of the byte
    sequence of a boolean. *)
Definition PushBool (s : stack) (val : bool) : stack :=
  PushByteArray s (fromBool val).

(** [s[len(s)-1]] and [s[:len(s)-1]] of a slice the caller knows to be
    non-empty. *)
Definition lastByte (s : byteSlice) : byte := default x00 (last s).
Definition dropLast (s : byteSlice) : byteSlice :=
  take (Z.to_nat (len s - 1)) s.

(** ** Common handlers *)

(** [opcodeDisabled] is the handler of the disabled opcodes. *)
Definition opcodeDisabled (op : parsedOpcode) (vm : Engine T) : result (Engine T) :=
  scriptError ErrDisabledOpcode.

(** [opcodeReserved] is the handler of the reserved opcodes. *)
Definition opcodeReserved (op : parsedOpcode) (vm : Engine T) : result (Engine T) :=
  scriptError ErrReservedOpcode.

(** [opcodeInvalid] is the handler of the invalid opcodes. *)
Definition opcodeInvalid (op : parsedOpcode) (vm : Engine T) : result (Engine T) :=
  scriptError ErrReservedOpcode.

(** ** Conditional opcodes *)

(** [popIfBool] enforces the minimal-if policy when its flag is set and a
    version 0 witness program is being executed; otherwise the top stack item
    is popped and read as a boolean. *)
Definition popIfBool (vm : Engine T) : result (bool * Engine T) :=
  if negb (isWitnessVersionActive vm 0) || negb (hasFlag vm ScriptVerifyMinimalIf) then
    '(b, s) ← PopBool (dstack vm);
    Ok (b, set_dstack vm s)
  else
    '(so, s) ← PopByteArray (dstack vm);
    let vm := set_dstack vm s in
    if len so >? 1 then scriptError ErrMinimalIf
    else if (len so =? 1) && negb (data0 so =? 0x01) then scriptError ErrMinimalIf
    else Ok (asBool so, vm).

(** [opcodeIf].  Conditional stack transformation: [...] -> [... OpCondValue] *)
Definition opcodeIf (op : parsedOpcode) (vm : Engine T) : result (Engine T) :=
  '(condVal, vm) ←
    (if isBranchExecuting vm then
       '(ok, vm) ← popIfBool vm;
       Ok (if ok : bool then OpCondTrue else OpCondFalse, vm)
     else Ok (OpCondSkip, vm));
  Ok (set_condStack vm (condStack vm ++ [condVal])).

(** [opcodeNotIf].  Conditional stack transformation: [...] -> [... OpCondValue] *)
Definition opcodeNotIf (op : parsedOpcode) (vm : Engine T) : result (Engine T) :=
  '(condVal, vm) ←
    (if isBranchExecuting vm then
       '(ok, vm) ← popIfBool vm;
       Ok (if negb ok then OpCondTrue else OpCondFalse, vm)
     else Ok (OpCondSkip, vm));
  Ok (set_condStack vm (condStack vm ++ [condVal])).

(** [opcodeElse] inverts conditional execution for the other half of
    if/else/endif. *)
Definition opcodeElse (op : parsedOpcode) (vm : Engine T) : result (Engine T) :=
  if len (condStack vm) =? 0 then scriptError ErrUnbalancedConditional
  else
    let conditionalIdx := len (condStack vm) - 1 in
    match indexZ (condStack vm) conditionalIdx with
    | None => Panic
    | Some c =>
        if c =? OpCondTrue then
          Ok (set_condStack vm (<[Z.to_nat conditionalIdx := OpCondFalse]> (condStack vm)))
        else if c =? OpCondFalse then
          Ok (set_condStack vm (<[Z.to_nat conditionalIdx := OpCondTrue]> (condStack vm)))
        else
          (* OpCondSkip: the value doesn't change in skip *)
          Ok vm
    end.

(** [opcodeEndif] terminates a conditional block. *)
Definition opcodeEndif (op : parsedOpcode) (vm : Engine T) : result (Engine T) :=
  if len (condStack vm) =? 0 then scriptError ErrUnbalancedConditional
  else Ok (set_condStack vm (take (Z.to_nat (len (condStack vm) - 1)) (condStack vm))).

(** [abstractVerify] pops the top item as a boolean and fails with the given
    code when it is false. *)
Definition abstractVerify (op : parsedOpcode) (vm : Engine T) (c : ErrorCode)
  : result (Engine T) :=
  '(verified, s) ← PopBool (dstack vm);
  if negb verified then scriptError c
  else Ok (set_dstack vm s).

(** ** Lock time *)

(** [verifyLockTime] is the helper that validates lock times. *)
Definition verifyLockTime (txLockTime threshold lockTime : Z) : result unit :=
  if negb (((txLockTime <? threshold) && (lockTime <? threshold)) ||
           ((txLockTime >=? threshold) && (lockTime >=? threshold))) then
    scriptError ErrUnsatisfiedLockTime
  else if lockTime >? txLockTime then
    scriptError ErrUnsatisfiedLockTime
  else Ok tt.

(** [opcodeCheckLockTimeVerify] compares the top item of the data stack with
    the lock time of the transaction. *)
Definition opcodeCheckLockTimeVerify (op : parsedOpcode) (vm : Engine T)
  : result (Engine T) :=
  if negb (hasFlag vm ScriptVerifyCheckLockTimeVerify) then
    if hasFlag vm ScriptDiscourageUpgradableNops then
      scriptError ErrDiscourageUpgradableNOPs
    else Ok vm
  else
    so ← PeekByteArray (dstack vm) 0;
    lockTime ← makeScriptNum so (verifyMinimalData (dstack vm)) 5;
    if lockTime <? 0 then scriptError ErrNegativeLockTime
    else
      _ ← verifyLockTime (LockTime (tx vm)) LockTimeThreshold lockTime;
      match indexZ (TxInputs (tx vm)) (txIdx vm) with
      | None => Panic
      | Some txin =>
          if Sequence txin =? MaxTxInSequenceNum then
            scriptError ErrUnsatisfiedLockTime
          else Ok vm
      end.

(** ** Signature checking *)

(** [copy(sigHash[:], hash)] into a zeroed [chainhash.Hash] of 32 bytes. *)
Definition copyHash (hash : byteSlice) : byteSlice :=
  take 32 hash ++ replicate (32 - length hash)%nat x00.

(** The witness signature hash, from the cached midstate of the engine when
    it has one; it can fail. *)
Definition witnessHash (vm : Engine T) (script : list parsedOpcode)
    (hashType : byte) : result byteSlice :=
  let sigHashes :=
    match hashCache vm with
    | Some h => h
    | None => NewTxSigHashes (tx vm)
    end in
  calcWitnessSignatureHash script sigHashes hashType (tx vm) (txIdx vm)
    (inputAmount vm).

(** The signature hash in [opcodeCheckSig]: of the script from the most
    recent code separator, from which the legacy algorithm first removes the
    signature. *)
Definition checkSigHash (vm : Engine T) (fullSigBytes : byteSlice)
    (hashType : byte) : result byteSlice :=
  let subScript := subScript vm in
  if isWitnessVersionActive vm 0 then witnessHash vm subScript hashType
  else
    let subScript := removeOpcodeByData subScript fullSigBytes in
    Ok (calcSignatureHash subScript hashType (tx vm) (txIdx vm)).

(** The signature hash in the loop of [opcodeCheckMultiSig]. *)
Definition signatureHash (vm : Engine T) (script : list parsedOpcode)
    (hashType : byte) : result byteSlice :=
  if isWitnessVersionActive vm 0 then witnessHash vm script hashType
  else Ok (calcSignatureHash script hashType (tx vm) (txIdx vm)).

(** The verification of both signature opcodes: through the signature cache
    when the engine has one (a miss that verifies is stored), directly
    otherwise. *)
Definition verifySignature (vm : Engine T) (hash : byteSlice)
    (signature : Signature) (pubKey : PublicKey) : bool * Engine T :=
  match sigCache vm with
  | Some cache =>
      let sigHash := copyHash hash in
      let valid := SigCache_Exists cache sigHash signature pubKey in
      if negb valid && Verify signature hash pubKey then
        (true, set_sigCache vm (Some (SigCache_Add cache sigHash signature pubKey)))
      else (valid, vm)
  | None => (Verify signature hash pubKey, vm)
  end.

(** [ParseDERSignature] under the strict or DER flag, [ParseSignature]
    otherwise. *)
Definition parseSig (vm : Engine T) (sigBytes : byteSlice) : option Signature :=
  if hasFlag vm ScriptVerifyStrictEncoding || hasFlag vm ScriptVerifyDERSignatures then
    ParseDERSignature sigBytes
  else ParseSignature sigBytes.

(** [opcodeCheckSig].
    Stack transformation: [... signature pubkey] -> [... bool] *)
Definition opcodeCheckSig (op : parsedOpcode) (vm : Engine T) : result (Engine T) :=
  '(pkBytes, s) ← PopByteArray (dstack vm);
  let vm := set_dstack vm s in
  '(fullSigBytes, s) ← PopByteArray (dstack vm);
  let vm := set_dstack vm s in
  if len fullSigBytes <? 1 then
    Ok (set_dstack vm (PushBool (dstack vm) false))
  else
    let hashType := lastByte fullSigBytes in
    let sigBytes := dropLast fullSigBytes in
    _ ← checkHashTypeEncoding vm hashType;
    _ ← checkSignatureEncoding vm sigBytes;
    _ ← checkPubKeyEncoding vm pkBytes;
    hash ← checkSigHash vm fullSigBytes hashType;
    match ParsePubKey pkBytes with
    | None => Ok (set_dstack vm (PushBool (dstack vm) false))
    | Some pubKey =>
        match parseSig vm sigBytes with
        | None => Ok (set_dstack vm (PushBool (dstack vm) false))
        | Some signature =>
            let '(valid, vm) := verifySignature vm hash signature pubKey in
            if negb valid && hasFlag vm ScriptVerifyNullFail && (len sigBytes >? 0) then
              scriptError ErrNullFail
            else Ok (set_dstack vm (PushBool (dstack vm) valid))
        end
    end.

(** [opcodeCheckSigVerify] is [opcodeCheckSig] followed by [abstractVerify]. *)
Definition opcodeCheckSigVerify (op : parsedOpcode) (vm : Engine T) : result (Engine T) :=
  vm ← opcodeCheckSig op vm;
  abstractVerify op vm ErrCheckSigVerify.

(** ** Multi-signature checking *)

(** [parsedSigInfo] houses a raw signature along with its parsed form and a
    flag for whether or not it has already been parsed. *)
Record parsedSigInfo : Type := mkParsedSigInfo {
  signature : byteSlice;
  parsedSignature : option Signature;
  parsed : bool
}.

(** [for i := 0; i < n; i++ { x, err := vm.dstack.PopByteArray(); ...;
    xs = append(xs, x) }] *)
Fixpoint popByteArrays (n : nat) (s : stack) : result (list byteSlice * stack) :=
  match n with
  | O => Ok ([], s)
  | S n =>
      '(x, s) ← PopByteArray s;
      '(xs, s) ← popByteArrays n s;
      Ok (x :: xs, s)
  end.

(** The first part of [opcodeCheckMultiSig]: the number of public keys, the
    public keys, the number of signatures and the signatures are popped. *)
Definition multisigArgs : Type :=
  Z * list byteSlice * Z * list parsedSigInfo * Engine T.

Definition multisigPopArgs (vm : Engine T) : result multisigArgs :=
  '(numKeys, s) ← PopInt (dstack vm);
  let vm := set_dstack vm s in
  let numPubKeys := scriptNum_Int32 numKeys in
  if numPubKeys <? 0 then (scriptError ErrInvalidPubKeyCount : result multisigArgs)
  else if numPubKeys >? MaxPubKeysPerMultiSig then scriptError ErrInvalidPubKeyCount
  else
    let vm := set_numOps vm (numOps vm + numPubKeys) in
    if numOps vm >? MaxOpsPerScript then scriptError ErrTooManyOperations
    else
      '(pubKeys, s) ← popByteArrays (Z.to_nat numPubKeys) (dstack vm);
      let vm := set_dstack vm s in
      '(numSigs, s) ← PopInt (dstack vm);
      let vm := set_dstack vm s in
      let numSignatures := scriptNum_Int32 numSigs in
      if numSignatures <? 0 then
        (scriptError ErrInvalidSignatureCount : result multisigArgs)
      else if numSignatures >? numPubKeys then scriptError ErrInvalidSignatureCount
      else
        '(sigs, s) ← popByteArrays (Z.to_nat numSignatures) (dstack vm);
        let vm := set_dstack vm s in
        let signatures := map (fun sig => mkParsedSigInfo sig None false) sigs in
        Ok (numPubKeys, pubKeys, numSignatures, signatures, vm).

(** The variables of the matching loop.  The signatures are pointers to
    [parsedSigInfo] in the source, so the updates of an element are written
    back into the list; the engine is carried for its signature cache. *)
Record multiSigState : Type := mkMultiSigState {
  numSignatures : Z;
  numPubKeys : Z;
  pubKeyIdx : Z;
  signatureIdx : Z;
  signatures : list parsedSigInfo;
  msVm : Engine T
}.

(** The loop body from [rawSig := sigInfo.signature] to the computation of
    [valid], for one signature and one public key.  [Ok (false, _, _)] is
    also the source's [continue]. *)
Definition multisigCheckPair (script : list parsedOpcode) (vm : Engine T)
    (sigInfo : parsedSigInfo) (pubKey : byteSlice)
  : result (bool * parsedSigInfo * Engine T) :=
  let rawSig := signature sigInfo in
  if len rawSig =? 0 then
    (* Skip to the next pubkey if signature is empty. *)
    Ok (false, sigInfo, vm)
  else
    let hashType := lastByte rawSig in
    let signature := dropLast rawSig in
    (* Only parse and check the signature encoding once. *)
    '(sigInfo, parsedSig) ←
      (if negb (parsed sigInfo) then
         _ ← checkHashTypeEncoding vm hashType;
         _ ← checkSignatureEncoding vm signature;
         let r := parseSig vm signature in
         let sigInfo := mkParsedSigInfo rawSig (parsedSignature sigInfo) true in
         match r with
         | None => Ok (sigInfo, None)
         | Some parsedSig =>
             Ok (mkParsedSigInfo rawSig (Some parsedSig) true, Some parsedSig)
         end
       else Ok (sigInfo, parsedSignature sigInfo));
    match parsedSig with
    | None => Ok (false, sigInfo, vm)
    | Some parsedSig =>
        _ ← checkPubKeyEncoding vm pubKey;
        match ParsePubKey pubKey with
        | None => Ok (false, sigInfo, vm)
        | Some parsedPubKey =>
            hash ← signatureHash vm script hashType;
            let '(valid, vm) := verifySignature vm hash parsedSig parsedPubKey in
            Ok (valid, sigInfo, vm)
        end
    end.

(** What one pass through the loop body does. *)
Inductive iterOutcome : Type :=
  | IterNext (st : multiSigState)      (* back to the loop condition *)
  | IterBreak (st : multiSigState)     (* [success = false; break] *)
  | IterReturn (e : ErrorCode)         (* [return err] *)
  | IterPanic
  | IterOutOfFuel.

(** One pass through the body of [for numSignatures > 0]. *)
Definition multisigIter (pubKeys : list byteSlice) (script : list parsedOpcode)
    (st : multiSigState) : iterOutcome :=
  let pubKeyIdx := pubKeyIdx st + 1 in
  let numPubKeys := numPubKeys st - 1 in
  let st := mkMultiSigState (numSignatures st) numPubKeys pubKeyIdx
              (signatureIdx st) (signatures st) (msVm st) in
  if numSignatures st >? numPubKeys then IterBreak st
  else
    match indexZ (signatures st) (signatureIdx st) with
    | None => IterPanic
    | Some sigInfo =>
        match indexZ pubKeys pubKeyIdx with
        | None => IterPanic
        | Some pubKey =>
            match multisigCheckPair script (msVm st) sigInfo pubKey with
            | Err e => IterReturn e
            | Panic => IterPanic
            | OutOfFuel => IterOutOfFuel
            | Ok (valid, sigInfo, vm) =>
                let sigs := <[Z.to_nat (signatureIdx st) := sigInfo]> (signatures st) in
                if valid : bool then
                  (* PubKey verified, move on to the next signature. *)
                  IterNext (mkMultiSigState (numSignatures st - 1) numPubKeys
                              pubKeyIdx (signatureIdx st + 1) sigs vm)
                else
                  IterNext (mkMultiSigState (numSignatures st) numPubKeys
                              pubKeyIdx (signatureIdx st) sigs vm)
            end
        end
    end.

(** [for numSignatures > 0 { ... }]: the result is [success] and the final
    variables. *)
Fixpoint multisigLoop (fuel : nat) (pubKeys : list byteSlice)
    (script : list parsedOpcode) (st : multiSigState)
  : result (bool * multiSigState) :=
  if numSignatures st >? 0 then
    match fuel with
    | O => OutOfFuel
    | S fuel =>
        match multisigIter pubKeys script st with
        | IterNext st => multisigLoop fuel pubKeys script st
        | IterBreak st => Ok (false, st)
        | IterReturn e => Err e
        | IterPanic => Panic
        | IterOutOfFuel => OutOfFuel
        end
    end
  else Ok (true, st).

(** The script that the signatures of [opcodeCheckMultiSig] sign: from the
    most recent code separator, with the signatures removed unless a version
    0 witness program is active. *)
Definition multisigScript (vm : Engine T) (sigInfos : list parsedSigInfo)
  : list parsedOpcode :=
  let script := subScript vm in
  if negb (isWitnessVersionActive vm 0) then
    foldl (fun script sigInfo => removeOpcodeByData script (signature sigInfo))
          script sigInfos
  else script.

(** The last part of [opcodeCheckMultiSig], from the computation of the
    script to the push of the result.  The arguments [nPubKeys], [nSignatures]
    and [sigInfos] are the values of [numPubKeys], [numSignatures] and
    [signatures] when the argument phase ends.  The loop runs at most once
    per public key and once more, which is the fuel it gets. *)
Definition multisigVerify (nPubKeys : Z) (pubKeys : list byteSlice)
    (nSignatures : Z) (sigInfos : list parsedSigInfo) (vm : Engine T)
  : result (Engine T) :=
  let script := multisigScript vm sigInfos in
  '(success, st) ←
    multisigLoop (Z.to_nat (nPubKeys + 1)) pubKeys script
      (mkMultiSigState nSignatures (nPubKeys + 1) (-1) 0 sigInfos vm);
  let vm := msVm st in
  if negb success && hasFlag vm ScriptVerifyNullFail &&
     existsb (fun sig => len (signature sig) >? 0) (signatures st) then
    scriptError ErrNullFail
  else Ok (set_dstack vm (PushBool (dstack vm) success)).

(** [opcodeCheckMultiSig].  Stack transformation:
    [... dummy [sig ...] numsigs [pubkey ...] numpubkeys] -> [... bool] *)
Definition opcodeCheckMultiSig (op : parsedOpcode) (vm : Engine T) : result (Engine T) :=
  '(nPubKeys, pubKeys, nSignatures, sigInfos, vm) ← multisigPopArgs vm;
  (* one more stack value than should be used must be popped *)
  '(dummy, s) ← PopByteArray (dstack vm);
  let vm := set_dstack vm s in
  if hasFlag vm ScriptStrictMultiSig && negb (len dummy =? 0) then
    scriptError ErrSigNullDummy
  else multisigVerify nPubKeys pubKeys nSignatures sigInfos vm.

(** [opcodeCheckMultiSigVerify] is [opcodeCheckMultiSig] followed by
    [abstractVerify]. *)
Definition opcodeCheckMultiSigVerify (op : parsedOpcode) (vm : Engine T)
  : result (Engine T) :=
  vm ← opcodeCheckMultiSig op vm;
  abstractVerify op vm ErrCheckMultiSigVerify.

End Handlers.

(** ** The decoder and the engine step

    The functions of [script.go] and [engine.go] that the properties below
    speak of are not among the sources; they are written from the
    specification. *)

(** The value of a little-endian length prefix. *)
Definition littleEndian (b : byteSlice) : Z :=
  foldr (fun x acc => byteZ x + 256 * acc) 0 b.

(** The number of prefix bytes of PUSHDATA1/2/4. *)
Definition prefixLength (b : byte) : option nat :=
  match b with
  | OpPushData1 => Some 1%nat
  | OpPushData2 => Some 2%nat
  | OpPushData4 => Some 4%nat
  | _ => None
  end.

(** The direct push range: the opcode byte is the length of the data. *)
Definition isDirectPush (b : byte) : bool :=
  (byteZ OpData1 <=? byteZ b) && (byteZ b <=? byteZ OpData75).

(** Modelled from the spec: the decoder [parseScript] of [script.go].  It
    walks the raw script byte by byte: a byte in the direct push range is
    itself the length of the push data that follows; PUSHDATA1/2/4 are
    followed by a 1/2/4-byte little-endian length and then that many data
    bytes; every other opcode is one byte without data.  Decoding fails when
    a declared length runs past the end of the script.  Each step consumes at
    least one byte, so the length of the script is enough fuel. *)
Fixpoint parseScriptFuel (fuel : nat) (script : byteSlice)
  : result (list parsedOpcode) :=
  match script with
  | [] => Ok []
  | instr :: tail =>
      match fuel with
      | O => OutOfFuel
      | S fuel =>
          let op := opcodeArray instr in
          if isDirectPush instr then
            let n := Z.to_nat (byteZ instr) in
            if (length tail <? n)%nat then scriptError ErrMalformedPush
            else
              pops ← parseScriptFuel fuel (drop n tail);
              Ok (mkParsedOpcode op (take n tail) :: pops)
          else
            match prefixLength instr with
            | Some k =>
                if (length tail <? k)%nat then scriptError ErrMalformedPush
                else
                  let l := Z.to_nat (littleEndian (take k tail)) in
                  let tail := drop k tail in
                  if (length tail <? l)%nat then scriptError ErrMalformedPush
                  else
                    pops ← parseScriptFuel fuel (drop l tail);
                    Ok (mkParsedOpcode op (take l tail) :: pops)
            | None =>
                pops ← parseScriptFuel fuel tail;
                Ok (mkParsedOpcode op [] :: pops)
            end
      end
  end.

(** Modelled from the spec: [parseScript] of [script.go], the decoder run on
    a whole script. *)
Definition parseScript (script : byteSlice) : result (list parsedOpcode) :=
  parseScriptFuel (length script) script.

(** Modelled from the spec: [unparseScript] of [script.go], the re-encoding
    of a decoded script: the [bytes] of each parsed opcode, concatenated in
    order. *)
Fixpoint unparseScript (pops : list parsedOpcode) : result byteSlice :=
  match pops with
  | [] => Ok []
  | pop :: pops =>
      b ← bytes pop;
      script ← unparseScript pops;
      Ok (b ++ script)
  end.

Section Engine.
Context {T : ExtTypes} {X : Externals T}.

(** The handler of a table entry.  [others] stands for the handlers of
    [opcode.go] that this development does not embed. *)
Definition handler (others : OpFunc -> parsedOpcode -> Engine T -> result (Engine T))
    (f : OpFunc) : parsedOpcode -> Engine T -> result (Engine T) :=
  match f with
  | fn_opcodeDisabled => opcodeDisabled
  | fn_opcodeReserved => opcodeReserved
  | fn_opcodeInvalid => opcodeInvalid
  | fn_opcodeIf => opcodeIf
  | fn_opcodeNotIf => opcodeNotIf
  | fn_opcodeElse => opcodeElse
  | fn_opcodeEndif => opcodeEndif
  | fn_opcodeCheckLockTimeVerify => opcodeCheckLockTimeVerify
  | fn_opcodeCheckSig => opcodeCheckSig
  | fn_opcodeCheckSigVerify => opcodeCheckSigVerify
  | fn_opcodeCheckMultiSig => opcodeCheckMultiSig
  | fn_opcodeCheckMultiSigVerify => opcodeCheckMultiSigVerify
  | f => others f
  end.

(** Modelled from the spec: [executeOpcode] of [engine.go].  For each parsed
    opcode the engine first checks, unconditionally, whether the opcode is
    always illegal and whether it is disabled; it then checks whether the
    current branch is executing: the conditional opcodes always run, every
    other opcode runs its handler only if the branch is executing and is
    skipped with no effect otherwise.  After an opcode that is heavy the
    opcode counter is incremented and checked against the limit; [heavy] is
    the list of those opcodes, which the specification leaves open. *)
Definition executeOpcode
    (others : OpFunc -> parsedOpcode -> Engine T -> result (Engine T))
    (heavy : parsedOpcode -> bool)
    (pop : parsedOpcode) (vm : Engine T) : result (Engine T) :=
  if alwaysIllegal pop then scriptError ErrReservedOpcode
  else if isDisabled pop then scriptError ErrDisabledOpcode
  else if negb (isBranchExecuting vm) && negb (isConditional pop) then Ok vm
  else
    vm ← handler others (opfunc (popOpcode pop)) pop vm;
    if heavy pop then
      let vm := set_numOps vm (numOps vm + 1) in
      if numOps vm >? MaxOpsPerScript then scriptError ErrTooManyOperations
      else Ok vm
    else Ok vm.

(** Modelled from the spec: the run of [engine.go] over a decoded script.
    The engine steps through the decoded opcode sequence, one opcode after
    the other; an error of a step aborts the remainder of the evaluation
    immediately. *)
Fixpoint runOpcodes
    (others : OpFunc -> parsedOpcode -> Engine T -> result (Engine T))
    (heavy : parsedOpcode -> bool)
    (pops : list parsedOpcode) (vm : Engine T) : result (Engine T) :=
  match pops with
  | [] => Ok vm
  | pop :: pops =>
      vm ← executeOpcode others heavy pop vm;
      runOpcodes others heavy pops vm
  end.

(** ** The matching of CHECKMULTISIG as the specification words it

    An ordered two-pointer scan over the signatures still to match and the
    public keys still to try: when more signatures than keys remain the
    result is failure; otherwise the first remaining signature is tried
    against the first remaining key; a match advances both, a failure
    advances the keys only. *)
Fixpoint orderedScan (script : list parsedOpcode) (vm : Engine T)
    (sigs : list parsedSigInfo) (keys : list byteSlice) {struct keys}
  : result (bool * Engine T) :=
  match sigs with
  | [] => Ok (true, vm)
  | sigInfo :: sigs' =>
      if (length keys <? length sigs)%nat then Ok (false, vm)
      else
        match keys with
        | [] => Ok (false, vm)
        | key :: keys' =>
            match multisigCheckPair script vm sigInfo key with
            | Ok (true, _, vm) => orderedScan script vm sigs' keys'
            | Ok (false, sigInfo, vm) => orderedScan script vm (sigInfo :: sigs') keys'
            | Err e => Err e
            | Panic => Panic
            | OutOfFuel => OutOfFuel
            end
        end
  end.

(** The abstraction of the loop variables: [sigs] are the signatures from
    [signatureIdx] on, [keys] the public keys after [pubKeyIdx], and the two
    counters are their numbers, the key counter being one ahead. *)
Definition scanState (pubKeys : list byteSlice) (st : multiSigState)
    (sigs : list parsedSigInfo) (keys : list byteSlice) : Prop :=
  exists s p : nat,
    signatureIdx st = Z.of_nat s /\ pubKeyIdx st + 1 = Z.of_nat p /\
    drop s (signatures st) = sigs /\ drop p pubKeys = keys /\
    numSignatures st = len sigs /\ numPubKeys st = len keys + 1.

(** The pairs (signature index, public key index) that the loop of the
    source matches, in the order it matches them: a pass through the body
    that advances [signatureIdx] has verified the signature at the old
    [signatureIdx] against the key at the new [pubKeyIdx]. *)
Fixpoint multisigMatches (fuel : nat) (pubKeys : list byteSlice)
    (script : list parsedOpcode) (st : multiSigState) : list (Z * Z) :=
  if numSignatures st >? 0 then
    match fuel with
    | O => []
    | S fuel =>
        match multisigIter pubKeys script st with
        | IterNext st' =>
            (if signatureIdx st' =? signatureIdx st + 1
             then [(signatureIdx st, pubKeyIdx st')] else []) ++
            multisigMatches fuel pubKeys script st'
        | _ => []
        end
    end
  else [].

End Engine.

(** ** The canonical push encoding as the specification words it

    A zero-length payload uses the push-empty opcode; a single byte of value
    1 to 16 uses the small-integer opcode of that value; the single byte 0x81
    uses the negate-one opcode; a payload of at most 75 bytes uses the direct
    push of its length; one of 76 to 255 bytes uses PUSHDATA1; one of 256 to
    65535 bytes uses PUSHDATA2; no other combination is canonical. *)
Definition canonicalPush (pop : parsedOpcode) : bool :=
  let n := len (data pop) in
  let v := byteZ (value (popOpcode pop)) in
  if n =? 0 then v =? byteZ OpZero
  else if (n =? 1) && (1 <=? data0 (data pop)) && (data0 (data pop) <=? 16) then
    v =? byteZ Op1 + data0 (data pop) - 1
  else if (n =? 1) && (data0 (data pop) =? 0x81) then v =? byteZ Op1Negate
  else if n <=? 75 then v =? n
  else if n <=? 255 then v =? byteZ OpPushData1
  else if n <=? 65535 then v =? byteZ OpPushData2
  else false.

(** ** A small instance of the collaborators

    Toy stand-ins on which the embedding runs on concrete inputs: keys and
    signatures are their own bytes, a signature verifies against a key when
    the two byte strings are equal, the strict checks look at the first byte
    only, and the signature cache is a list. *)
Definition demoTypes : ExtTypes := {|
  PublicKey := byteSlice;
  Signature := byteSlice;
  SigCache := list (byteSlice * byteSlice * byteSlice);
  TxSigHashes := unit;
  EngineRest := bool
|}.

Definition bytesEqb (a b : byteSlice) : bool :=
  (length a =? length b)%nat && forallb (fun p => Byte.eqb p.1 p.2) (zip a b).

Definition demoScriptNum (so : byteSlice) (minimal : bool) (maxLen : Z) : result Z :=
  if len so >? maxLen then Err (ErrOther 1)
  else
    match so with
    | [] => Ok 0
    | _ =>
        let v := littleEndian so in
        let top := 2 ^ (8 * len so - 1) in
        if top <=? v then Ok (- (v - top)) else Ok v
    end.

Definition demoStrict (vm : Engine demoTypes) : bool :=
  hasFlag vm ScriptVerifyStrictEncoding.

Definition demoExternals : Externals demoTypes := {|
  makeScriptNum := demoScriptNum;
  scriptNum_Int32 := fun n => Z.max (- 2 ^ 31) (Z.min n (2 ^ 31 - 1));
  asBool := fun so => negb (forallb (Byte.eqb x00) so);
  fromBool := fun b => if b then [x01] else [];
  isWitnessVersionActive := fun (vm : Engine demoTypes) v =>
    (rest vm : bool) && (v =? 0);
  checkHashTypeEncoding := fun (vm : Engine demoTypes) hashType =>
    if demoStrict vm && negb ((1 <=? byteZ hashType) && (byteZ hashType <=? 3))
    then Err (ErrOther 2) else Ok tt;
  checkSignatureEncoding := fun (vm : Engine demoTypes) sig =>
    if (demoStrict vm || hasFlag vm ScriptVerifyDERSignatures) &&
       negb (Byte.eqb (nth 0%nat sig x00) x30)
    then Err (ErrOther 3) else Ok tt;
  checkPubKeyEncoding := fun (vm : Engine demoTypes) pk =>
    if demoStrict vm && negb (Byte.eqb (nth 0%nat pk x00) x02)
    then Err (ErrOther 4) else Ok tt;
  subScript := fun _ => [];
  removeOpcodeByData := fun script _ => script;
  calcSignatureHash := fun _ hashType _ _ => [hashType];
  calcWitnessSignatureHash := fun _ _ hashType _ _ _ => Ok [hashType];
  NewTxSigHashes := fun _ => tt;
  ParsePubKey := fun pk : byteSlice => if len pk =? 0 then None else Some pk;
  ParseSignature := fun sig : byteSlice => if len sig =? 0 then None else Some sig;
  ParseDERSignature := fun sig : byteSlice =>
    if Byte.eqb (nth 0%nat sig x00) x30 then Some sig else None;
  Verify := fun (sig : byteSlice) _ (pk : byteSlice) => bytesEqb sig pk;
  SigCache_Exists := fun (c : list (byteSlice * byteSlice * byteSlice)) h sig pk =>
    existsb (fun e => bytesEqb e.1.1 h && bytesEqb e.1.2 sig && bytesEqb e.2 pk) c;
  SigCache_Add := fun (c : list (byteSlice * byteSlice * byteSlice)) h sig pk =>
    (h, sig, pk) :: c;
  MaxPubKeysPerMultiSig := 20;
  MaxOpsPerScript := 201;
  LockTimeThreshold := 500000000;
  MaxTxInSequenceNum := 0xffffffff
|}.

(** An engine of the instance with the given data stack, condition stack and
    flags, validating input 0 of a one-input transaction. *)
Definition demoEngine (items : list byteSlice) (conds : list Z)
    (fl : list ScriptFlag) (lockTime sequence : Z) : Engine demoTypes :=
  mkEngine (T := demoTypes) (mkStack items false) (mkStack [] false) conds 0 fl
    (mkMsgTx 1 [mkTxIn sequence] lockTime) 0 0 0 None None false.

(** * More of [opcode.go]

    The handlers of [opcode.go] beside those of the signature, lock-time and
    conditional opcodes, and the name table. *)

(** What these handlers call and the sources do not contain: the encoder of
    script numbers of [scriptnum.go], the hash functions of the standard and
    the chainhash libraries, and the sequence constants of [wire]. *)
Class Primitives : Type := {
  scriptNum_Bytes : Z -> byteSlice;
  ripemd160_Sum : byteSlice -> byteSlice;
  sha1_Sum : byteSlice -> byteSlice;
  sha256_Sum : byteSlice -> byteSlice;
  DoubleHashB : byteSlice -> byteSlice;
  SequenceLockTimeDisabled : Z;
  SequenceLockTimeIsSeconds : Z;
  SequenceLockTimeMask : Z
}.

(** A [scriptNum] is an [int64]: the result of an addition, subtraction or
    negation wraps around. *)
Definition int64 (x : Z) : Z := (x + 2 ^ 63) mod 2 ^ 64 - 2 ^ 63.

(** [bytes.Equal] *)
Definition bytes_Equal (a b : byteSlice) : bool :=
  (length a =? length b)%nat && forallb (fun p => Byte.eqb p.1 p.2) (zip a b).

(** Modelled from the spec: [Depth] of [stack.go], the number of items. *)
Definition Depth (s : stack) : Z := len (stk s).

Section MoreHandlers.
Context {T : ExtTypes} {X : Externals T} {P : Primitives}.

Definition set_astack (vm : Engine T) (s : stack) : Engine T :=
  mkEngine (dstack vm) s (condStack vm) (numOps vm) (flags vm) (tx vm)
    (txIdx vm) (inputAmount vm) (lastCodeSep vm) (hashCache vm) (sigCache vm)
    (rest vm).

(** Modelled from the spec: [PushInt] of [stack.go], the push of the byte
    sequence of a script number. *)
Definition PushInt (s : stack) (n : Z) : stack :=
  PushByteArray s (scriptNum_Bytes n).

(** ** Data pushes *)

(** [opcodeFalse] pushes an empty array to the data stack. *)
Definition opcodeFalse (op : parsedOpcode) (vm : Engine T) : result (Engine T) :=
  Ok (set_dstack vm (PushByteArray (dstack vm) [])).

(** [opcodePushData] pushes the data of the opcode. *)
Definition opcodePushData (op : parsedOpcode) (vm : Engine T) : result (Engine T) :=
  Ok (set_dstack vm (PushByteArray (dstack vm) (data op))).

(** [opcode1Negate] pushes -1, encoded as a number. *)
Definition opcode1Negate (op : parsedOpcode) (vm : Engine T) : result (Engine T) :=
  Ok (set_dstack vm (PushInt (dstack vm) (-1))).

(** [opcodeN] pushes the number the small integer opcode stands for: the
    difference of the opcode value and [Op1 - 1], computed on bytes. *)
Definition opcodeN (op : parsedOpcode) (vm : Engine T) : result (Engine T) :=
  Ok (set_dstack vm
        (PushInt (dstack vm)
           (byteZ (toByte (byteZ (value (popOpcode op)) - (byteZ Op1 - 1)))))).

(** [opcodeNop]: the NOP family does nothing, but the upgradable ones are an
    error under the flag that discourages them. *)
Definition opcodeNop (op : parsedOpcode) (vm : Engine T) : result (Engine T) :=
  match value (popOpcode op) with
  | OpNoOp1 | OpNoOp4 | OpNoOp5 | OpNoOp6 | OpNoOp7 | OpNoOp8 | OpNoOp9 | OpNoOp10 =>
      if hasFlag vm ScriptDiscourageUpgradableNops then
        scriptError ErrDiscourageUpgradableNOPs
      else Ok vm
  | _ => Ok vm
  end.

(** [opcodeVerify] *)
Definition opcodeVerify (op : parsedOpcode) (vm : Engine T) : result (Engine T) :=
  abstractVerify op vm ErrVerify.

(** [opcodeReturn]: it is always an error to return early from a script. *)
Definition opcodeReturn (op : parsedOpcode) (vm : Engine T) : result (Engine T) :=
  scriptError ErrEarlyReturn.

(** ** CHECKSEQUENCEVERIFY *)

(** [opcodeCheckSequenceVerify] compares the top item of the data stack with
    the sequence number of the input. *)
Definition opcodeCheckSequenceVerify (op : parsedOpcode) (vm : Engine T)
  : result (Engine T) :=
  if negb (hasFlag vm ScriptVerifyCheckSequenceVerify) then
    if hasFlag vm ScriptDiscourageUpgradableNops then
      scriptError ErrDiscourageUpgradableNOPs
    else Ok vm
  else
    so ← PeekByteArray (dstack vm) 0;
    stackSequence ← makeScriptNum so (verifyMinimalData (dstack vm)) 5;
    if stackSequence <? 0 then scriptError ErrNegativeLockTime
    else
      let sequence := stackSequence in
      (* the operand has the disabled flag set: behaves as a NOP *)
      if negb (Z.land sequence SequenceLockTimeDisabled =? 0) then Ok vm
      else if Version (tx vm) <? 2 then scriptError ErrUnsatisfiedLockTime
      else
        match indexZ (TxInputs (tx vm)) (txIdx vm) with
        | None => Panic
        | Some txin =>
            let txSequence := Sequence txin in
            if negb (Z.land txSequence SequenceLockTimeDisabled =? 0) then
              scriptError ErrUnsatisfiedLockTime
            else
              let lockTimeMask :=
                Z.lor SequenceLockTimeIsSeconds SequenceLockTimeMask in
              _ ← verifyLockTime (Z.land txSequence lockTimeMask)
                    SequenceLockTimeIsSeconds (Z.land sequence lockTimeMask);
              Ok vm
        end.

(** ** Stack opcodes *)

(** [opcodeToAltStack].
    Main data stack transformation: [... x1 x2 x3] -> [... x1 x2]
    Alt data stack transformation:  [... y1 y2 y3] -> [... y1 y2 y3 x3] *)
Definition opcodeToAltStack (op : parsedOpcode) (vm : Engine T) : result (Engine T) :=
  '(so, s) ← PopByteArray (dstack vm);
  let vm := set_dstack vm s in
  Ok (set_astack vm (PushByteArray (astack vm) so)).

(** [opcodeFromAltStack].
    Main data stack transformation: [... x1 x2 x3] -> [... x1 x2 x3 y3]
    Alt data stack transformation:  [... y1 y2 y3] -> [... y1 y2] *)
Definition opcodeFromAltStack (op : parsedOpcode) (vm : Engine T) : result (Engine T) :=
  '(so, s) ← PopByteArray (astack vm);
  let vm := set_astack vm s in
  Ok (set_dstack vm (PushByteArray (dstack vm) so)).

(** [opcodeIfDup] duplicates the top item of the stack if it is not zero. *)
Definition opcodeIfDup (op : parsedOpcode) (vm : Engine T) : result (Engine T) :=
  so ← PeekByteArray (dstack vm) 0;
  if asBool so then Ok (set_dstack vm (PushByteArray (dstack vm) so))
  else Ok vm.

(** [opcodeDepth] pushes the depth of the data stack prior to the opcode. *)
Definition opcodeDepth (op : parsedOpcode) (vm : Engine T) : result (Engine T) :=
  Ok (set_dstack vm (PushInt (dstack vm) (Depth (dstack vm)))).

(** [opcodeSize] pushes the size of the top item of the data stack. *)
Definition opcodeSize (op : parsedOpcode) (vm : Engine T) : result (Engine T) :=
  so ← PeekByteArray (dstack vm) 0;
  Ok (set_dstack vm (PushInt (dstack vm) (len so))).

(** [opcodeEqual] compares the top 2 items as raw bytes.
    Stack transformation: [... x1 x2] -> [... bool] *)
Definition opcodeEqual (op : parsedOpcode) (vm : Engine T) : result (Engine T) :=
  '(a, s) ← PopByteArray (dstack vm);
  '(b, s) ← PopByteArray s;
  Ok (set_dstack vm (PushBool s (bytes_Equal a b))).

(** ** Numeric opcodes *)

(** [opcode1Add].  Stack transformation: [... x1 x2] -> [... x1 x2+1] *)
Definition opcode1Add (op : parsedOpcode) (vm : Engine T) : result (Engine T) :=
  '(m, s) ← PopInt (dstack vm);
  Ok (set_dstack vm (PushInt s (int64 (m + 1)))).

(** [opcode1Sub].  Stack transformation: [... x1 x2] -> [... x1 x2-1] *)
Definition opcode1Sub (op : parsedOpcode) (vm : Engine T) : result (Engine T) :=
  '(m, s) ← PopInt (dstack vm);
  Ok (set_dstack vm (PushInt s (int64 (m - 1)))).

(** [opcodeNegate].  Stack transformation: [... x1 x2] -> [... x1 -x2] *)
Definition opcodeNegate (op : parsedOpcode) (vm : Engine T) : result (Engine T) :=
  '(m, s) ← PopInt (dstack vm);
  Ok (set_dstack vm (PushInt s (int64 (- m)))).

(** [opcodeAbs].  Stack transformation: [... x1 x2] -> [... x1 abs(x2)] *)
Definition opcodeAbs (op : parsedOpcode) (vm : Engine T) : result (Engine T) :=
  '(m, s) ← PopInt (dstack vm);
  let m := if m <? 0 then int64 (- m) else m in
  Ok (set_dstack vm (PushInt s m)).

(** [opcodeNot]: 0 becomes 1, non-zero becomes 0. *)
Definition opcodeNot (op : parsedOpcode) (vm : Engine T) : result (Engine T) :=
  '(m, s) ← PopInt (dstack vm);
  if m =? 0 then Ok (set_dstack vm (PushInt s 1))
  else Ok (set_dstack vm (PushInt s 0)).

(** [opcode0NotEqual]: 0 stays 0, non-zero becomes 1. *)
Definition opcode0NotEqual (op : parsedOpcode) (vm : Engine T) : result (Engine T) :=
  '(m, s) ← PopInt (dstack vm);
  let m := if negb (m =? 0) then 1 else m in
  Ok (set_dstack vm (PushInt s m)).

(** [opcodeAdd].  Stack transformation: [... x1 x2] -> [... x1+x2] *)
Definition opcodeAdd (op : parsedOpcode) (vm : Engine T) : result (Engine T) :=
  '(v0, s) ← PopInt (dstack vm);
  '(v1, s) ← PopInt s;
  Ok (set_dstack vm (PushInt s (int64 (v0 + v1)))).

(** [opcodeSub].  Stack transformation: [... x1 x2] -> [... x1-x2] *)
Definition opcodeSub (op : parsedOpcode) (vm : Engine T) : result (Engine T) :=
  '(v0, s) ← PopInt (dstack vm);
  '(v1, s) ← PopInt s;
  Ok (set_dstack vm (PushInt s (int64 (v1 - v0)))).

(** [opcodeBoolAnd]: 1 when both are not zero, otherwise 0. *)
Definition opcodeBoolAnd (op : parsedOpcode) (vm : Engine T) : result (Engine T) :=
  '(v0, s) ← PopInt (dstack vm);
  '(v1, s) ← PopInt s;
  if negb (v0 =? 0) && negb (v1 =? 0) then Ok (set_dstack vm (PushInt s 1))
  else Ok (set_dstack vm (PushInt s 0)).

(** [opcodeBoolOr]: 1 when either is not zero, otherwise 0. *)
Definition opcodeBoolOr (op : parsedOpcode) (vm : Engine T) : result (Engine T) :=
  '(v0, s) ← PopInt (dstack vm);
  '(v1, s) ← PopInt s;
  if negb (v0 =? 0) || negb (v1 =? 0) then Ok (set_dstack vm (PushInt s 1))
  else Ok (set_dstack vm (PushInt s 0)).

(** [opcodeNumEqual] *)
Definition opcodeNumEqual (op : parsedOpcode) (vm : Engine T) : result (Engine T) :=
  '(v0, s) ← PopInt (dstack vm);
  '(v1, s) ← PopInt s;
  if v0 =? v1 then Ok (set_dstack vm (PushInt s 1))
  else Ok (set_dstack vm (PushInt s 0)).

(** [opcodeNumNotEqual] *)
Definition opcodeNumNotEqual (op : parsedOpcode) (vm : Engine T) : result (Engine T) :=
  '(v0, s) ← PopInt (dstack vm);
  '(v1, s) ← PopInt s;
  if negb (v0 =? v1) then Ok (set_dstack vm (PushInt s 1))
  else Ok (set_dstack vm (PushInt s 0)).

(** [opcodeLessThan]: the second-to-top item is less than the top item. *)
Definition opcodeLessThan (op : parsedOpcode) (vm : Engine T) : result (Engine T) :=
  '(v0, s) ← PopInt (dstack vm);
  '(v1, s) ← PopInt s;
  if v1 <? v0 then Ok (set_dstack vm (PushInt s 1))
  else Ok (set_dstack vm (PushInt s 0)).

(** [opcodeGreaterThan] *)
Definition opcodeGreaterThan (op : parsedOpcode) (vm : Engine T) : result (Engine T) :=
  '(v0, s) ← PopInt (dstack vm);
  '(v1, s) ← PopInt s;
  if v1 >? v0 then Ok (set_dstack vm (PushInt s 1))
  else Ok (set_dstack vm (PushInt s 0)).

(** [opcodeLessThanOrEqual] *)
Definition opcodeLessThanOrEqual (op : parsedOpcode) (vm : Engine T) : result (Engine T) :=
  '(v0, s) ← PopInt (dstack vm);
  '(v1, s) ← PopInt s;
  if v1 <=? v0 then Ok (set_dstack vm (PushInt s 1))
  else Ok (set_dstack vm (PushInt s 0)).

(** [opcodeGreaterThanOrEqual] *)
Definition opcodeGreaterThanOrEqual (op : parsedOpcode) (vm : Engine T)
  : result (Engine T) :=
  '(v0, s) ← PopInt (dstack vm);
  '(v1, s) ← PopInt s;
  if v1 >=? v0 then Ok (set_dstack vm (PushInt s 1))
  else Ok (set_dstack vm (PushInt s 0)).

(** [opcodeMin] *)
Definition opcodeMin (op : parsedOpcode) (vm : Engine T) : result (Engine T) :=
  '(v0, s) ← PopInt (dstack vm);
  '(v1, s) ← PopInt s;
  if v1 <? v0 then Ok (set_dstack vm (PushInt s v1))
  else Ok (set_dstack vm (PushInt s v0)).

(** [opcodeMax] *)
Definition opcodeMax (op : parsedOpcode) (vm : Engine T) : result (Engine T) :=
  '(v0, s) ← PopInt (dstack vm);
  '(v1, s) ← PopInt s;
  if v1 >? v0 then Ok (set_dstack vm (PushInt s v1))
  else Ok (set_dstack vm (PushInt s v0)).

(** [opcodeWithin]: the top item is the max value, the second the min value,
    the third the value to test.
    Stack transformation: [... x1 min max] -> [... bool] *)
Definition opcodeWithin (op : parsedOpcode) (vm : Engine T) : result (Engine T) :=
  '(maxVal, s) ← PopInt (dstack vm);
  '(minVal, s) ← PopInt s;
  '(x, s) ← PopInt s;
  if (x >=? minVal) && (x <? maxVal) then Ok (set_dstack vm (PushInt s 1))
  else Ok (set_dstack vm (PushInt s 0)).

(** ** Hash opcodes *)

(** [opcodeRipemd160].  Stack transformation: [... x1] -> [... ripemd160(x1)] *)
Definition opcodeRipemd160 (op : parsedOpcode) (vm : Engine T) : result (Engine T) :=
  '(buf, s) ← PopByteArray (dstack vm);
  Ok (set_dstack vm (PushByteArray s (ripemd160_Sum buf))).

(** [opcodeSha1].  Stack transformation: [... x1] -> [... sha1(x1)] *)
Definition opcodeSha1 (op : parsedOpcode) (vm : Engine T) : result (Engine T) :=
  '(buf, s) ← PopByteArray (dstack vm);
  Ok (set_dstack vm (PushByteArray s (sha1_Sum buf))).

(** [opcodeSha256].  Stack transformation: [... x1] -> [... sha256(x1)] *)
Definition opcodeSha256 (op : parsedOpcode) (vm : Engine T) : result (Engine T) :=
  '(buf, s) ← PopByteArray (dstack vm);
  Ok (set_dstack vm (PushByteArray s (sha256_Sum buf))).

(** [opcodeHash160].
    Stack transformation: [... x1] -> [... ripemd160(sha256(x1))] *)
Definition opcodeHash160 (op : parsedOpcode) (vm : Engine T) : result (Engine T) :=
  '(buf, s) ← PopByteArray (dstack vm);
  let hash := sha256_Sum buf in
  Ok (set_dstack vm (PushByteArray s (ripemd160_Sum hash))).

(** [opcodeHash256].
    Stack transformation: [... x1] -> [... sha256(sha256(x1))] *)
Definition opcodeHash256 (op : parsedOpcode) (vm : Engine T) : result (Engine T) :=
  '(buf, s) ← PopByteArray (dstack vm);
  Ok (set_dstack vm (PushByteArray s (DoubleHashB buf))).

(** ** The handlers by their declared stack transformation *)

(** [... x] -> [... f(x)] *)
Definition unaryHandlers : list (parsedOpcode -> Engine T -> result (Engine T)) :=
  [opcode1Add; opcode1Sub; opcodeNegate; opcodeAbs; opcodeNot; opcode0NotEqual;
   opcodeRipemd160; opcodeSha1; opcodeSha256; opcodeHash160; opcodeHash256].

(** [... x1 x2] -> [... f(x1, x2)] *)
Definition binaryHandlers : list (parsedOpcode -> Engine T -> result (Engine T)) :=
  [opcodeEqual; opcodeAdd; opcodeSub; opcodeBoolAnd; opcodeBoolOr; opcodeNumEqual;
   opcodeNumNotEqual; opcodeLessThan; opcodeGreaterThan; opcodeLessThanOrEqual;
   opcodeGreaterThanOrEqual; opcodeMin; opcodeMax].

(** [...] -> [... x] *)
Definition pushHandlers : list (parsedOpcode -> Engine T -> result (Engine T)) :=
  [opcodeFalse; opcodePushData; opcode1Negate; opcodeN; opcodeDepth; opcodeSize].

End MoreHandlers.

(** ** The name table *)

(** The 256 byte values in increasing order, as [range opcodeArray] visits
    the table. *)
Definition allBytes : list byte := (fun n => toByte (Z.of_nat n)) <$> seq 0 256.

(** [OpcodeByName] maps the name of an opcode to its value; [init] fills it
    from the opcode array and then adds the four aliases. *)
Definition OpcodeByName : gmap string byte :=
  <["OpNoOp3"%string := OpCheckSequenceVerify]>
  (<["OpNoOp2"%string := OpCheckLockTimeVerify]>
  (<["OpTrue"%string := OpTrue]>
  (<["OpFalse"%string := OpFalse]>
  (foldl (fun m op => <[name op := value op]> m) ∅ (opcodeArray <$> allBytes))))).

#[local] Instance byte_eq_decision : EqDecision byte := Byte.byte_eq_dec.

(** ** Consistent parsed opcodes *)

(** The [k] low bytes of [l], least significant first. *)
Fixpoint leBytes (k : nat) (l : Z) : byteSlice :=
  match k with
  | O => []
  | S k => toByte l :: leBytes k (l / 256)
  end.

(** The number of length bytes that follow the opcode byte [b]. *)
Definition prefixBytes (b : byte) : nat := default 0%nat (prefixLength b).

(** The data of a parsed opcode fits its opcode: the exact length for a
    direct push, a length that the length prefix can hold for PUSHDATA1/2/4,
    and no data for any other opcode. *)
Definition dataFits (b : byte) (d : byteSlice) : bool :=
  if isDirectPush b then len d =? byteZ b
  else
    match prefixLength b with
    | Some k => len d <? 2 ^ (8 * Z.of_nat k)
    | None => len d =? 0
    end.

(** Two handlers are complementary on an engine: they fail with the same
    error, or both succeed, leaving the same stack below a pushed 0 or 1, the
    one pushing 1 where the other pushes 0. *)
Definition complementary {T : ExtTypes} {P : Primitives}
    (f g : Engine T -> result (Engine T)) (vm : Engine T) : Prop :=
  (forall e, f vm = Err e <-> g vm = Err e) /\
  (forall vm1, f vm = Ok vm1 ->
     exists s r, (r = 0 \/ r = 1) /\ vm1 = set_dstack vm (PushInt s r) /\
                 g vm = Ok (set_dstack vm (PushInt s (1 - r)))).

(** What an entry of the name table can be: the table name of its opcode, or
    one of the four aliases. *)
Definition nameTableEntry (s : string) (b : byte) : Prop :=
  s = name (opcodeArray b) \/
  (s, b) ∈ [("OpFalse"%string, OpFalse); ("OpTrue"%string, OpTrue);
            ("OpNoOp2"%string, OpCheckLockTimeVerify);
            ("OpNoOp3"%string, OpCheckSequenceVerify)].

#[local] Instance nameTableEntry_dec (s : string) (b : byte) :
  Decision (nameTableEntry s b).
Proof. unfold nameTableEntry. apply _. Defined.

(** ** A small instance of the further collaborators *)

(** The minimal little-endian byte sequence of a magnitude. *)
Fixpoint demoMagnitude (fuel : nat) (n : Z) : byteSlice :=
  match fuel with
  | O => []
  | S fuel => if n <=? 0 then [] else toByte n :: demoMagnitude fuel (n / 256)
  end.

(** Sign and magnitude, the sign in the high bit of the last byte. *)
Definition demoNumBytes (n : Z) : byteSlice :=
  let mag := demoMagnitude 9 (Z.abs n) in
  match last mag with
  | None => []
  | Some top =>
      if 128 <=? byteZ top then mag ++ [if n <? 0 then x80 else x00]
      else if n <? 0 then take (length mag - 1) mag ++ [toByte (byteZ top + 128)]
      else mag
  end.

Definition demoPrimitives : Primitives := {|
  scriptNum_Bytes := demoNumBytes;
  ripemd160_Sum := fun b => take 20 (rev b);
  sha1_Sum := fun b => take 20 b;
  sha256_Sum := fun b => rev b ++ [x01];
  DoubleHashB := fun b => b ++ [x02];
  SequenceLockTimeDisabled := 2 ^ 31;
  SequenceLockTimeIsSeconds := 2 ^ 22;
  SequenceLockTimeMask := 0xffff
|}.

(** * Properties *)

(** ** The opcode table *)

Lemma opcodeArray_value (b : byte) : value (opcodeArray b) = b.
Proof. destruct b; reflexivity. Qed.

Lemma byteZ_range (b : byte) : 0 <= byteZ b < 256.
Proof. destruct b; vm_compute; split; congruence. Qed.

Lemma toByte_byteZ (b : byte) : toByte (byteZ b) = b.
Proof. destruct b; reflexivity. Qed.

Lemma byteZ_toByte (x : Z) : byteZ (toByte x) = x mod 256.
Proof.
  pose proof (Z.mod_pos_bound x 256 ltac:(lia)) as Hr.
  unfold toByte, byteZ.
  destruct (Byte.of_N (Z.to_N (x mod 256))) as [b|] eqn:E.
  - apply Byte.to_of_N in E. rewrite E. lia.
  - apply Byte.of_N_None_iff in E. lia.
Qed.

Lemma byteZ_inj (a b : byte) : byteZ a = byteZ b -> a = b.
Proof.
  intros H. rewrite <- (toByte_byteZ a), <- (toByte_byteZ b). now rewrite H.
Qed.

Lemma byte_eqb_spec (a b : byte) : Byte.eqb a b = true <-> a = b.
Proof. split; [apply Byte.byte_dec_bl | apply Byte.byte_dec_lb]. Qed.

Lemma byte_eqb_byteZ (a b : byte) : Byte.eqb a b = (byteZ a =? byteZ b).
Proof.
  destruct (Byte.eqb a b) eqn:E.
  - apply byte_eqb_spec in E. subst. symmetry. apply Z.eqb_refl.
  - symmetry. apply Z.eqb_neq. intros H. apply byteZ_inj in H.
    apply byte_eqb_spec in H. congruence.
Qed.

(** ** The minimal push check *)

Lemma small_int_opcode (d : Z) :
  1 <= d <= 16 -> byteZ (toByte (byteZ Op1 + d - 1)) = byteZ Op1 + d - 1.
Proof.
  intros Hd. rewrite byteZ_toByte. change (byteZ Op1) with 81.
  apply Z.mod_small. lia.
Qed.

Ltac by_negb :=
  match goal with
  | |- context [negb ?c] => destruct c; reflexivity
  end.

(** No branch of the check applies beyond the PUSHDATA2 bound. *)
Lemma checkMinimalDataPush_beyond_pushdata2 (pop : parsedOpcode) :
  65535 < len (data pop) -> checkMinimalDataPush pop = Ok tt.
Proof.
  intros Hlen. unfold checkMinimalDataPush.
  destruct (Z.eqb_spec (len (data pop)) 0); [lia|].
  destruct (Z.eqb_spec (len (data pop)) 1); [lia|].
  cbn [andb].
  destruct (Z.leb_spec (len (data pop)) 75); [lia|].
  destruct (Z.leb_spec (len (data pop)) 255); [lia|].
  destruct (Z.leb_spec (len (data pop)) 65535); [lia|].
  reflexivity.
Qed.

(** C10.  A parsed opcode whose payload is longer than 65535 bytes passes the
    minimal push check whatever opcode carried it: the case analysis ends at
    the PUSHDATA2 bound and has no branch that asks for PUSHDATA4. *)
Theorem checkMinimalDataPush_oversized (pop : parsedOpcode) :
  65535 < len (data pop) -> checkMinimalDataPush pop = Ok tt.
Proof. apply checkMinimalDataPush_beyond_pushdata2. Qed.

Lemma checkMinimalDataPush_oversized_witness :
  checkMinimalDataPush
    (mkParsedOpcode (opcodeArray OpData1) (replicate (Z.to_nat 65536) x00)) = Ok tt.
Proof.
  apply checkMinimalDataPush_oversized. vm_compute. reflexivity.
Defined.

(** C8, as stated, fails: a payload of 65536 bytes carried by PUSHDATA4 is
    none of the canonical combinations, and the check accepts it. *)
Lemma checkMinimalDataPush_accepts_noncanonical :
  checkMinimalDataPush
    (mkParsedOpcode (opcodeArray OpPushData4) (replicate (Z.to_nat 65536) x00)) = Ok tt /\
  canonicalPush
    (mkParsedOpcode (opcodeArray OpPushData4) (replicate (Z.to_nat 65536) x00)) = false.
Proof. vm_compute. split; reflexivity. Qed.

(** C8, amended.  For a payload of at most 65535 bytes the minimal push
    check accepts a parsed opcode if and only if it uses the canonical
    encoding, and every other combination yields the minimal-data error; a
    longer payload is accepted with any opcode. *)
Theorem checkMinimalDataPush_canonical (pop : parsedOpcode) :
  (len (data pop) <= 65535 ->
   checkMinimalDataPush pop =
     if canonicalPush pop then Ok tt else Err ErrMinimalData) /\
  (65535 < len (data pop) -> checkMinimalDataPush pop = Ok tt).
Proof.
  split; [|apply checkMinimalDataPush_beyond_pushdata2].
  intros Hlen. unfold checkMinimalDataPush, canonicalPush, scriptError.
  rewrite !byte_eqb_byteZ.
  pose proof (byteZ_range (value (popOpcode pop))) as Hv.
  assert (Hl : 0 <= len (data pop)) by (unfold len; lia).
  destruct (Z.eqb_spec (len (data pop)) 0) as [E0|E0].
  - rewrite E0. cbn [andb].
    change (byteZ OpZero) with 0.
    destruct (Z.eqb_spec (byteZ (value (popOpcode pop))) 0); cbn; reflexivity.
  - cbn [andb].
    destruct ((len (data pop) =? 1) && (1 <=? data0 (data pop)) &&
              (data0 (data pop) <=? 16)) eqn:E1.
    + apply andb_prop in E1 as [E1 E3]. apply andb_prop in E1 as [E1 E2].
      rewrite small_int_opcode by lia.
      by_negb.
    + destruct ((len (data pop) =? 1) && (data0 (data pop) =? 129)) eqn:E2.
      * by_negb.
      * destruct (Z.leb_spec (len (data pop)) 75).
        { by_negb. }
        destruct (Z.leb_spec (len (data pop)) 255).
        { by_negb. }
        destruct (Z.leb_spec (len (data pop)) 65535); [|lia].
        by_negb.
Qed.

Lemma checkMinimalDataPush_canonical_witness :
  checkMinimalDataPush (mkParsedOpcode (opcodeArray OpData2) [x0a; x0b]) = Ok tt /\
  checkMinimalDataPush (mkParsedOpcode (opcodeArray OpData1) [x05]) = Err ErrMinimalData.
Proof.
  split.
  - apply (proj1 (checkMinimalDataPush_canonical
                    (mkParsedOpcode (opcodeArray OpData2) [x0a; x0b]))).
    vm_compute. congruence.
  - apply (proj1 (checkMinimalDataPush_canonical
                    (mkParsedOpcode (opcodeArray OpData1) [x05]))).
    vm_compute. congruence.
Defined.

(** ** Disabled opcodes *)

Section EngineStep.
Context {T : ExtTypes} {X : Externals T}.

Lemma runOpcodes_app
    (others : OpFunc -> parsedOpcode -> Engine T -> result (Engine T))
    (heavy : parsedOpcode -> bool) (pre post : list parsedOpcode) (vm : Engine T) :
  runOpcodes others heavy (pre ++ post) vm =
    (vm ← runOpcodes others heavy pre vm; runOpcodes others heavy post vm).
Proof.
  revert vm. induction pre as [|pop pre IH]; intros vm; cbn [app runOpcodes].
  - reflexivity.
  - destruct (executeOpcode others heavy pop vm); cbn [mbind result_bind];
      [apply IH | reflexivity..].
Qed.

(** C5.  When the engine step reaches a disabled opcode (CAT, SUBSTR, LEFT,
    RIGHT, INVERT, AND, OR, XOR, 2MUL, 2DIV, MUL, DIV, MOD, LSHIFT, RSHIFT),
    it fails with the disabled-opcode error whatever the condition stack is,
    so also inside a branch that is not executing: the check comes before
    the decision to skip, and the handler of the table is never consulted.
    Hence a run that reaches the opcode fails with that error there, and no
    script that contains a disabled opcode runs to its end. *)
Theorem disabled_opcode_always_fails
    (others : OpFunc -> parsedOpcode -> Engine T -> result (Engine T))
    (heavy : parsedOpcode -> bool) (pop : parsedOpcode) (vm : Engine T) :
  value (popOpcode pop) ∈
    [OpCat; OpSubstr; OpLeft; OpRight; OpInvert; OpAnd; OpOr; OpXor;
     Op1Mul; Op2Div; OpMul; OpDiv; OpMod; OpLShift; OpRShift] ->
  isDisabled pop = true /\
  executeOpcode others heavy pop vm = Err ErrDisabledOpcode /\
  (forall pre post vm0,
     runOpcodes others heavy pre vm0 = Ok vm ->
     runOpcodes others heavy (pre ++ pop :: post) vm0 = Err ErrDisabledOpcode) /\
  (forall pre post vm0 vm',
     runOpcodes others heavy (pre ++ pop :: post) vm0 <> Ok vm').
Proof.
  intros Hin.
  assert (Hstep : isDisabled pop = true /\
                  forall vm1, executeOpcode others heavy pop vm1 = Err ErrDisabledOpcode).
  { unfold executeOpcode, isDisabled, alwaysIllegal.
    repeat (apply elem_of_cons in Hin as [-> | Hin]; [split; reflexivity|]).
    by apply elem_of_nil in Hin. }
  destruct Hstep as [Hdis Hstep].
  split; [exact Hdis|]. split; [apply Hstep|]. split.
  - intros pre post vm0 Hpre. rewrite runOpcodes_app, Hpre. cbn [mbind result_bind runOpcodes].
    by rewrite Hstep.
  - intros pre post vm0 vm'. rewrite runOpcodes_app.
    destruct (runOpcodes others heavy pre vm0); cbn [mbind result_bind runOpcodes];
      [|discriminate..].
    by rewrite Hstep.
Qed.

End EngineStep.

Lemma disabled_opcode_always_fails_witness :
  isDisabled (mkParsedOpcode (opcodeArray OpCat) []) = true /\
  executeOpcode (T := demoTypes) (X := demoExternals)
    (fun _ _ vm => Ok vm) (fun _ => false)
    (mkParsedOpcode (opcodeArray OpCat) [])
    (demoEngine [] [OpCondFalse] [] 0 0) = Err ErrDisabledOpcode.
Proof.
  assert (H : value (popOpcode (mkParsedOpcode (opcodeArray OpCat) [])) ∈
    [OpCat; OpSubstr; OpLeft; OpRight; OpInvert; OpAnd; OpOr; OpXor;
     Op1Mul; Op2Div; OpMul; OpDiv; OpMod; OpLShift; OpRShift])
    by (cbn; repeat constructor).
  destruct (disabled_opcode_always_fails (X := demoExternals)
              (fun _ _ vm => Ok vm) (fun _ => false)
              (mkParsedOpcode (opcodeArray OpCat) [])
              (demoEngine [] [OpCondFalse] [] 0 0) H) as (H1 & H2 & _).
  split; [exact H1 | exact H2].
Defined.

(** ** The condition stack *)

Section Conditionals.
Context {T : ExtTypes} {X : Externals T}.

Lemma set_condStack_same (vm : Engine T) : set_condStack vm (condStack vm) = vm.
Proof. destruct vm; reflexivity. Qed.

Lemma popIfBool_condStack (vm vm' : Engine T) (b : bool) :
  popIfBool vm = Ok (b, vm') -> condStack vm' = condStack vm.
Proof.
  unfold popIfBool, PopBool, PopByteArray. intros H.
  destruct (negb (isWitnessVersionActive vm 0) || negb (hasFlag vm ScriptVerifyMinimalIf)).
  - destruct (stk (dstack vm)); cbn in H; [discriminate|].
    injection H as _ <-. reflexivity.
  - destruct (stk (dstack vm)); cbn in H; [discriminate|].
    repeat match type of H with
    | (if ?c then _ else _) = _ => destruct c; [discriminate|]
    end.
    injection H as _ <-. reflexivity.
Qed.

Lemma snoc_case {A} (l : list A) : l = [] \/ exists cs c, l = cs ++ [c].
Proof. induction l using rev_ind; [by left | right; eauto]. Qed.

Lemma len_app_one {A} (l : list A) (x : A) : len (l ++ [x]) = len l + 1.
Proof. unfold len. rewrite length_app. cbn. lia. Qed.

Lemma indexZ_last {A} (l : list A) (x : A) :
  indexZ (l ++ [x]) (len (l ++ [x]) - 1) = Some x.
Proof.
  rewrite len_app_one. unfold indexZ, len.
  destruct (Z.ltb_spec (Z.of_nat (length l) + 1 - 1) 0); [lia|].
  replace (Z.to_nat (Z.of_nat (length l) + 1 - 1)) with (length l + 0)%nat by lia.
  rewrite lookup_app_r by lia. by replace (length l + 0 - length l)%nat with 0%nat by lia.
Qed.

Lemma insert_last {A} (l : list A) (x y : A) :
  <[Z.to_nat (len (l ++ [x]) - 1) := y]> (l ++ [x]) = l ++ [y].
Proof.
  rewrite len_app_one. unfold len.
  replace (Z.to_nat (Z.of_nat (length l) + 1 - 1)) with (length l + 0)%nat by lia.
  by rewrite insert_app_r.
Qed.

Lemma take_last {A} (l : list A) (x : A) :
  take (Z.to_nat (len (l ++ [x]) - 1)) (l ++ [x]) = l.
Proof.
  rewrite len_app_one. unfold len.
  replace (Z.to_nat (Z.of_nat (length l) + 1 - 1)) with (length l) by lia.
  by rewrite take_app_length.
Qed.

(** C6.  IF and NOTIF, when they succeed, lengthen the condition stack by
    exactly one marker: Skip when the surrounding branch is not executing,
    otherwise True or False from the popped boolean (NOTIF inverts it); they
    fail only with the error of the pop.  ENDIF removes exactly the innermost
    marker and fails with the unbalanced-conditional error on an empty
    condition stack.  ELSE keeps the length, turns an innermost True into
    False and False into True, leaves Skip as it is, and fails with the
    unbalanced-conditional error on an empty condition stack. *)
Theorem condition_stack_discipline (op : parsedOpcode) (vm : Engine T) :
  (* IF *)
  (isBranchExecuting vm = false ->
     opcodeIf op vm = Ok (set_condStack vm (condStack vm ++ [OpCondSkip]))) /\
  (forall b vm1, isBranchExecuting vm = true -> popIfBool vm = Ok (b, vm1) ->
     opcodeIf op vm =
       Ok (set_condStack vm1 (condStack vm ++ [if b then OpCondTrue else OpCondFalse]))) /\
  (forall e, isBranchExecuting vm = true -> popIfBool vm = Err e ->
     opcodeIf op vm = Err e) /\
  (forall vm', opcodeIf op vm = Ok vm' ->
     len (condStack vm') = len (condStack vm) + 1) /\
  (* NOTIF *)
  (isBranchExecuting vm = false ->
     opcodeNotIf op vm = Ok (set_condStack vm (condStack vm ++ [OpCondSkip]))) /\
  (forall b vm1, isBranchExecuting vm = true -> popIfBool vm = Ok (b, vm1) ->
     opcodeNotIf op vm =
       Ok (set_condStack vm1 (condStack vm ++ [if b then OpCondFalse else OpCondTrue]))) /\
  (forall e, isBranchExecuting vm = true -> popIfBool vm = Err e ->
     opcodeNotIf op vm = Err e) /\
  (forall vm', opcodeNotIf op vm = Ok vm' ->
     len (condStack vm') = len (condStack vm) + 1) /\
  (* ENDIF *)
  (condStack vm = [] -> opcodeEndif op vm = Err ErrUnbalancedConditional) /\
  (forall cs c, condStack vm = cs ++ [c] ->
     opcodeEndif op vm = Ok (set_condStack vm cs)) /\
  (forall vm', opcodeEndif op vm = Ok vm' ->
     len (condStack vm') = len (condStack vm) - 1) /\
  (* ELSE *)
  (condStack vm = [] -> opcodeElse op vm = Err ErrUnbalancedConditional) /\
  (forall cs c, condStack vm = cs ++ [c] ->
     opcodeElse op vm =
       Ok (set_condStack vm
             (cs ++ [if c =? OpCondTrue then OpCondFalse
                     else if c =? OpCondFalse then OpCondTrue
                     else c]))) /\
  (forall vm', opcodeElse op vm = Ok vm' ->
     len (condStack vm') = len (condStack vm)).
Proof.
  assert (Hif : forall b vm1, isBranchExecuting vm = true -> popIfBool vm = Ok (b, vm1) ->
     opcodeIf op vm =
       Ok (set_condStack vm1 (condStack vm ++ [if b then OpCondTrue else OpCondFalse]))).
  { intros b vm1 Hx Hp. unfold opcodeIf. rewrite Hx, Hp. cbn.
    by rewrite (popIfBool_condStack _ _ _ Hp). }
  assert (Hnif : forall b vm1, isBranchExecuting vm = true -> popIfBool vm = Ok (b, vm1) ->
     opcodeNotIf op vm =
       Ok (set_condStack vm1 (condStack vm ++ [if b then OpCondFalse else OpCondTrue]))).
  { intros b vm1 Hx Hp. unfold opcodeNotIf. rewrite Hx, Hp. cbn.
    rewrite (popIfBool_condStack _ _ _ Hp). by destruct b. }
  assert (Hend : forall cs c, condStack vm = cs ++ [c] ->
     opcodeEndif op vm = Ok (set_condStack vm cs)).
  { intros cs c Hc. unfold opcodeEndif. rewrite Hc, take_last, len_app_one.
    destruct (Z.eqb_spec (len cs + 1) 0); [unfold len in *; lia|]. reflexivity. }
  assert (Helse : forall cs c, condStack vm = cs ++ [c] ->
     opcodeElse op vm =
       Ok (set_condStack vm
             (cs ++ [if c =? OpCondTrue then OpCondFalse
                     else if c =? OpCondFalse then OpCondTrue
                     else c]))).
  { intros cs c Hc. unfold opcodeElse. rewrite Hc, indexZ_last, !insert_last.
    rewrite len_app_one.
    destruct (Z.eqb_spec (len cs + 1) 0); [unfold len in *; lia|].
    destruct (c =? OpCondTrue); [reflexivity|].
    destruct (c =? OpCondFalse); [reflexivity|].
    by rewrite <- Hc, set_condStack_same. }
  repeat split.
  - intros Hx. unfold opcodeIf. rewrite Hx. reflexivity.
  - exact Hif.
  - intros e Hx Hp. unfold opcodeIf. rewrite Hx, Hp. reflexivity.
  - intros vm' H. destruct (isBranchExecuting vm) eqn:Hx.
    + destruct (popIfBool vm) as [[b vm1]| | |] eqn:Hp;
        try (unfold opcodeIf in H; rewrite Hx, Hp in H; discriminate).
      rewrite (Hif _ _ eq_refl eq_refl) in H. injection H as <-. cbn. apply len_app_one.
    + unfold opcodeIf in H. rewrite Hx in H. injection H as <-. cbn. apply len_app_one.
  - intros Hx. unfold opcodeNotIf. rewrite Hx. reflexivity.
  - exact Hnif.
  - intros e Hx Hp. unfold opcodeNotIf. rewrite Hx, Hp. reflexivity.
  - intros vm' H. destruct (isBranchExecuting vm) eqn:Hx.
    + destruct (popIfBool vm) as [[b vm1]| | |] eqn:Hp;
        try (unfold opcodeNotIf in H; rewrite Hx, Hp in H; discriminate).
      rewrite (Hnif _ _ eq_refl eq_refl) in H. injection H as <-. cbn. apply len_app_one.
    + unfold opcodeNotIf in H. rewrite Hx in H. injection H as <-. cbn. apply len_app_one.
  - intros Hc. unfold opcodeEndif. rewrite Hc. reflexivity.
  - exact Hend.
  - intros vm' H. destruct (snoc_case (condStack vm)) as [Hc | (cs0 & c0 & Hc)].
    + unfold opcodeEndif in H. rewrite Hc in H. discriminate.
    + rewrite (Hend _ _ Hc) in H. injection H as <-. cbn. rewrite Hc, len_app_one. lia.
  - intros Hc. unfold opcodeElse. rewrite Hc. reflexivity.
  - exact Helse.
  - intros vm' H. destruct (snoc_case (condStack vm)) as [Hc | (cs0 & c0 & Hc)].
    + unfold opcodeElse in H. rewrite Hc in H. discriminate.
    + rewrite (Helse _ _ Hc) in H. injection H as <-. cbn. by rewrite Hc, !len_app_one.
Qed.

End Conditionals.

Lemma condition_stack_discipline_witness :
  let vm := demoEngine [[x01]] [OpCondTrue] [] 0 0 in
  let op := mkParsedOpcode (opcodeArray OpIf) [] in
  opcodeIf (X := demoExternals) op vm =
    Ok (set_condStack (demoEngine [] [OpCondTrue] [] 0 0) [OpCondTrue; OpCondTrue]) /\
  opcodeElse op vm = Ok (set_condStack vm [OpCondFalse]) /\
  opcodeEndif op vm = Ok (set_condStack vm []).
Proof.
  intros vm op.
  destruct (condition_stack_discipline (X := demoExternals) op vm)
    as (_ & Hif & _ & _ & _ & _ & _ & _ & _ & Hend & _ & _ & Helse & _).
  split; [|split].
  - apply (Hif true (demoEngine [] [OpCondTrue] [] 0 0)); reflexivity.
  - apply (Helse [] OpCondTrue). reflexivity.
  - apply (Hend [] OpCondTrue). reflexivity.
Defined.

(** ** CHECKLOCKTIMEVERIFY *)

Section LockTime.
Context {T : ExtTypes} {X : Externals T}.

(** C7.  With its flag set, CHECKLOCKTIMEVERIFY reads the top stack item
    without popping it, as a script number of at most 5 bytes.  A negative
    value gives the negative-locktime error; a value on the other side of the
    threshold than the lock time of the transaction, or greater than it,
    gives the unsatisfied-locktime error; a value that passes both gives the
    unsatisfied-locktime error when the sequence number of the validated
    input is the final one; otherwise the opcode succeeds.  Whenever it
    succeeds the engine, and so the stack, is unchanged. *)
Theorem checkLockTimeVerify_spec (op : parsedOpcode) (vm : Engine T)
    (so : byteSlice) (below : list byteSlice) (lockTime : Z) :
  hasFlag vm ScriptVerifyCheckLockTimeVerify = true ->
  stk (dstack vm) = so :: below ->
  makeScriptNum so (verifyMinimalData (dstack vm)) 5 = Ok lockTime ->
  let txLockTime := LockTime (tx vm) in
  let sameSide :=
    (txLockTime < LockTimeThreshold /\ lockTime < LockTimeThreshold) \/
    (LockTimeThreshold <= txLockTime /\ LockTimeThreshold <= lockTime) in
  (lockTime < 0 ->
     opcodeCheckLockTimeVerify op vm = Err ErrNegativeLockTime) /\
  (0 <= lockTime -> ~ sameSide \/ txLockTime < lockTime ->
     opcodeCheckLockTimeVerify op vm = Err ErrUnsatisfiedLockTime) /\
  (forall txin, 0 <= lockTime -> sameSide -> lockTime <= txLockTime ->
     indexZ (TxInputs (tx vm)) (txIdx vm) = Some txin ->
     Sequence txin = MaxTxInSequenceNum ->
     opcodeCheckLockTimeVerify op vm = Err ErrUnsatisfiedLockTime) /\
  (forall txin, 0 <= lockTime -> sameSide -> lockTime <= txLockTime ->
     indexZ (TxInputs (tx vm)) (txIdx vm) = Some txin ->
     Sequence txin <> MaxTxInSequenceNum ->
     opcodeCheckLockTimeVerify op vm = Ok vm) /\
  (forall vm', opcodeCheckLockTimeVerify op vm = Ok vm' -> vm' = vm).
Proof.
  intros Hflag Hstk Hnum txLockTime sameSide.
  assert (Hpeek : PeekByteArray (dstack vm) 0 = Ok so).
  { unfold PeekByteArray, indexZ. rewrite Hstk. reflexivity. }
  assert (Hside : forall r : result unit,
            verifyLockTime txLockTime LockTimeThreshold lockTime = r ->
            (r = Ok tt /\ sameSide /\ lockTime <= txLockTime) \/
            (r = Err ErrUnsatisfiedLockTime /\ (~ sameSide \/ txLockTime < lockTime))).
  { intros r <-. unfold verifyLockTime, sameSide, scriptError.
    destruct (Z.ltb_spec txLockTime LockTimeThreshold);
      destruct (Z.ltb_spec lockTime LockTimeThreshold);
      destruct (Z.geb_spec txLockTime LockTimeThreshold);
      destruct (Z.geb_spec lockTime LockTimeThreshold);
      cbn [andb orb negb]; try lia;
      try (right; split; [reflexivity | lia]);
      (destruct (Z.gtb_spec lockTime txLockTime);
        [right; split; [reflexivity | lia] | left; split; [reflexivity | lia]]). }
  assert (Hunf : opcodeCheckLockTimeVerify op vm =
            if lockTime <? 0 then Err ErrNegativeLockTime
            else
              _ ← verifyLockTime txLockTime LockTimeThreshold lockTime;
              match indexZ (TxInputs (tx vm)) (txIdx vm) with
              | None => Panic
              | Some txin =>
                  if Sequence txin =? MaxTxInSequenceNum
                  then Err ErrUnsatisfiedLockTime else Ok vm
              end).
  { unfold opcodeCheckLockTimeVerify. rewrite Hflag, Hpeek. cbn.
    rewrite Hnum. reflexivity. }
  rewrite Hunf. clear Hunf.
  destruct (Hside _ eq_refl) as [(Hr & Hs & Hle) | (Hr & Hbad)]; rewrite Hr; cbn.
  - repeat split.
    + intros Hneg. destruct (Z.ltb_spec lockTime 0); [reflexivity | lia].
    + intros _ [Hn | Hgt]; [contradiction | lia].
    + intros txin Hpos _ _ -> ->.
      destruct (Z.ltb_spec lockTime 0); [lia|]. by rewrite Z.eqb_refl.
    + intros txin Hpos _ _ -> Hne.
      destruct (Z.ltb_spec lockTime 0); [lia|].
      by destruct (Z.eqb_spec (Sequence txin) MaxTxInSequenceNum).
    + intros vm'. destruct (lockTime <? 0); [discriminate|].
      destruct (indexZ _ _) as [txin|]; [|discriminate].
      destruct (_ =? _); [discriminate|]. by intros [= <-].
  - repeat split.
    + intros Hneg. destruct (Z.ltb_spec lockTime 0); [reflexivity | lia].
    + intros Hpos _. destruct (Z.ltb_spec lockTime 0); [lia | reflexivity].
    + intros txin Hpos Hs Hle. destruct Hbad; [contradiction | lia].
    + intros txin Hpos Hs Hle. destruct Hbad; [contradiction | lia].
    + intros vm'. destruct (lockTime <? 0); discriminate.
Qed.

End LockTime.

Lemma checkLockTimeVerify_spec_witness :
  let op := mkParsedOpcode (opcodeArray OpCheckLockTimeVerify) [] in
  opcodeCheckLockTimeVerify (X := demoExternals) op
    (demoEngine [[x64]] [] [ScriptVerifyCheckLockTimeVerify] 50 0)
    = Err ErrUnsatisfiedLockTime /\
  opcodeCheckLockTimeVerify (X := demoExternals) op
    (demoEngine [[x64]] [] [ScriptVerifyCheckLockTimeVerify] 200 0xffffffff)
    = Err ErrUnsatisfiedLockTime /\
  opcodeCheckLockTimeVerify (X := demoExternals) op
    (demoEngine [[x64]] [] [ScriptVerifyCheckLockTimeVerify] 200 7)
    = Ok (demoEngine [[x64]] [] [ScriptVerifyCheckLockTimeVerify] 200 7) /\
  opcodeCheckLockTimeVerify (X := demoExternals) op
    (demoEngine [[x81]] [] [ScriptVerifyCheckLockTimeVerify] 200 7)
    = Err ErrNegativeLockTime.
Proof.
  intros op.
  pose proof (fun vm so lt H1 H2 H3 =>
    checkLockTimeVerify_spec (X := demoExternals) op vm so [] lt H1 H2 H3) as H.
  split; [|split; [|split]].
  - refine (proj1 (proj2 (H (demoEngine [[x64]] [] [ScriptVerifyCheckLockTimeVerify] 50 0)
                               [x64] 100 eq_refl eq_refl eq_refl)) _ _); cbn; lia.
  - refine (proj1 (proj2 (proj2
              (H (demoEngine [[x64]] [] [ScriptVerifyCheckLockTimeVerify] 200 0xffffffff)
                 [x64] 100 eq_refl eq_refl eq_refl)))
              (mkTxIn 0xffffffff) _ _ _ eq_refl eq_refl); cbn; lia.
  - refine (proj1 (proj2 (proj2 (proj2
              (H (demoEngine [[x64]] [] [ScriptVerifyCheckLockTimeVerify] 200 7)
                 [x64] 100 eq_refl eq_refl eq_refl))))
              (mkTxIn 7) _ _ _ eq_refl _); cbn; try lia; discriminate.
  - refine (proj1 (H (demoEngine [[x81]] [] [ScriptVerifyCheckLockTimeVerify] 200 7)
                     [x81] (-1) eq_refl eq_refl eq_refl) _); lia.
Defined.

(** ** Decoding and re-encoding *)

Lemma len_cons {A} (x : A) (l : list A) : len (x :: l) = 1 + len l.
Proof. unfold len. cbn [length]. lia. Qed.

Lemma len_nil {A} : len (@nil A) = 0.
Proof. reflexivity. Qed.

Lemma len_nonneg {A} (l : list A) : 0 <= len l.
Proof. unfold len. lia. Qed.

Lemma lor_shiftl_add (a x n : Z) :
  0 <= n -> 0 <= a < 2 ^ n -> Z.lor a (Z.shiftl x n) = a + x * 2 ^ n.
Proof.
  intros Hn Ha.
  assert (Hland : Z.land a (Z.shiftl x n) = 0).
  { apply Z.bits_inj'. intros i Hi. rewrite Z.land_spec, Z.bits_0.
    destruct (Z.lt_ge_cases i n) as [Hlt | Hge].
    - rewrite Z.shiftl_spec_low by lia. apply andb_false_r.
    - destruct (Z.eq_dec a 0) as [-> | Hne].
      + by rewrite Z.bits_0.
      + rewrite Z.bits_above_log2; [reflexivity | lia |].
        apply Z.lt_le_trans with n; [|lia].
        apply Z.log2_lt_pow2; lia. }
  rewrite <- Z.lxor_lor by exact Hland.
  rewrite <- Z.add_nocarry_lxor by exact Hland.
  by rewrite Z.shiftl_mul_pow2.
Qed.

Lemma land_255 (x : Z) : Z.land x 255 = x mod 256.
Proof. change 255 with (Z.ones 8). by rewrite Z.land_ones. Qed.

(** The three shapes of a re-encoded opcode. *)
Lemma bytes_no_data (pop : parsedOpcode) :
  oplength (popOpcode pop) = 1 -> data pop = [] ->
  bytes pop = Ok [value (popOpcode pop)].
Proof. intros Hl Hd. unfold bytes. rewrite Hl, Hd. reflexivity. Qed.

Lemma bytes_direct_push (pop : parsedOpcode) :
  1 < oplength (popOpcode pop) -> len (data pop) = oplength (popOpcode pop) - 1 ->
  bytes pop = Ok (value (popOpcode pop) :: data pop).
Proof.
  intros Hl Hd. unfold bytes.
  destruct (Z.eqb_spec (oplength (popOpcode pop)) 1); [lia|].
  destruct (Z.ltb_spec (oplength (popOpcode pop)) 0); [lia|].
  cbn [mbind result_bind app]. rewrite len_cons, Hd.
  destruct (Z.eqb_spec (1 + (oplength (popOpcode pop) - 1)) (oplength (popOpcode pop)));
    [reflexivity | lia].
Qed.

Ltac bytes_enter Hl :=
  unfold bytes; rewrite Hl;
  change (-1 =? 1) with false; change (-2 =? 1) with false;
  change (-4 =? 1) with false;
  change (-1 <? 0) with true; change (-2 <? 0) with true;
  change (-4 <? 0) with true;
  change (-1 =? -1) with true; change (-2 =? -1) with false;
  change (-4 =? -1) with false; change (-2 =? -2) with true;
  change (-4 =? -2) with false; change (-4 =? -4) with true;
  cbv beta iota;
  cbn -[toByte byteZ len Z.land Z.shiftr Z.lor Z.shiftl Z.mul Z.add Z.eqb].

Ltac bytes_leave :=
  match goal with
  | |- context [negb (?a =? ?b)] =>
      destruct (Z.eqb_spec a b);
      [reflexivity | exfalso; unfold len in *; cbn [length] in *; lia]
  end.

Lemma toByte_digit0 (l : Z) (b : byte) :
  l mod 256 = byteZ b -> toByte (Z.land l 255) = b.
Proof.
  intros H. rewrite land_255. apply byteZ_inj.
  rewrite byteZ_toByte, Z.mod_mod by lia. exact H.
Qed.

Lemma toByte_digit (l k : Z) (b : byte) :
  0 <= k -> (l / 2 ^ k) mod 256 = byteZ b ->
  toByte (Z.land (Z.shiftr l k) 255) = b.
Proof. intros Hk H. rewrite Z.shiftr_div_pow2 by lia. by apply toByte_digit0. Qed.

Ltac digit_side Hd :=
  rewrite Hd;
  change (2 ^ 8) with 256; change (2 ^ 16) with 65536;
  change (2 ^ 24) with 16777216;
  Z.div_mod_to_equations; lia.

Lemma bytes_pushdata1 (pop : parsedOpcode) (b0 : byte) :
  oplength (popOpcode pop) = -1 -> len (data pop) = littleEndian [b0] ->
  bytes pop = Ok (value (popOpcode pop) :: [b0] ++ data pop).
Proof.
  intros Hl Hd. cbn [littleEndian foldr] in Hd. bytes_enter Hl.
  assert (Hd0 : len (data pop) = byteZ b0) by lia.
  rewrite !Hd0, toByte_byteZ. bytes_leave.
Qed.

Lemma bytes_pushdata2 (pop : parsedOpcode) (b0 b1 : byte) :
  oplength (popOpcode pop) = -2 -> len (data pop) = littleEndian [b0; b1] ->
  bytes pop = Ok (value (popOpcode pop) :: [b0; b1] ++ data pop).
Proof.
  intros Hl Hd. cbn [littleEndian foldr] in Hd. bytes_enter Hl.
  pose proof (byteZ_range b0). pose proof (byteZ_range b1).
  rewrite !(toByte_digit0 _ b0) by digit_side Hd.
  rewrite !(toByte_digit _ 8 b1) by (try lia; digit_side Hd).
  rewrite lor_shiftl_add by (change (2 ^ 8) with 256; lia).
  change (2 ^ 8) with 256.
  bytes_leave.
Qed.

Lemma bytes_pushdata4 (pop : parsedOpcode) (b0 b1 b2 b3 : byte) :
  oplength (popOpcode pop) = -4 -> len (data pop) = littleEndian [b0; b1; b2; b3] ->
  bytes pop = Ok (value (popOpcode pop) :: [b0; b1; b2; b3] ++ data pop).
Proof.
  intros Hl Hd. cbn [littleEndian foldr] in Hd. bytes_enter Hl.
  pose proof (byteZ_range b0). pose proof (byteZ_range b1).
  pose proof (byteZ_range b2). pose proof (byteZ_range b3).
  rewrite !(toByte_digit0 _ b0) by digit_side Hd.
  rewrite !(toByte_digit _ 8 b1) by (try lia; digit_side Hd).
  rewrite !(toByte_digit _ 16 b2) by (try lia; digit_side Hd).
  rewrite !(toByte_digit _ 24 b3) by (try lia; digit_side Hd).
  rewrite (lor_shiftl_add (byteZ b0)) by (change (2 ^ 8) with 256; lia).
  rewrite (lor_shiftl_add _ (byteZ b2))
    by (change (2 ^ 8) with 256; change (2 ^ 16) with 65536; lia).
  rewrite (lor_shiftl_add _ (byteZ b3))
    by (change (2 ^ 8) with 256; change (2 ^ 16) with 65536;
        change (2 ^ 24) with 16777216; lia).
  change (2 ^ 8) with 256; change (2 ^ 16) with 65536;
    change (2 ^ 24) with 16777216.
  bytes_leave.
Qed.

Lemma bytes_pushdata (pop : parsedOpcode) (k : nat) (pre : byteSlice) :
  oplength (popOpcode pop) = - Z.of_nat k -> (k = 1 \/ k = 2 \/ k = 4)%nat ->
  length pre = k -> len (data pop) = littleEndian pre ->
  bytes pop = Ok (value (popOpcode pop) :: pre ++ data pop).
Proof.
  intros Hl [-> | [-> | ->]] Hpre Hd.
  - destruct pre as [|b0 [|? ?]]; try discriminate.
    by apply bytes_pushdata1.
  - destruct pre as [|b0 [|b1 [|? ?]]]; try discriminate.
    by apply bytes_pushdata2.
  - destruct pre as [|b0 [|b1 [|b2 [|b3 [|? ?]]]]]; try discriminate.
    by apply bytes_pushdata4.
Qed.

(** The lengths of the opcode table, by the class of the opcode byte. *)
Lemma oplength_direct (b : byte) :
  isDirectPush b = true -> oplength (opcodeArray b) = byteZ b + 1 /\ 1 <= byteZ b.
Proof. destruct b; intros H; try discriminate H; split; vm_compute; congruence. Qed.

Lemma oplength_prefixed (b : byte) (k : nat) :
  prefixLength b = Some k ->
  oplength (opcodeArray b) = - Z.of_nat k /\ (k = 1 \/ k = 2 \/ k = 4)%nat.
Proof.
  destruct b; intros H; try discriminate H; injection H as <-;
    split; try reflexivity; auto.
Qed.

Lemma oplength_plain (b : byte) :
  isDirectPush b = false -> prefixLength b = None -> oplength (opcodeArray b) = 1.
Proof. destruct b; intros H1 H2; try discriminate H1; try discriminate H2; reflexivity. Qed.

Lemma littleEndian_nonneg (b : byteSlice) : 0 <= littleEndian b.
Proof.
  induction b as [|x b IH]; cbn [littleEndian foldr]; [lia|].
  pose proof (byteZ_range x). fold (littleEndian b). lia.
Qed.

Lemma parseScriptFuel_roundtrip (fuel : nat) (script : byteSlice) :
  (length script <= fuel)%nat ->
  (exists pops, parseScriptFuel fuel script = Ok pops /\
                unparseScript pops = Ok script) \/
  parseScriptFuel fuel script = Err ErrMalformedPush.
Proof.
  revert script. induction fuel as [|fuel IH]; intros script Hfuel.
  - destruct script; [|cbn in Hfuel; lia]. left. by exists [].
  - destruct script as [|instr tail]; [left; by exists []|].
    cbn [length] in Hfuel. cbn [parseScriptFuel].
    destruct (isDirectPush instr) eqn:Hdir.
    + destruct (oplength_direct _ Hdir) as [Hl Hpos].
      destruct (Nat.ltb_spec (length tail) (Z.to_nat (byteZ instr))) as [Hshort|Hfit];
        [by right|].
      destruct (IH (drop (Z.to_nat (byteZ instr)) tail)) as [(pops & Hp & Hu) | Hp].
      { rewrite length_drop. lia. }
      * left. rewrite Hp. cbn [mbind result_bind]. eexists. split; [reflexivity|].
        cbn [unparseScript]. rewrite bytes_direct_push; cbn [popOpcode data].
        -- cbn [mbind result_bind]. rewrite Hu. cbn [mbind result_bind].
           rewrite opcodeArray_value. cbn [app]. by rewrite take_drop.
        -- lia.
        -- unfold len. rewrite length_take, Hl. lia.
      * right. rewrite Hp. reflexivity.
    + destruct (prefixLength instr) as [k|] eqn:Hpre.
      * destruct (oplength_prefixed _ _ Hpre) as [Hl Hk].
        destruct (Nat.ltb_spec (length tail) k) as [Hshort|Hfit]; [by right|].
        pose proof (littleEndian_nonneg (take k tail)) as Hnn.
        destruct (Nat.ltb_spec (length (drop k tail))
                    (Z.to_nat (littleEndian (take k tail)))) as [Hshort|Hfit2];
          [by right|].
        destruct (IH (drop (Z.to_nat (littleEndian (take k tail))) (drop k tail)))
          as [(pops & Hp & Hu) | Hp].
        { rewrite !length_drop. lia. }
        -- left. rewrite Hp. cbn [mbind result_bind]. eexists. split; [reflexivity|].
           cbn [unparseScript].
           rewrite (bytes_pushdata _ k (take k tail)); cbn [popOpcode data]; try done.
           ++ cbn [mbind result_bind]. rewrite Hu. cbn [mbind result_bind].
              rewrite opcodeArray_value. cbn [app].
              by rewrite <- app_assoc, take_drop, take_drop.
           ++ rewrite length_take. lia.
           ++ unfold len. rewrite length_take. lia.
        -- right. rewrite Hp. reflexivity.
      * destruct (IH tail) as [(pops & Hp & Hu) | Hp]; [lia| |].
        -- left. rewrite Hp. cbn [mbind result_bind]. eexists. split; [reflexivity|].
           cbn [unparseScript]. rewrite bytes_no_data; cbn [popOpcode data]; try done.
           ++ cbn [mbind result_bind]. rewrite Hu. cbn [mbind result_bind].
              by rewrite opcodeArray_value.
           ++ by apply oplength_plain.
        -- right. rewrite Hp. reflexivity.
Qed.

(** C9.  Decoding a script into parsed opcodes and re-encoding each of them
    with [bytes], in order, gives back the script byte for byte; and the
    decoder either succeeds or reports a malformed push (the fuel of the
    embedding never runs out). *)
Theorem parse_unparse_roundtrip (script : byteSlice) :
  (forall pops, parseScript script = Ok pops -> unparseScript pops = Ok script) /\
  ((exists pops, parseScript script = Ok pops) \/
   parseScript script = Err ErrMalformedPush).
Proof.
  unfold parseScript.
  destruct (parseScriptFuel_roundtrip (length script) script (le_n _))
    as [(pops & Hp & Hu) | Hp].
  - split; [|left; eauto]. intros pops' H. rewrite Hp in H. by injection H as <-.
  - split; [|by right]. intros pops' H. rewrite Hp in H. discriminate.
Qed.

Lemma parse_unparse_roundtrip_witness :
  unparseScript
    [mkParsedOpcode (opcodeArray OpData2) [x0a; x0b];
     mkParsedOpcode (opcodeArray OpPushData2) [x07];
     mkParsedOpcode (opcodeArray OpPushData1) [];
     mkParsedOpcode (opcodeArray OpCheckSig) []]
  = Ok [x02; x0a; x0b; x4d; x01; x00; x07; x4c; x00; xac].
Proof.
  apply (proj1 (parse_unparse_roundtrip
                  [x02; x0a; x0b; x4d; x01; x00; x07; x4c; x00; xac])).
  reflexivity.
Defined.

(** ** CHECKSIG *)

Section CheckSig.
Context {T : ExtTypes} {X : Externals T}.

(** The engine after [opcodeCheckSig] has popped its two arguments. *)
Lemma opcodeCheckSig_popped (op : parsedOpcode) (vm : Engine T)
    (pkBytes fullSigBytes : byteSlice) (below : list byteSlice) :
  stk (dstack vm) = pkBytes :: fullSigBytes :: below ->
  let vm2 := set_dstack vm (mkStack below (verifyMinimalData (dstack vm))) in
  opcodeCheckSig op vm =
    if len fullSigBytes <? 1 then Ok (set_dstack vm2 (PushBool (dstack vm2) false))
    else
      let hashType := lastByte fullSigBytes in
      let sigBytes := dropLast fullSigBytes in
      _ ← checkHashTypeEncoding vm2 hashType;
      _ ← checkSignatureEncoding vm2 sigBytes;
      _ ← checkPubKeyEncoding vm2 pkBytes;
      hash ← checkSigHash vm2 fullSigBytes hashType;
      match ParsePubKey pkBytes with
      | None => Ok (set_dstack vm2 (PushBool (dstack vm2) false))
      | Some pubKey =>
          match parseSig vm2 sigBytes with
          | None => Ok (set_dstack vm2 (PushBool (dstack vm2) false))
          | Some signature =>
              let '(valid, vm3) := verifySignature vm2 hash signature pubKey in
              if negb valid && hasFlag vm3 ScriptVerifyNullFail && (len sigBytes >? 0) then
                Err ErrNullFail
              else Ok (set_dstack vm3 (PushBool (dstack vm3) valid))
          end
      end.
Proof.
  intros Hstk vm2. unfold opcodeCheckSig, PopByteArray. rewrite Hstk.
  reflexivity.
Qed.

Lemma verifySignature_frame (vm vm' : Engine T) (hash : byteSlice)
    (sig : Signature) (pub : PublicKey) (valid : bool) :
  verifySignature vm hash sig pub = (valid, vm') ->
  vm' = set_sigCache vm (sigCache vm').
Proof.
  unfold verifySignature. destruct (sigCache vm) as [c|] eqn:Hc.
  - destruct (negb _ && _); intros [= <- <-]; destruct vm; reflexivity.
  - intros [= <- <-]. destruct vm; reflexivity.
Qed.


(** Null-fail in CHECKSIG.  When the signature and the public key parse and
    the verification fails, the null-fail flag turns the result into the
    null-fail error if the signature bytes without the hash type are not
    empty; without the flag false is pushed and the handler succeeds. *)
Lemma checkSig_nullfail (op : parsedOpcode) (vm : Engine T)
    (pkBytes fullSigBytes : byteSlice) (below : list byteSlice)
    (hash : byteSlice) (pub : PublicKey) (sig : Signature) (vm3 : Engine T) :
  stk (dstack vm) = pkBytes :: fullSigBytes :: below ->
  let vm2 := set_dstack vm (mkStack below (verifyMinimalData (dstack vm))) in
  let hashType := lastByte fullSigBytes in
  let sigBytes := dropLast fullSigBytes in
  fullSigBytes <> [] ->
  checkHashTypeEncoding vm2 hashType = Ok tt ->
  checkSignatureEncoding vm2 sigBytes = Ok tt ->
  checkPubKeyEncoding vm2 pkBytes = Ok tt ->
  checkSigHash vm2 fullSigBytes hashType = Ok hash ->
  ParsePubKey pkBytes = Some pub ->
  parseSig vm2 sigBytes = Some sig ->
  verifySignature vm2 hash sig pub = (false, vm3) ->
  (hasFlag vm ScriptVerifyNullFail = true -> sigBytes <> [] ->
     opcodeCheckSig op vm = Err ErrNullFail) /\
  (hasFlag vm ScriptVerifyNullFail = false ->
     opcodeCheckSig op vm = Ok (set_dstack vm3 (PushBool (dstack vm3) false)) /\
     stk (dstack (set_dstack vm3 (PushBool (dstack vm3) false))) = fromBool false :: below).
Proof.
  intros Hstk vm2 hashType sigBytes Hne H1 H2 H3 H4 Hpk Hsig Hver.
  rewrite (opcodeCheckSig_popped op vm _ _ _ Hstk). fold vm2.
  assert (Hlen : (len fullSigBytes <? 1) = false).
  { destruct fullSigBytes; [done|]. rewrite len_cons.
    pose proof (len_nonneg fullSigBytes). apply Z.ltb_ge. lia. }
  rewrite Hlen. cbn zeta. fold hashType sigBytes.
  rewrite H1, H2, H3, H4. cbn [mbind result_bind]. rewrite Hpk, Hsig, Hver.
  pose proof (verifySignature_frame _ _ _ _ _ _ Hver) as Hfr.
  assert (Hflags : hasFlag vm3 ScriptVerifyNullFail = hasFlag vm ScriptVerifyNullFail).
  { rewrite Hfr. reflexivity. }
  rewrite Hflags. split.
  - intros Hf Hnz. rewrite Hf. cbn [negb andb].
    destruct sigBytes as [|x l] eqn:E; [done|]. rewrite len_cons.
    pose proof (len_nonneg l).
    destruct (Z.gtb_spec (1 + len l) 0); [reflexivity | lia].
  - intros Hf. rewrite Hf. cbn [negb andb]. split; [reflexivity|].
    rewrite Hfr. reflexivity.
Qed.

End CheckSig.

(** ** CHECKMULTISIG *)

Section MultiSig.
Context {T : ExtTypes} {X : Externals T}.

(** *** The argument phase *)

Lemma PopInt_inv (s s' : stack) (n : Z) :
  PopInt s = Ok (n, s') ->
  exists so, stk s = so :: stk s' /\
             verifyMinimalData s' = verifyMinimalData s.
Proof.
  unfold PopInt, PopByteArray. destruct (stk s) as [|so rest] eqn:Hs; [discriminate|].
  cbn. destruct (makeScriptNum _ _ _); try discriminate.
  intros [= <- <-]. by exists so.
Qed.

Lemma popByteArrays_inv (n : nat) (s s' : stack) (xs : list byteSlice) :
  popByteArrays n s = Ok (xs, s') ->
  stk s = xs ++ stk s' /\ length xs = n /\
  verifyMinimalData s' = verifyMinimalData s.
Proof.
  revert s xs. induction n as [|n IH]; intros s xs; cbn [popByteArrays].
  - intros [= <- <-]. done.
  - unfold PopByteArray. destruct (stk s) as [|x rest] eqn:Hs; [discriminate|].
    cbn [mbind result_bind].
    destruct (popByteArrays n _) as [[ys s2]| | |] eqn:Hrec; try discriminate.
    cbn. intros [= <- <-]. destruct (IH _ _ Hrec) as (H1 & H2 & H3).
    cbn in H1, H3. rewrite H1. cbn. auto.
Qed.

(** What a successful argument phase has popped and what it has left. *)
Lemma multisigPopArgs_inv (vm vm1 : Engine T) (nP nS : Z)
    (pubKeys : list byteSlice) (sigInfos : list parsedSigInfo) :
  multisigPopArgs vm = Ok (nP, pubKeys, nS, sigInfos, vm1) ->
  (exists kItem sItem,
     stk (dstack vm) =
       kItem :: pubKeys ++ sItem :: (signature <$> sigInfos) ++ stk (dstack vm1)) /\
  len pubKeys = nP /\ len sigInfos = nS /\ 0 <= nS <= nP /\
  vm1 = set_dstack (set_numOps vm (numOps vm + nP))
          (mkStack (stk (dstack vm1)) (verifyMinimalData (dstack vm))).
Proof.
  unfold multisigPopArgs.
  destruct (PopInt (dstack vm)) as [[numKeys s1]| | |] eqn:Ek; try discriminate.
  cbn [mbind result_bind]. cbv zeta.
  destruct (Z.ltb_spec (scriptNum_Int32 numKeys) 0); [discriminate|].
  destruct (_ >? MaxPubKeysPerMultiSig); [discriminate|].
  destruct (_ >? MaxOpsPerScript); [discriminate|].
  destruct (popByteArrays _ _) as [[pks s2]| | |] eqn:Epk; try discriminate.
  cbn [mbind result_bind dstack set_dstack set_numOps].
  destruct (PopInt s2) as [[numSigs s3]| | |] eqn:Es; try discriminate.
  cbn [mbind result_bind dstack set_dstack set_numOps].
  destruct (Z.ltb_spec (scriptNum_Int32 numSigs) 0); [discriminate|].
  destruct (Z.gtb_spec (scriptNum_Int32 numSigs) (scriptNum_Int32 numKeys));
    [discriminate|].
  destruct (popByteArrays _ s3) as [[sgs s4]| | |] eqn:Esg; try discriminate.
  cbn [mbind result_bind]. intros [= <- <- <- <- <-].
  destruct (PopInt_inv _ _ _ Ek) as (kItem & E1 & M1).
  destruct (popByteArrays_inv _ _ _ _ Epk) as (E2 & L2 & M2).
  destruct (PopInt_inv _ _ _ Es) as (sItem & E3 & M3).
  destruct (popByteArrays_inv _ _ _ _ Esg) as (E4 & L4 & M4).
  cbn in E2, E3, E4, M2, M3, M4.
  repeat split.
  - exists kItem, sItem. rewrite E1, E2, E3, E4. cbn [dstack set_dstack stk].
    rewrite <- list_fmap_compose.
    replace (signature ∘ _) with (@id byteSlice) by reflexivity.
    by rewrite list_fmap_id.
  - unfold len. lia.
  - unfold len. rewrite length_map. lia.
  - lia.
  - lia.
  - destruct vm. cbn in *. f_equal. destruct s4. cbn in *. f_equal. congruence.
Qed.

(** *** The matching loop *)

Lemma multisigCheckPair_frame (script : list parsedOpcode) (vm vm' : Engine T)
    (sigInfo sigInfo' : parsedSigInfo) (pubKey : byteSlice) (valid : bool) :
  multisigCheckPair script vm sigInfo pubKey = Ok (valid, sigInfo', vm') ->
  vm' = set_sigCache vm (sigCache vm') /\ signature sigInfo' = signature sigInfo.
Proof.
  assert (Hvm : vm = set_sigCache vm (sigCache vm)) by (by destruct vm).
  unfold multisigCheckPair.
  destruct (len (signature sigInfo) =? 0); [by intros [= <- <- <-]|].
  destruct (parsed sigInfo).
  - cbn [negb mbind result_bind].
    destruct (parsedSignature sigInfo) as [ps|]; [|by intros [= <- <- <-]].
    destruct (checkPubKeyEncoding _ _); try discriminate. cbn [mbind result_bind].
    destruct (ParsePubKey _); [|by intros [= <- <- <-]].
    destruct (signatureHash _ _ _); try discriminate. cbn [mbind result_bind].
    destruct (verifySignature _ _ _ _) as [v vm3] eqn:Hv. intros [= <- <- <-].
    split; [by eapply verifySignature_frame|done].
  - cbn [negb].
    destruct (checkHashTypeEncoding _ _); try discriminate. cbn [mbind result_bind].
    destruct (checkSignatureEncoding _ _); try discriminate. cbn [mbind result_bind].
    destruct (parseSig _ _) as [ps|]; cbn [mbind result_bind];
      [|by intros [= <- <- <-]].
    destruct (checkPubKeyEncoding _ _); try discriminate. cbn [mbind result_bind].
    destruct (ParsePubKey _); [|by intros [= <- <- <-]].
    destruct (signatureHash _ _ _); try discriminate. cbn [mbind result_bind].
    destruct (verifySignature _ _ _ _) as [v vm3] eqn:Hv. intros [= <- <- <-].
    split; [by eapply verifySignature_frame|done].
Qed.

Lemma indexZ_nat {A} (l : list A) (i : nat) : indexZ l (Z.of_nat i) = l !! i.
Proof.
  unfold indexZ. destruct (Z.ltb_spec (Z.of_nat i) 0); [lia|]. by rewrite Nat2Z.id.
Qed.

Lemma drop_cons_lookup {A} (l : list A) (i : nat) (x : A) (l' : list A) :
  drop i l = x :: l' -> l !! i = Some x /\ drop (S i) l = l'.
Proof.
  intros H. assert (Hx : l !! i = Some x).
  { rewrite <- (Nat.add_0_r i), <- lookup_drop, H. reflexivity. }
  split; [exact Hx|]. rewrite (drop_S _ _ _ Hx) in H. by injection H.
Qed.

Lemma orderedScan_cons (script : list parsedOpcode) (vm : Engine T)
    (sigInfo : parsedSigInfo) (sigs' : list parsedSigInfo) (keys : list byteSlice) :
  orderedScan script vm (sigInfo :: sigs') keys =
    if (length keys <? S (length sigs'))%nat then Ok (false, vm)
    else
      match keys with
      | [] => Ok (false, vm)
      | key :: keys' =>
          match multisigCheckPair script vm sigInfo key with
          | Ok (true, _, vm) => orderedScan script vm sigs' keys'
          | Ok (false, sigInfo, vm) => orderedScan script vm (sigInfo :: sigs') keys'
          | Err e => Err e
          | Panic => Panic
          | OutOfFuel => OutOfFuel
          end
      end.
Proof. destruct keys; reflexivity. Qed.

(** With enough fuel the loop of the source computes the ordered scan of the
    remaining signatures over the remaining keys. *)
Lemma multisigLoop_scan (pubKeys : list byteSlice) (script : list parsedOpcode)
    (fuel : nat) (st : multiSigState)
    (sigs : list parsedSigInfo) (keys : list byteSlice) :
  scanState pubKeys st sigs keys ->
  (length keys < fuel)%nat ->
  (multisigLoop fuel pubKeys script st ≫= λ '(success, st'), Ok (success, msVm st'))
  = orderedScan script (msVm st) sigs keys.
Proof.
  revert st sigs keys. induction fuel as [|fuel IH]; intros st sigs keys HR Hfuel; [lia|].
  destruct HR as (s & p & Hs & Hp & Hsigs & Hkeys & HnS & HnP).
  cbn [multisigLoop]. rewrite HnS.
  destruct sigs as [|sigInfo sigs'].
  { rewrite len_nil. destruct keys; reflexivity. }
  rewrite len_cons. pose proof (len_nonneg sigs') as Hnn.
  destruct (Z.gtb_spec (1 + len sigs') 0); [|lia].
  unfold multisigIter. cbn [numSignatures numPubKeys signatureIdx signatures msVm].
  rewrite HnS, HnP, len_cons.
  replace (len keys + 1 - 1) with (len keys) by lia.
  rewrite orderedScan_cons.
  destruct (Nat.ltb_spec (length keys) (S (length sigs'))) as [Hlt | Hge].
  - destruct (Z.gtb_spec (1 + len sigs') (len keys)); [|unfold len in *; lia].
    reflexivity.
  - destruct (Z.gtb_spec (1 + len sigs') (len keys)); [unfold len in *; lia|].
    destruct keys as [|key keys']; [cbn in Hge; lia|].
    destruct (drop_cons_lookup _ _ _ _ Hsigs) as [Hsl Hsd].
    destruct (drop_cons_lookup _ _ _ _ Hkeys) as [Hkl Hkd].
    rewrite Hs, Hp, !indexZ_nat, Hsl, Hkl.
    destruct (multisigCheckPair script (msVm st) sigInfo key)
      as [[[valid sigInfo'] vm']| | |]; try reflexivity.
    assert (Hlt : (s < length (signatures st))%nat) by (by eapply lookup_lt_Some).
    rewrite Nat2Z.id.
    destruct valid.
    + apply IH; [|cbn [length] in Hfuel; lia].
      exists (S s), (S p). cbn [numSignatures numPubKeys signatureIdx signatures
                               pubKeyIdx msVm].
      repeat split; try lia.
      * rewrite drop_insert_lt by lia. exact Hsd.
      * exact Hkd.
      * rewrite len_cons. lia.
    + apply IH; [|cbn [length] in Hfuel; lia].
      exists s, (S p). cbn [numSignatures numPubKeys signatureIdx signatures
                           pubKeyIdx msVm].
      repeat split; try lia.
      * rewrite (drop_S _ sigInfo' s) by (by apply list_lookup_insert_eq).
        rewrite drop_insert_lt by lia. by rewrite Hsd.
      * exact Hkd.
      * rewrite !len_cons. lia.
      * rewrite len_cons. lia.
Qed.

(** The loop changes nothing of the engine but the signature cache, and
    nothing of the raw signatures. *)
Lemma multisigLoop_frame (pubKeys : list byteSlice) (script : list parsedOpcode)
    (fuel : nat) (st st' : multiSigState) (success : bool) :
  multisigLoop fuel pubKeys script st = Ok (success, st') ->
  msVm st' = set_sigCache (msVm st) (sigCache (msVm st')) /\
  signature <$> signatures st' = signature <$> signatures st.
Proof.
  assert (Hid : forall vm : Engine T, vm = set_sigCache vm (sigCache vm))
    by (by intros []).
  revert st. induction fuel as [|fuel IH]; intros st; cbn [multisigLoop].
  - destruct (numSignatures st >? 0); [discriminate|]. intros [= <- <-]. auto.
  - destruct (numSignatures st >? 0); [|intros [= <- <-]; auto].
    unfold multisigIter.
    cbn [numSignatures numPubKeys signatureIdx signatures msVm].
    destruct (_ >? _); [intros [= <- <-]; cbn; auto|].
    destruct (indexZ (signatures st) (signatureIdx st)) as [sigInfo|] eqn:Hsi;
      [|discriminate].
    destruct (indexZ pubKeys _) as [key|]; [|discriminate].
    destruct (multisigCheckPair _ _ _ _) as [[[valid sigInfo'] vm']| | |] eqn:Hcp;
      try discriminate.
    destruct (multisigCheckPair_frame _ _ _ _ _ _ _ Hcp) as [Hvm Hsig].
    assert (Hins : (signature <$> insert (Z.to_nat (signatureIdx st)) sigInfo' (signatures st))
                   = (signature <$> signatures st)).
    { rewrite list_fmap_insert. apply list_insert_id.
      rewrite list_lookup_fmap. unfold indexZ in Hsi.
      destruct (signatureIdx st <? 0); [discriminate|]. by rewrite Hsi, Hsig. }
    destruct valid; intros Hloop; destruct (IH _ Hloop) as [H1 H2];
      cbn [msVm signatures] in H1, H2; (split; [|congruence]);
      rewrite H1, Hvm; by destruct (msVm st).
Qed.

(** The matched pairs come in strictly increasing order of both the
    signature index and the key index, from the current indices on. *)
Lemma multisigMatches_sorted (pubKeys : list byteSlice) (script : list parsedOpcode)
    (fuel : nat) (st : multiSigState) :
  StronglySorted (fun a b : Z * Z => a.1 < b.1 /\ a.2 < b.2)
    (multisigMatches fuel pubKeys script st) /\
  Forall (fun a : Z * Z => signatureIdx st <= a.1 /\ pubKeyIdx st < a.2)
    (multisigMatches fuel pubKeys script st).
Proof.
  revert st. induction fuel as [|fuel IH]; intros st; cbn [multisigMatches].
  - destruct (_ >? _); split; constructor.
  - destruct (numSignatures st >? 0); [|split; constructor].
    destruct (multisigIter pubKeys script st) as [st'| | | |] eqn:Hit;
      try (split; constructor).
    assert (Hidx : pubKeyIdx st' = pubKeyIdx st + 1 /\
                   (signatureIdx st' = signatureIdx st \/
                    signatureIdx st' = signatureIdx st + 1)).
    { unfold multisigIter in Hit.
      cbn [numSignatures numPubKeys signatureIdx signatures msVm] in Hit.
      destruct (_ >? _); [discriminate|].
      destruct (indexZ (signatures st) _); [|discriminate].
      destruct (indexZ pubKeys _); [|discriminate].
      destruct (multisigCheckPair _ _ _ _) as [[[[] ?] ?]| | |]; try discriminate;
        injection Hit as <-; cbn; auto. }
    destruct Hidx as [Hp Hs]. destruct (IH st') as [Hsorted Hall].
    assert (Hall' : Forall (fun a : Z * Z => signatureIdx st <= a.1 /\ pubKeyIdx st < a.2)
                      (multisigMatches fuel pubKeys script st')).
    { eapply Forall_impl; [exact Hall|]. cbn. intros [a b]. cbn. lia. }
    destruct (Z.eqb_spec (signatureIdx st') (signatureIdx st + 1)) as [Heq|Hne];
      cbn [app]; [|by split].
    split.
    + constructor; [exact Hsorted|].
      eapply Forall_impl; [exact Hall|]. intros [a b]. cbn. lia.
    + constructor; [cbn; lia | exact Hall'].
Qed.

(** The bound check of one pass through the loop body, on the abstraction:
    the pass breaks exactly when more signatures than keys remain. *)
Lemma multisigIter_break (pubKeys : list byteSlice) (script : list parsedOpcode)
    (st : multiSigState) (sigs : list parsedSigInfo) (keys : list byteSlice) :
  scanState pubKeys st sigs keys ->
  (len keys < len sigs -> exists st', multisigIter pubKeys script st = IterBreak st') /\
  (len sigs <= len keys -> sigs <> [] ->
     forall st', multisigIter pubKeys script st <> IterBreak st').
Proof.
  intros (s & p & Hs & Hp & Hsigs & Hkeys & HnS & HnP). unfold multisigIter.
  cbn [numSignatures numPubKeys signatureIdx signatures msVm].
  rewrite HnS, HnP. replace (len keys + 1 - 1) with (len keys) by lia.
  split.
  - intros Hlt. destruct (Z.gtb_spec (len sigs) (len keys)); [eauto | lia].
  - intros Hle Hne st'. destruct (Z.gtb_spec (len sigs) (len keys)); [lia|].
    destruct sigs as [|sigInfo sigs']; [done|].
    destruct keys as [|key keys'].
    { rewrite len_cons, len_nil in Hle. pose proof (len_nonneg sigs'). lia. }
    destruct (drop_cons_lookup _ _ _ _ Hsigs) as [Hsl _].
    destruct (drop_cons_lookup _ _ _ _ Hkeys) as [Hkl _].
    rewrite Hs, Hp, !indexZ_nat, Hsl, Hkl.
    destruct (multisigCheckPair _ _ _ _) as [[[[] ?] ?]| | |]; discriminate.
Qed.

(** A pass that goes back to the loop condition has moved to the next key,
    and to the next signature exactly when the pair verified. *)
Lemma multisigIter_next (pubKeys : list byteSlice) (script : list parsedOpcode)
    (st st' : multiSigState) (sigs : list parsedSigInfo) (keys : list byteSlice) :
  scanState pubKeys st sigs keys ->
  multisigIter pubKeys script st = IterNext st' ->
  exists sigInfo sigs1 key keys' valid sigInfo',
    sigs = sigInfo :: sigs1 /\ keys = key :: keys' /\
    multisigCheckPair script (msVm st) sigInfo key = Ok (valid, sigInfo', msVm st') /\
    pubKeyIdx st' = pubKeyIdx st + 1 /\
    signatureIdx st' = (if valid then signatureIdx st + 1 else signatureIdx st) /\
    scanState pubKeys st' (if valid then sigs1 else sigInfo' :: sigs1) keys'.
Proof.
  intros (s & p & Hs & Hp & Hsigs & Hkeys & HnS & HnP). unfold multisigIter.
  cbn [numSignatures numPubKeys signatureIdx signatures msVm].
  rewrite HnS, HnP. replace (len keys + 1 - 1) with (len keys) by lia.
  destruct (Z.gtb_spec (len sigs) (len keys)); [discriminate|].
  rewrite Hs, indexZ_nat.
  destruct (signatures st !! s) as [sigInfo|] eqn:Hsl; [|discriminate].
  rewrite (drop_S _ _ _ Hsl) in Hsigs. subst sigs.
  destruct keys as [|key keys'].
  { rewrite len_cons, len_nil in *. pose proof (len_nonneg (drop (S s) (signatures st))). lia. }
  destruct (drop_cons_lookup _ _ _ _ Hkeys) as [Hkl Hkd].
  rewrite Hp, indexZ_nat, Hkl.
  assert (Hlt : (s < length (signatures st))%nat) by (by eapply lookup_lt_Some).
  destruct (multisigCheckPair _ _ _ _) as [[[valid sigInfo'] vm']| | |] eqn:Hcp;
    try discriminate.
  rewrite Nat2Z.id.
  destruct valid; intros [= <-]; cbn [msVm pubKeyIdx signatureIdx];
    exists sigInfo, (drop (S s) (signatures st)), key, keys'; eexists _, sigInfo';
    (split; [reflexivity|]); (split; [reflexivity|]); (split; [exact Hcp|]);
    (split; [lia|]); (split; [reflexivity|]).
  - exists (S s), (S p). cbn [numSignatures numPubKeys signatureIdx signatures pubKeyIdx].
    rewrite !len_cons in *.
    split; [lia|]. split; [lia|]. split; [by rewrite drop_insert_lt by lia|].
    split; [exact Hkd|]. split; lia.
  - exists s, (S p). cbn [numSignatures numPubKeys signatureIdx signatures pubKeyIdx].
    rewrite !len_cons in *.
    split; [lia|]. split; [lia|]. split.
    { rewrite (drop_S _ sigInfo' s) by (by apply list_lookup_insert_eq).
      by rewrite drop_insert_lt by lia. }
    split; [exact Hkd|]. split; lia.
Qed.

Lemma existsb_signature (l : list parsedSigInfo) :
  existsb (fun sig => len (signature sig) >? 0) l =
  existsb (fun b : byteSlice => len b >? 0) (signature <$> l).
Proof. induction l as [|x l IH]; cbn; [reflexivity|]. by rewrite IH. Qed.

Lemma nonempty_len (b : byteSlice) : (len b >? 0) = true <-> b <> [].
Proof.
  destruct b as [|x b]; [rewrite len_nil; split; [discriminate | done]|].
  rewrite len_cons. pose proof (len_nonneg b).
  split; [done|]. intros _. apply Z.gtb_lt. lia.
Qed.

(** *** The evaluation as the loop and as the scan *)

(** After the arguments and an accepted dummy, CHECKMULTISIG is the loop of
    the source from its initial variables, the null-fail test and the push. *)
Lemma checkMultiSig_runs_loop (op : parsedOpcode) (vm vm1 : Engine T) (nP nS : Z)
    (pubKeys : list byteSlice) (sigInfos : list parsedSigInfo)
    (dummy : byteSlice) (below : list byteSlice) :
  multisigPopArgs vm = Ok (nP, pubKeys, nS, sigInfos, vm1) ->
  stk (dstack vm1) = dummy :: below ->
  (hasFlag vm ScriptStrictMultiSig = false \/ dummy = []) ->
  let vm2 := set_dstack vm1 (mkStack below (verifyMinimalData (dstack vm1))) in
  opcodeCheckMultiSig op vm =
    ('(success, st) ←
       multisigLoop (Z.to_nat (nP + 1)) pubKeys (multisigScript vm2 sigInfos)
         (mkMultiSigState nS (nP + 1) (-1) 0 sigInfos vm2);
     if negb success && hasFlag (msVm st) ScriptVerifyNullFail &&
        existsb (fun sig => len (signature sig) >? 0) (signatures st)
     then Err ErrNullFail
     else Ok (set_dstack (msVm st) (PushBool (dstack (msVm st)) success))).
Proof.
  intros Hargs Hstk Hdummy vm2.
  destruct (multisigPopArgs_inv _ _ _ _ _ _ Hargs) as (_ & _ & _ & _ & Hvm1).
  unfold opcodeCheckMultiSig. rewrite Hargs. cbn [mbind result_bind].
  unfold PopByteArray. rewrite Hstk. cbn [mbind result_bind]. cbv zeta.
  assert (Hflag : hasFlag (set_dstack vm1 (mkStack below (verifyMinimalData (dstack vm1))))
                    ScriptStrictMultiSig = hasFlag vm ScriptStrictMultiSig).
  { rewrite Hvm1. reflexivity. }
  rewrite Hflag.
  assert (Hacc : hasFlag vm ScriptStrictMultiSig && negb (len dummy =? 0) = false).
  { destruct Hdummy as [-> | ->]; [reflexivity|]. apply andb_false_r. }
  rewrite Hacc. reflexivity.
Qed.

(** The same evaluation as the ordered scan. *)
Lemma checkMultiSig_runs_scan (op : parsedOpcode) (vm vm1 : Engine T) (nP nS : Z)
    (pubKeys : list byteSlice) (sigInfos : list parsedSigInfo)
    (dummy : byteSlice) (below : list byteSlice) :
  multisigPopArgs vm = Ok (nP, pubKeys, nS, sigInfos, vm1) ->
  stk (dstack vm1) = dummy :: below ->
  (hasFlag vm ScriptStrictMultiSig = false \/ dummy = []) ->
  let vm2 := set_dstack vm1 (mkStack below (verifyMinimalData (dstack vm1))) in
  opcodeCheckMultiSig op vm =
    ('(success, vmS) ← orderedScan (multisigScript vm2 sigInfos) vm2 sigInfos pubKeys;
     if negb success && hasFlag vmS ScriptVerifyNullFail &&
        existsb (fun sig => len (signature sig) >? 0) sigInfos
     then Err ErrNullFail
     else Ok (set_dstack vmS (PushBool (dstack vmS) success))) /\
  (forall success vmS,
     orderedScan (multisigScript vm2 sigInfos) vm2 sigInfos pubKeys = Ok (success, vmS) ->
     vmS = set_sigCache vm2 (sigCache vmS)).
Proof.
  intros Hargs Hstk Hdummy vm2.
  destruct (multisigPopArgs_inv _ _ _ _ _ _ Hargs) as (_ & HlP & HlS & Hb & _).
  set (script := multisigScript vm2 sigInfos).
  set (st0 := mkMultiSigState nS (nP + 1) (-1) 0 sigInfos vm2).
  assert (H0 : scanState pubKeys st0 sigInfos pubKeys).
  { exists 0%nat, 0%nat. cbn. repeat split; lia. }
  assert (Hscan : (multisigLoop (Z.to_nat (nP + 1)) pubKeys script st0
                     ≫= λ '(success, st'), Ok (success, msVm st'))
                  = orderedScan script vm2 sigInfos pubKeys).
  { apply (multisigLoop_scan pubKeys script _ st0 sigInfos pubKeys H0).
    unfold len in *. lia. }
  rewrite (checkMultiSig_runs_loop op vm vm1 nP nS pubKeys sigInfos dummy below
             Hargs Hstk Hdummy).
  fold vm2. fold script. fold st0. rewrite <- Hscan.
  destruct (multisigLoop (Z.to_nat (nP + 1)) pubKeys script st0)
    as [[success st]| | |] eqn:Hl; cbn [mbind result_bind];
    (split; [|intros success' vmS; try discriminate]); try reflexivity.
  - destruct (multisigLoop_frame _ _ _ _ _ _ Hl) as [_ Hsigs].
    cbn [signatures] in Hsigs.
    by rewrite (existsb_signature (signatures st)), Hsigs, <- existsb_signature.
  - intros [= <- <-].
    destruct (multisigLoop_frame _ _ _ _ _ _ Hl) as [Hvm _]. exact Hvm.
Qed.

(** C1.  The matching of CHECKMULTISIG is an ordered two-pointer scan.  For
    an evaluation of CHECKMULTISIG that has popped its arguments and a dummy
    that the strict-multisig flag accepts:
    (1) the evaluation is the ordered scan of the signatures over the public
    keys, whose result is false as soon as more signatures than keys remain,
    followed by the null-fail test and the push of the result;
    (2) the evaluation runs the loop of the source from the variables as the
    source sets them up (the key counter incremented once, the key index at
    -1); the scan of (1) has no pass count, so the one of the embedding is
    enough;
    (3) the pairs that this loop matches are strictly increasing in the
    signature index and in the key index, so no key serves two signatures
    and no signature matches a key before the one of its predecessor;
    (4) the variables stand for the remaining signatures and keys, at the
    start and after every pass that returns to the loop condition, a pass
    advances the key and advances the signature exactly on a match; and
    (5) the bound check of a pass breaks exactly when the signatures that
    remain are more than the keys that remain. *)
Theorem multisig_ordered_scan (op : parsedOpcode) (vm vm1 : Engine T) (nP nS : Z)
    (pubKeys : list byteSlice) (sigInfos : list parsedSigInfo)
    (dummy : byteSlice) (below : list byteSlice) :
  multisigPopArgs vm = Ok (nP, pubKeys, nS, sigInfos, vm1) ->
  stk (dstack vm1) = dummy :: below ->
  (hasFlag vm ScriptStrictMultiSig = false \/ dummy = []) ->
  let vm2 := set_dstack vm1 (mkStack below (verifyMinimalData (dstack vm1))) in
  let script := multisigScript vm2 sigInfos in
  let st0 := mkMultiSigState nS (nP + 1) (-1) 0 sigInfos vm2 in
  let fuel := Z.to_nat (nP + 1) in
  opcodeCheckMultiSig op vm =
    ('(success, vmS) ← orderedScan script vm2 sigInfos pubKeys;
     if negb success && hasFlag vmS ScriptVerifyNullFail &&
        existsb (fun sig => len (signature sig) >? 0) sigInfos
     then Err ErrNullFail
     else Ok (set_dstack vmS (PushBool (dstack vmS) success))) /\
  opcodeCheckMultiSig op vm =
    ('(success, st) ← multisigLoop fuel pubKeys script st0;
     if negb success && hasFlag (msVm st) ScriptVerifyNullFail &&
        existsb (fun sig => len (signature sig) >? 0) (signatures st)
     then Err ErrNullFail
     else Ok (set_dstack (msVm st) (PushBool (dstack (msVm st)) success))) /\
  StronglySorted (fun a b : Z * Z => a.1 < b.1 /\ a.2 < b.2)
    (multisigMatches fuel pubKeys script st0) /\
  scanState pubKeys st0 sigInfos pubKeys /\
  (forall st st' sigs keys,
     scanState pubKeys st sigs keys ->
     multisigIter pubKeys script st = IterNext st' ->
     pubKeyIdx st' = pubKeyIdx st + 1 /\
     exists sigs' keys',
       keys = drop (Z.to_nat (pubKeyIdx st')) pubKeys /\
       keys' = drop (Z.to_nat (pubKeyIdx st' + 1)) pubKeys /\
       scanState pubKeys st' sigs' keys' /\
       ((signatureIdx st' = signatureIdx st + 1 /\ sigs' = drop 1 sigs) \/
        (signatureIdx st' = signatureIdx st /\ length sigs' = length sigs))) /\
  (forall st sigs keys,
     scanState pubKeys st sigs keys ->
     (len keys < len sigs ->
        exists st', multisigIter pubKeys script st = IterBreak st') /\
     (len sigs <= len keys -> sigs <> [] ->
        forall st', multisigIter pubKeys script st <> IterBreak st')).
Proof.
  intros Hargs Hstk Hdummy vm2 script st0 fuel.
  destruct (multisigPopArgs_inv _ _ _ _ _ _ Hargs) as (_ & HlP & HlS & Hb & Hvm1).
  assert (H0 : scanState pubKeys st0 sigInfos pubKeys).
  { exists 0%nat, 0%nat. cbn. repeat split; lia. }
  split; [|split; [|split; [|split; [exact H0|split]]]].
  - exact (proj1 (checkMultiSig_runs_scan op vm vm1 nP nS pubKeys sigInfos dummy below
                    Hargs Hstk Hdummy)).
  - exact (checkMultiSig_runs_loop op vm vm1 nP nS pubKeys sigInfos dummy below
             Hargs Hstk Hdummy).
  - apply multisigMatches_sorted.
  - intros st st' sigs keys HR Hit.
    destruct (multisigIter_next _ _ _ _ _ _ HR Hit)
      as (sigInfo & sigs1 & key & keys' & valid & sigInfo' & -> & -> & _ & Hp & Hs & HR').
    split; [exact Hp|].
    destruct HR as (s & p & _ & Hp0 & _ & Hk & _).
    exists (if valid then sigs1 else sigInfo' :: sigs1), keys'.
    assert (Hkd : drop (S p) pubKeys = keys')
      by (by destruct (drop_cons_lookup _ _ _ _ Hk)).
    repeat split.
    + rewrite Hp, Hp0, Nat2Z.id. by rewrite Hk.
    + rewrite Hp, Hp0. replace (Z.to_nat (Z.of_nat p + 1)) with (S p) by lia.
      by rewrite Hkd.
    + exact HR'.
    + destruct valid; [left | right]; split; done.
  - intros st sigs keys HR. by apply multisigIter_break.
Qed.

(** *** The dummy item *)

Lemma multisigVerify_stack (nP nS : Z) (pubKeys : list byteSlice)
    (sigInfos : list parsedSigInfo) (vm vm' : Engine T) :
  multisigVerify nP pubKeys nS sigInfos vm = Ok vm' ->
  exists success, stk (dstack vm') = fromBool success :: stk (dstack vm).
Proof.
  unfold multisigVerify. cbv zeta.
  destruct (multisigLoop _ _ _ _) as [[success st]| | |] eqn:Hloop; try discriminate.
  cbn [mbind result_bind].
  destruct (_ && _); [discriminate|]. intros [= <-].
  destruct (multisigLoop_frame _ _ _ _ _ _ Hloop) as [Hvm _]. cbn [msVm] in Hvm.
  exists success. rewrite Hvm. reflexivity.
Qed.

(** C2.  When the argument phase of CHECKMULTISIG has popped the number of
    public keys, the public keys, the number of signatures and the
    signatures, exactly one more item, the dummy, is popped, whatever the two
    numbers are: with an empty stack at that point the opcode fails; with
    the strict-multisig flag and a dummy that is not empty it fails with the
    null-dummy error; otherwise the verification runs on the stack below the
    dummy, whatever the dummy is, and on success its result is pushed onto
    the stack below the dummy. *)
Theorem multisig_dummy (op : parsedOpcode) (vm vm1 : Engine T) (nP nS : Z)
    (pubKeys : list byteSlice) (sigInfos : list parsedSigInfo) :
  multisigPopArgs vm = Ok (nP, pubKeys, nS, sigInfos, vm1) ->
  (exists kItem sItem,
     stk (dstack vm) =
       kItem :: pubKeys ++ sItem :: (signature <$> sigInfos) ++ stk (dstack vm1)) /\
  len pubKeys = nP /\ len sigInfos = nS /\
  (stk (dstack vm1) = [] -> opcodeCheckMultiSig op vm = Err ErrStackUnderflow) /\
  (forall dummy below, stk (dstack vm1) = dummy :: below ->
     let vm2 := set_dstack vm1 (mkStack below (verifyMinimalData (dstack vm1))) in
     (hasFlag vm ScriptStrictMultiSig = true -> dummy <> [] ->
        opcodeCheckMultiSig op vm = Err ErrSigNullDummy) /\
     (hasFlag vm ScriptStrictMultiSig = false \/ dummy = [] ->
        opcodeCheckMultiSig op vm = multisigVerify nP pubKeys nS sigInfos vm2) /\
     (forall vm', opcodeCheckMultiSig op vm = Ok vm' ->
        exists success, stk (dstack vm') = fromBool success :: below)).
Proof.
  intros Hargs.
  destruct (multisigPopArgs_inv _ _ _ _ _ _ Hargs) as (Hstk & HlP & HlS & _ & Hvm1).
  assert (Hflag : forall s f, hasFlag (set_dstack vm1 s) f = hasFlag vm f).
  { intros s f. rewrite Hvm1. reflexivity. }
  split; [exact Hstk|]. split; [exact HlP|]. split; [exact HlS|].
  unfold opcodeCheckMultiSig. rewrite Hargs. cbn [mbind result_bind].
  unfold PopByteArray. split.
  - intros ->. reflexivity.
  - intros dummy below ->. cbn [mbind result_bind]. cbv zeta.
    rewrite Hflag.
    assert (Hd : dummy <> [] -> (len dummy =? 0) = false).
    { intros Hne. destruct dummy; [done|]. rewrite len_cons.
      pose proof (len_nonneg dummy). apply Z.eqb_neq. lia. }
    split; [|split].
    + intros -> Hne. by rewrite (Hd Hne).
    + intros [-> | ->]; [reflexivity|].
      change (len (@nil byte) =? 0) with true. cbn [negb].
      by rewrite andb_false_r.
    + intros vm'. destruct (_ && _); [discriminate|].
      intros Hv. by apply multisigVerify_stack in Hv.
Qed.

(** *** Null-fail *)

(** C4, amended.  Under the null-fail flag, a CHECKSIG whose public key and
    signature parse and whose verification then fails, with signature bytes
    (without the hash type) that are not empty, returns the null-fail error,
    and a CHECKMULTISIG whose matching ends in failure returns the null-fail
    error unless every signature supplied is empty; without the flag the
    same failures push false and the handler succeeds. *)
Theorem nullfail_policy (op : parsedOpcode) (vm : Engine T) :
  (* CHECKSIG *)
  (forall pkBytes fullSigBytes below hash pub sig vm3,
     stk (dstack vm) = pkBytes :: fullSigBytes :: below ->
     let vm2 := set_dstack vm (mkStack below (verifyMinimalData (dstack vm))) in
     let hashType := lastByte fullSigBytes in
     let sigBytes := dropLast fullSigBytes in
     fullSigBytes <> [] ->
     checkHashTypeEncoding vm2 hashType = Ok tt ->
     checkSignatureEncoding vm2 sigBytes = Ok tt ->
     checkPubKeyEncoding vm2 pkBytes = Ok tt ->
     checkSigHash vm2 fullSigBytes hashType = Ok hash ->
     ParsePubKey pkBytes = Some pub ->
     parseSig vm2 sigBytes = Some sig ->
     verifySignature vm2 hash sig pub = (false, vm3) ->
     (hasFlag vm ScriptVerifyNullFail = true -> sigBytes <> [] ->
        opcodeCheckSig op vm = Err ErrNullFail) /\
     (hasFlag vm ScriptVerifyNullFail = false ->
        opcodeCheckSig op vm = Ok (set_dstack vm3 (PushBool (dstack vm3) false)) /\
        stk (dstack (set_dstack vm3 (PushBool (dstack vm3) false)))
          = fromBool false :: below)) /\
  (* CHECKMULTISIG *)
  (forall nP pubKeys nS sigInfos vm1 dummy below vmS,
     multisigPopArgs vm = Ok (nP, pubKeys, nS, sigInfos, vm1) ->
     stk (dstack vm1) = dummy :: below ->
     (hasFlag vm ScriptStrictMultiSig = false \/ dummy = []) ->
     let vm2 := set_dstack vm1 (mkStack below (verifyMinimalData (dstack vm1))) in
     orderedScan (multisigScript vm2 sigInfos) vm2 sigInfos pubKeys = Ok (false, vmS) ->
     let pushFalse := set_dstack vmS (PushBool (dstack vmS) false) in
     (hasFlag vm ScriptVerifyNullFail = true ->
      Exists (fun sigInfo => signature sigInfo <> []) sigInfos ->
        opcodeCheckMultiSig op vm = Err ErrNullFail) /\
     (hasFlag vm ScriptVerifyNullFail = true ->
      Forall (fun sigInfo => signature sigInfo = []) sigInfos ->
        opcodeCheckMultiSig op vm = Ok pushFalse) /\
     (hasFlag vm ScriptVerifyNullFail = false ->
        opcodeCheckMultiSig op vm = Ok pushFalse) /\
     stk (dstack pushFalse) = fromBool false :: below).
Proof.
  split.
  - intros. by eapply checkSig_nullfail.
  - intros nP pubKeys nS sigInfos vm1 dummy below vmS Hargs Hstk Hdummy vm2 Hscan
      pushFalse.
    destruct (checkMultiSig_runs_scan op vm vm1 nP nS pubKeys sigInfos dummy below
                Hargs Hstk Hdummy) as [Heval Hframe].
    fold vm2 in Heval, Hframe. specialize (Hframe false vmS Hscan).
    destruct (multisigPopArgs_inv _ _ _ _ _ _ Hargs) as (_ & _ & _ & _ & Hvm1).
    assert (Hflag : hasFlag vmS ScriptVerifyNullFail = hasFlag vm ScriptVerifyNullFail).
    { rewrite Hframe. unfold vm2. rewrite Hvm1. reflexivity. }
    rewrite Heval, Hscan. cbn [mbind result_bind].
    rewrite Hflag, existsb_signature. cbn [negb andb].
    split; [|split; [|split]].
    + intros -> Hex. cbn [andb].
      replace (existsb _ _) with true; [reflexivity|]. symmetry.
      apply existsb_exists. apply Exists_exists in Hex as (si & Hin & Hne).
      exists (signature si). split; [|by apply nonempty_len].
      apply list_elem_of_In. apply list_elem_of_fmap. eauto.
    + intros -> Hall. cbn [andb].
      replace (existsb _ _) with false; [reflexivity|]. symmetry.
      apply not_true_is_false. intros Hex.
      apply existsb_exists in Hex as (b & Hin & Hb).
      apply list_elem_of_In, list_elem_of_fmap in Hin as (si & -> & Hin).
      rewrite Forall_forall in Hall. apply nonempty_len in Hb. by rewrite (Hall _ Hin) in Hb.
    + intros ->. reflexivity.
    + unfold pushFalse. rewrite Hframe. reflexivity.
Qed.

End MultiSig.

(** ** The properties on the small instance *)


Lemma multisig_dummy_witness :
  let op := mkParsedOpcode (opcodeArray OpCheckMultiSig) [] in
  let items d := [[x02]; [x02; x0a]; [x02; x0b]; [x01]; [x02; x0b; x01]; d; [x07]] in
  (* a dummy that is not empty, under the strict flag *)
  opcodeCheckMultiSig (X := demoExternals) op
    (demoEngine (items [x01]) [] [ScriptStrictMultiSig] 0 0) = Err ErrSigNullDummy /\
  (* the same dummy without the flag: consumed, the result pushed below it *)
  opcodeCheckMultiSig (X := demoExternals) op (demoEngine (items [x01]) [] [] 0 0)
    = Ok (set_numOps (demoEngine [[x01]; [x07]] [] [] 0 0) 2).
Proof.
  intros op items.
  pose (sigInfos := [mkParsedSigInfo (T := demoTypes) [x02; x0b; x01] None false]).
  pose (pubKeys := [[x02; x0a]; [x02; x0b]]).
  split.
  - pose (vm := demoEngine (items [x01]) [] [ScriptStrictMultiSig] 0 0).
    pose (vm1 := set_dstack (set_numOps vm 2) (mkStack [[x01]; [x07]] false)).
    refine (proj1 (proj2 (proj2 (proj2 (proj2
              (multisig_dummy (X := demoExternals) op vm vm1 2 1 pubKeys sigInfos
                 eq_refl)))) [x01] [[x07]] eq_refl) eq_refl _).
    discriminate.
  - pose (vm := demoEngine (items [x01]) [] [] 0 0).
    pose (vm1 := set_dstack (set_numOps vm 2) (mkStack [[x01]; [x07]] false)).
    exact (proj1 (proj2 (proj2 (proj2 (proj2 (proj2
              (multisig_dummy (X := demoExternals) op vm vm1 2 1 pubKeys sigInfos
                 eq_refl)))) [x01] [[x07]] eq_refl)) (or_introl eq_refl)).
Defined.

Lemma multisig_ordered_scan_witness :
  let op := mkParsedOpcode (opcodeArray OpCheckMultiSig) [] in
  (* one signature, of the second of two keys: the scan passes the first key *)
  opcodeCheckMultiSig (X := demoExternals) op
    (demoEngine
       [[x02]; [x02; x0a]; [x02; x0b]; [x01]; [x02; x0b; x01]; []; [x07]] [] [] 0 0)
    = Ok (set_numOps (demoEngine [[x01]; [x07]] [] [] 0 0) 2) /\
  StronglySorted (fun a b : Z * Z => a.1 < b.1 /\ a.2 < b.2) [(0, 1)].
Proof.
  intros op.
  pose (vm0 := demoEngine
         [[x02]; [x02; x0a]; [x02; x0b]; [x01]; [x02; x0b; x01]; []; [x07]] [] [] 0 0).
  pose (vm1 := set_dstack (set_numOps vm0 2) (mkStack [[]; [x07]] false)).
  pose proof (multisig_ordered_scan (X := demoExternals) op vm0 vm1 2 1
                [[x02; x0a]; [x02; x0b]]
                [mkParsedSigInfo (T := demoTypes) [x02; x0b; x01] None false]
                [] [[x07]] eq_refl eq_refl (or_introl eq_refl))
    as (Hscan & _ & Hsorted & _).
  split; [|exact Hsorted].
  fold vm0. rewrite Hscan. reflexivity.
Defined.

(** C4, as stated, fails: under the null-fail flag, a CHECKSIG with signature
    bytes that are not empty and a public key that does not parse pushes
    false and succeeds; it does not return the null-fail error. *)
Lemma checkSig_nullfail_unparsed_key :
  let op := mkParsedOpcode (opcodeArray OpCheckSig) [] in
  let vm := demoEngine [[]; [x30; x01]; [x07]] [] [ScriptVerifyNullFail] 0 0 in
  hasFlag vm ScriptVerifyNullFail = true /\
  dropLast [x30; x01] = [x30] /\
  ParsePubKey (Externals := demoExternals) [] = None /\
  opcodeCheckSig (X := demoExternals) op vm =
    Ok (demoEngine [fromBool (Externals := demoExternals) false; [x07]] []
          [ScriptVerifyNullFail] 0 0) /\
  opcodeCheckSig (X := demoExternals) op vm <> Err ErrNullFail.
Proof. vm_compute. repeat split; try reflexivity. discriminate. Qed.

Lemma nullfail_policy_witness :
  let items := [[x01]; [x02; x0a]; [x01]; [x02; x0b; x01]; []; [x07]] in
  (* CHECKSIG: the signature of another key, under null-fail *)
  opcodeCheckSig (X := demoExternals) (mkParsedOpcode (opcodeArray OpCheckSig) [])
    (demoEngine [[x02; x0a]; [x02; x0b; x01]; [x07]] [] [ScriptVerifyNullFail] 0 0)
    = Err ErrNullFail /\
  (* CHECKMULTISIG: one key, the signature of another key, under null-fail *)
  opcodeCheckMultiSig (X := demoExternals)
    (mkParsedOpcode (opcodeArray OpCheckMultiSig) [])
    (demoEngine items [] [ScriptVerifyNullFail] 0 0) = Err ErrNullFail /\
  (* and without the flag *)
  opcodeCheckMultiSig (X := demoExternals)
    (mkParsedOpcode (opcodeArray OpCheckMultiSig) [])
    (demoEngine items [] [] 0 0)
    = Ok (set_numOps (demoEngine [[]; [x07]] [] [] 0 0) 1).
Proof.
  intros items.
  pose (sigInfos := [mkParsedSigInfo (T := demoTypes) [x02; x0b; x01] None false]).
  split; [|split].
  - pose (vm := demoEngine [[x02; x0a]; [x02; x0b; x01]; [x07]] [] [ScriptVerifyNullFail] 0 0).
    refine (proj1 (proj1 (nullfail_policy (X := demoExternals)
                            (mkParsedOpcode (opcodeArray OpCheckSig) []) vm)
              [x02; x0a] [x02; x0b; x01] [[x07]] [x01] [x02; x0a] [x02; x0b]
              (demoEngine [[x07]] [] [ScriptVerifyNullFail] 0 0)
              eq_refl _ eq_refl eq_refl eq_refl eq_refl eq_refl eq_refl eq_refl)
              eq_refl _); discriminate.
  - pose (vm := demoEngine items [] [ScriptVerifyNullFail] 0 0).
    pose (vm1 := set_dstack (set_numOps vm 1) (mkStack [[]; [x07]] false)).
    pose (vmS := set_dstack vm1 (mkStack [[x07]] false)).
    assert (Hargs : multisigPopArgs (X := demoExternals) vm =
                    Ok (1, [[x02; x0a]], 1, sigInfos, vm1)) by reflexivity.
    assert (Hscan : orderedScan (X := demoExternals)
                      (multisigScript (X := demoExternals) vmS sigInfos) vmS sigInfos
                      [[x02; x0a]] = Ok (false, vmS)) by reflexivity.
    pose proof (proj2 (nullfail_policy (X := demoExternals)
                         (mkParsedOpcode (opcodeArray OpCheckMultiSig) []) vm)
                  1 [[x02; x0a]] 1 sigInfos vm1 [] [[x07]] vmS
                  Hargs eq_refl (or_introl eq_refl) Hscan) as (Herr & _).
    apply Herr; [reflexivity|]. constructor. discriminate.
  - pose (vm := demoEngine items [] [] 0 0).
    pose (vm1 := set_dstack (set_numOps vm 1) (mkStack [[]; [x07]] false)).
    pose (vmS := set_dstack vm1 (mkStack [[x07]] false)).
    assert (Hargs : multisigPopArgs (X := demoExternals) vm =
                    Ok (1, [[x02; x0a]], 1, sigInfos, vm1)) by reflexivity.
    assert (Hscan : orderedScan (X := demoExternals)
                      (multisigScript (X := demoExternals) vmS sigInfos) vmS sigInfos
                      [[x02; x0a]] = Ok (false, vmS)) by reflexivity.
    pose proof (proj2 (nullfail_policy (X := demoExternals)
                         (mkParsedOpcode (opcodeArray OpCheckMultiSig) []) vm)
                  1 [[x02; x0a]] 1 sigInfos vm1 [] [[x07]] vmS
                  Hargs eq_refl (or_introl eq_refl) Hscan) as (_ & _ & Hok & _).
    exact (Hok eq_refl).
Defined.

(** * Further properties of [opcode.go] *)

(** ** The opcode table and the name table *)

(** X1.  The entry of the opcode table at index [b] has the value [b]; its
    length is [b + 1] for the direct pushes 1 to 75, -1, -2 and -4 for
    PUSHDATA1, PUSHDATA2 and PUSHDATA4, and 1 for every other opcode. *)
Theorem opcode_table_entries (b : byte) :
  value (opcodeArray b) = b /\
  oplength (opcodeArray b) =
    (if (1 <=? byteZ b) && (byteZ b <=? 75) then byteZ b + 1
     else if byteZ b =? 76 then -1
     else if byteZ b =? 77 then -2
     else if byteZ b =? 78 then -4
     else 1).
Proof. destruct b; split; reflexivity. Qed.

(** X2.  The predicates on parsed opcodes agree with the handler column of
    the table: an opcode is disabled exactly when its handler is
    [opcodeDisabled]; it is conditional exactly when its handler is one of
    the four conditional handlers; an always illegal opcode has the handler
    [opcodeReserved]; and no opcode is in two of the three classes. *)
Theorem opcode_classes (b : byte) (d : byteSlice) :
  let pop := mkParsedOpcode (opcodeArray b) d in
  (isDisabled pop = true <-> opfunc (opcodeArray b) = fn_opcodeDisabled) /\
  (isConditional pop = true <->
     opfunc (opcodeArray b) ∈
       [fn_opcodeIf; fn_opcodeNotIf; fn_opcodeElse; fn_opcodeEndif]) /\
  (alwaysIllegal pop = true -> opfunc (opcodeArray b) = fn_opcodeReserved) /\
  (isDisabled pop && isConditional pop = false) /\
  (isDisabled pop && alwaysIllegal pop = false) /\
  (isConditional pop && alwaysIllegal pop = false).
Proof.
  assert (Hdec : forall f : OpFunc,
            f ∈ [fn_opcodeIf; fn_opcodeNotIf; fn_opcodeElse; fn_opcodeEndif] <->
            (match f with
             | fn_opcodeIf | fn_opcodeNotIf | fn_opcodeElse | fn_opcodeEndif => true
             | _ => false
             end = true)).
  { intros f. rewrite !elem_of_cons, elem_of_nil.
    destruct f; split; intros H; try reflexivity; try discriminate H; auto;
      destruct H as [H | [H | [H | [H | []]]]]; discriminate H. }
  cbv zeta. rewrite Hdec.
  destruct b; cbn; repeat split; intros H; try reflexivity; try discriminate H.
Qed.

(** X3.  The name table gives back the value of every opcode under its table
    name, and the four aliases OpFalse, OpTrue, OpNoOp2 and OpNoOp3; it has
    no other entry; in particular the names of the opcode table are pairwise
    different. *)
Theorem OpcodeByName_lookup :
  (forall b, OpcodeByName !! name (opcodeArray b) = Some b) /\
  OpcodeByName !! "OpFalse"%string = Some OpFalse /\
  OpcodeByName !! "OpTrue"%string = Some OpTrue /\
  OpcodeByName !! "OpNoOp2"%string = Some OpCheckLockTimeVerify /\
  OpcodeByName !! "OpNoOp3"%string = Some OpCheckSequenceVerify /\
  (forall s b, OpcodeByName !! s = Some b -> nameTableEntry s b) /\
  (forall a b, name (opcodeArray a) = name (opcodeArray b) -> a = b).
Proof.
  assert (Hname : forall b, OpcodeByName !! name (opcodeArray b) = Some b)
    by (destruct b; vm_compute; reflexivity).
  split; [exact Hname|].
  do 4 (split; [vm_compute; reflexivity|]).
  split.
  - assert (Hall : map_Forall nameTableEntry OpcodeByName).
    { refine (bool_decide_unpack (map_Forall nameTableEntry OpcodeByName) _).
      vm_compute. exact I. }
    intros s b H. exact (Hall s b H).
  - intros a b H. pose proof (Hname a) as Ha. rewrite H, Hname in Ha. congruence.
Qed.

(** ** Re-encoding a parsed opcode *)

Lemma toByte_land (x : Z) : toByte (Z.land x 255) = toByte x.
Proof. unfold toByte. by rewrite land_255, Z.mod_mod. Qed.

Lemma bytes_prefixed1 (pop : parsedOpcode) :
  oplength (popOpcode pop) = -1 ->
  bytes pop =
    if len (data pop) <? 256
    then Ok (value (popOpcode pop) :: leBytes 1 (len (data pop)) ++ data pop)
    else Err ErrInternal.
Proof.
  intros Hl. pose proof (len_nonneg (data pop)) as Hnn. bytes_enter Hl.
  rewrite byteZ_toByte. unfold scriptError.
  destruct (Z.ltb_spec (len (data pop)) 256).
  - rewrite Z.mod_small by lia. bytes_leave.
  - match goal with
    | |- context [negb (?a =? ?b)] => destruct (Z.eqb_spec a b); [|reflexivity]
    end.
    exfalso. pose proof (Z.mod_pos_bound (len (data pop)) 256 ltac:(lia)).
    unfold len in *. cbn [length] in *. lia.
Qed.

Lemma bytes_prefixed2 (pop : parsedOpcode) :
  oplength (popOpcode pop) = -2 ->
  bytes pop =
    if len (data pop) <? 65536
    then Ok (value (popOpcode pop) :: leBytes 2 (len (data pop)) ++ data pop)
    else Err ErrInternal.
Proof.
  intros Hl. pose proof (len_nonneg (data pop)) as Hnn. bytes_enter Hl.
  rewrite !toByte_land, !byteZ_toByte, Z.shiftr_div_pow2 by lia.
  change (2 ^ 8) with 256.
  rewrite lor_shiftl_add
    by (change (2 ^ 8) with 256; try lia; apply Z.mod_pos_bound; lia).
  change (2 ^ 8) with 256. unfold scriptError.
  set (l := len (data pop)) in *.
  assert (Hsum : l mod 256 + (l / 256) mod 256 * 256 = l mod 65536)
    by (Z.div_mod_to_equations; lia).
  rewrite Hsum.
  destruct (Z.ltb_spec l 65536).
  - rewrite Z.mod_small by lia. subst l. bytes_leave.
  - match goal with
    | |- context [negb (?a =? ?b)] => destruct (Z.eqb_spec a b); [|reflexivity]
    end.
    exfalso. pose proof (Z.mod_pos_bound l 65536 ltac:(lia)).
    subst l. unfold len in *. cbn [length] in *. lia.
Qed.

Lemma bytes_prefixed4 (pop : parsedOpcode) :
  oplength (popOpcode pop) = -4 ->
  bytes pop =
    if len (data pop) <? 4294967296
    then Ok (value (popOpcode pop) :: leBytes 4 (len (data pop)) ++ data pop)
    else Err ErrInternal.
Proof.
  intros Hl. pose proof (len_nonneg (data pop)) as Hnn. bytes_enter Hl.
  rewrite !toByte_land, !byteZ_toByte, !Z.shiftr_div_pow2 by lia.
  change (2 ^ 8) with 256; change (2 ^ 16) with 65536;
    change (2 ^ 24) with 16777216.
  set (l := len (data pop)) in *.
  pose proof (Z.mod_pos_bound l 256 ltac:(lia)).
  pose proof (Z.mod_pos_bound (l / 256) 256 ltac:(lia)).
  pose proof (Z.mod_pos_bound (l / 65536) 256 ltac:(lia)).
  pose proof (Z.mod_pos_bound (l / 16777216) 256 ltac:(lia)).
  rewrite (lor_shiftl_add (l mod 256)) by (change (2 ^ 8) with 256; lia).
  rewrite (lor_shiftl_add _ ((l / 65536) mod 256))
    by (change (2 ^ 8) with 256; change (2 ^ 16) with 65536; lia).
  rewrite (lor_shiftl_add _ ((l / 16777216) mod 256))
    by (change (2 ^ 8) with 256; change (2 ^ 16) with 65536;
        change (2 ^ 24) with 16777216; lia).
  change (2 ^ 8) with 256; change (2 ^ 16) with 65536;
    change (2 ^ 24) with 16777216. unfold scriptError.
  assert (Hsum : l mod 256 + (l / 256) mod 256 * 256 + (l / 65536) mod 256 * 65536
                 + (l / 16777216) mod 256 * 16777216 = l mod 4294967296)
    by (Z.div_mod_to_equations; lia).
  rewrite Hsum.
  assert (Hdiv : toByte (l / 65536) = toByte (l / 256 / 256) /\
                 toByte (l / 16777216) = toByte (l / 256 / 256 / 256)).
  { rewrite !Z.div_div by lia. done. }
  destruct Hdiv as [Hd2 Hd3]. cbn [leBytes]. rewrite <- Hd2, <- Hd3.
  destruct (Z.ltb_spec l 4294967296).
  - rewrite Z.mod_small by lia. subst l. bytes_leave.
  - match goal with
    | |- context [negb (?a =? ?b)] => destruct (Z.eqb_spec a b); [|reflexivity]
    end.
    exfalso. pose proof (Z.mod_pos_bound l 4294967296 ltac:(lia)).
    subst l. unfold len in *. cbn [length] in *. lia.
Qed.

Lemma leBytes_length (k : nat) (l : Z) : length (leBytes k l) = k.
Proof. revert l. induction k as [|k IH]; intros l; cbn; [|rewrite IH]; done. Qed.

Lemma prefixLength_direct (b : byte) :
  isDirectPush b = true -> prefixLength b = None.
Proof. destruct b; intros H; try discriminate H; reflexivity. Qed.

Lemma prefixLength_byte (b : byte) (k : nat) :
  prefixLength b = Some k ->
  (k = 1%nat /\ byteZ b = 76) \/ (k = 2%nat /\ byteZ b = 77) \/
  (k = 4%nat /\ byteZ b = 78).
Proof. destruct b; intros H; try discriminate H; injection H as <-; auto. Qed.

Lemma plain_below_push (b : byte) :
  byteZ b <= 78 -> isDirectPush b = false -> prefixLength b = None -> byteZ b = 0.
Proof.
  intros H. apply Z.leb_le in H. revert H.
  destruct b; intros H H1 H2;
    try discriminate H; try discriminate H1; try discriminate H2; reflexivity.
Qed.

(** [bytes] on an entry of the opcode table, by whether the data fits. *)
Lemma bytes_dataFits (b : byte) (d : byteSlice) :
  bytes (mkParsedOpcode (opcodeArray b) d) =
    if dataFits b d then Ok (b :: leBytes (prefixBytes b) (len d) ++ d)
    else Err ErrInternal.
Proof.
  pose proof (len_nonneg d) as Hnn.
  unfold dataFits, prefixBytes.
  destruct (isDirectPush b) eqn:Hd.
  - destruct (oplength_direct b Hd) as [Hl H1].
    rewrite (prefixLength_direct b Hd). cbn [default leBytes app].
    destruct (Z.eqb_spec (len d) (byteZ b)) as [E|E].
    + rewrite bytes_direct_push; cbn [popOpcode data]; try lia.
      by rewrite opcodeArray_value.
    + unfold bytes. cbn [popOpcode data].
      destruct (Z.eqb_spec (oplength (opcodeArray b)) 1); [lia|].
      destruct (Z.ltb_spec (oplength (opcodeArray b)) 0); [lia|].
      cbn [mbind result_bind app]. rewrite len_cons, Hl.
      destruct (Z.eqb_spec (1 + len d) (byteZ b + 1)); [lia | reflexivity].
  - destruct (prefixLength b) as [k|] eqn:Hp.
    + destruct (oplength_prefixed b k Hp) as [Hl [-> | [-> | ->]]];
        cbn [default].
      * rewrite bytes_prefixed1 by exact Hl. cbn [popOpcode data].
        by rewrite opcodeArray_value.
      * rewrite bytes_prefixed2 by exact Hl. cbn [popOpcode data].
        by rewrite opcodeArray_value.
      * rewrite bytes_prefixed4 by exact Hl. cbn [popOpcode data].
        by rewrite opcodeArray_value.
    + pose proof (oplength_plain b Hd Hp) as Hl. cbn [default leBytes app].
      unfold bytes. cbn [popOpcode data]. rewrite Hl, opcodeArray_value.
      cbn [Z.eqb Pos.eqb].
      destruct d as [|x d]; [reflexivity|].
      rewrite len_cons. pose proof (len_nonneg d).
      destruct (Z.eqb_spec (1 + len d) 0); [lia | reflexivity].
Qed.

(** The shape of the data that fits an opcode of the push range. *)
Lemma dataFits_push_range (b : byte) (d : byteSlice) :
  byteZ b <= 78 -> dataFits b d = true ->
  (byteZ b = 0 /\ len d = 0 /\ prefixBytes b = 0%nat) \/
  (1 <= byteZ b <= 75 /\ len d = byteZ b /\ prefixBytes b = 0%nat) \/
  (byteZ b = 76 /\ len d < 256 /\ prefixBytes b = 1%nat) \/
  (byteZ b = 77 /\ len d < 65536 /\ prefixBytes b = 2%nat) \/
  (byteZ b = 78 /\ len d < 4294967296 /\ prefixBytes b = 4%nat).
Proof.
  intros Hb. unfold dataFits, prefixBytes.
  destruct (isDirectPush b) eqn:Hd.
  - rewrite (prefixLength_direct b Hd). intros H%Z.eqb_eq.
    unfold isDirectPush in Hd. apply andb_prop in Hd as [H1%Z.leb_le H2%Z.leb_le].
    change (byteZ OpData1) with 1 in H1. change (byteZ OpData75) with 75 in H2.
    right; left. auto.
  - destruct (prefixLength b) as [k|] eqn:Hp.
    + intros H%Z.ltb_lt.
      destruct (prefixLength_byte b k Hp) as [[-> E] | [[-> E] | [-> E]]];
        cbn [default]; change (2 ^ _) with 256 in H || change (2 ^ _) with 65536 in H
                       || change (2 ^ _) with 4294967296 in H; auto 10.
    + intros H%Z.eqb_eq. left. cbn [default].
      auto using plain_below_push.
Qed.

(** The minimal push check decides the canonical form up to the PUSHDATA2
    bound. *)
Lemma minimal_push_decision (pop : parsedOpcode) :
  len (data pop) <= 65535 ->
  checkMinimalDataPush pop = if canonicalPush pop then Ok tt else Err ErrMinimalData.
Proof.
  intros Hlen. unfold checkMinimalDataPush, canonicalPush, scriptError.
  rewrite !byte_eqb_byteZ.
  pose proof (byteZ_range (value (popOpcode pop))) as Hv.
  pose proof (len_nonneg (data pop)) as Hl.
  destruct (Z.eqb_spec (len (data pop)) 0) as [E0|E0].
  - rewrite E0. cbn [andb]. change (byteZ OpZero) with 0.
    destruct (Z.eqb_spec (byteZ (value (popOpcode pop))) 0); cbn; reflexivity.
  - cbn [andb].
    destruct ((len (data pop) =? 1) && (1 <=? data0 (data pop)) &&
              (data0 (data pop) <=? 16)) eqn:E1.
    + apply andb_prop in E1 as [E1 E3]. apply andb_prop in E1 as [E1 E2].
      rewrite small_int_opcode by lia. by_negb.
    + destruct ((len (data pop) =? 1) && (data0 (data pop) =? 129)) eqn:E2;
        [by_negb|].
      destruct (Z.leb_spec (len (data pop)) 75); [by_negb|].
      destruct (Z.leb_spec (len (data pop)) 255); [by_negb|].
      destruct (Z.leb_spec (len (data pop)) 65535); [|lia].
      by_negb.
Qed.

(** An opcode of the push range that passes the minimal push check is the one
    that the length of the data asks for. *)
Lemma minimal_push_opcode (b : byte) (d : byteSlice) :
  byteZ b <= 78 -> len d <= 65535 ->
  checkMinimalDataPush (mkParsedOpcode (opcodeArray b) d) = Ok tt ->
  byteZ b = if len d <=? 75 then len d else if len d <=? 255 then 76 else 77.
Proof.
  intros Hb Hlen. rewrite minimal_push_decision by exact Hlen.
  unfold canonicalPush. cbn [popOpcode data]. rewrite opcodeArray_value.
  pose proof (len_nonneg d) as Hnn.
  destruct (Z.eqb_spec (len d) 0) as [E0|E0].
  - rewrite E0. change (byteZ OpZero) with 0.
    destruct (Z.eqb_spec (byteZ b) 0); [cbn; lia | discriminate].
  - destruct ((len d =? 1) && (1 <=? data0 d) && (data0 d <=? 16)) eqn:E1.
    { apply andb_prop in E1 as [E1 E3%Z.leb_le].
      apply andb_prop in E1 as [E1 E2%Z.leb_le].
      change (byteZ Op1) with 81.
      destruct (Z.eqb_spec (byteZ b) (81 + data0 d - 1)); [lia | discriminate]. }
    destruct ((len d =? 1) && (data0 d =? 129)) eqn:E2.
    { change (byteZ Op1Negate) with 79.
      destruct (Z.eqb_spec (byteZ b) 79); [lia | discriminate]. }
    destruct (Z.leb_spec (len d) 75).
    { destruct (Z.eqb_spec (byteZ b) (len d)); [lia | discriminate]. }
    destruct (Z.leb_spec (len d) 255).
    { change (byteZ OpPushData1) with 76.
      destruct (Z.eqb_spec (byteZ b) 76); [lia | discriminate]. }
    destruct (Z.leb_spec (len d) 65535); [|lia].
    change (byteZ OpPushData2) with 77.
    destruct (Z.eqb_spec (byteZ b) 77); [lia | discriminate].
Qed.

(** X4.  An entry of the opcode table re-encodes exactly when its data fits
    the opcode: the declared length for a direct push, a length that the
    prefix can hold for PUSHDATA1/2/4, no data otherwise.  The encoding is
    the opcode byte, the little-endian length prefix and the data; every
    other parsed opcode is an internal error. *)
Theorem bytes_consistent (b : byte) (d : byteSlice) :
  let pop := mkParsedOpcode (opcodeArray b) d in
  bytes pop =
    (if dataFits b d then Ok (b :: leBytes (prefixBytes b) (len d) ++ d)
     else Err ErrInternal) /\
  (forall out, bytes pop = Ok out ->
     len out = 1 + Z.of_nat (prefixBytes b) + len d /\
     (prefixLength b <> None ->
      littleEndian (leBytes (prefixBytes b) (len d)) = len d)).
Proof.
  cbn zeta. split; [apply bytes_dataFits|].
  intros out. rewrite bytes_dataFits.
  destruct (dataFits b d) eqn:Hf; [|discriminate].
  intros [= <-]. split.
  { rewrite len_cons. unfold len. rewrite length_app, leBytes_length. lia. }
  intros Hne. revert Hf. unfold dataFits, prefixBytes.
  destruct (isDirectPush b) eqn:Hd.
  { by rewrite (prefixLength_direct b Hd) in Hne. }
  destruct (prefixLength b) as [k|] eqn:Hp; [|done].
  pose proof (len_nonneg d) as Hnn.
  intros H%Z.ltb_lt. cbn [default].
  destruct (oplength_prefixed b _ Hp) as [_ [E | [E | E]]]; subst k;
    cbn [leBytes littleEndian foldr]; rewrite ?byteZ_toByte;
    [change (2 ^ _) with 256 in H | change (2 ^ _) with 65536 in H
     | change (2 ^ _) with 4294967296 in H];
    unfold id; cbn [leBytes littleEndian foldr]; rewrite ?byteZ_toByte;
    Z.div_mod_to_equations; lia.
Qed.

Lemma bytes_consistent_witness :
  bytes (mkParsedOpcode (opcodeArray OpPushData1) [x0a; x0b]) =
    Ok [OpPushData1; x02; x0a; x0b] /\
  len [OpPushData1; x02; x0a; x0b] = 1 + 1 + 2 /\
  littleEndian [x02] = 2.
Proof.
  split; [reflexivity|].
  destruct (proj2 (bytes_consistent OpPushData1 [x0a; x0b])
              [OpPushData1; x02; x0a; x0b] eq_refl) as [Hlen Hle].
  split; [exact Hlen|].
  apply Hle. discriminate.
Defined.

(** X5.  Re-encoding is injective on the opcode table: two table entries with
    their data that re-encode to the same bytes are the same opcode with the
    same data. *)
Theorem bytes_injective (b1 b2 : byte) (d1 d2 out : byteSlice) :
  bytes (mkParsedOpcode (opcodeArray b1) d1) = Ok out ->
  bytes (mkParsedOpcode (opcodeArray b2) d2) = Ok out ->
  b1 = b2 /\ d1 = d2.
Proof.
  rewrite !bytes_dataFits.
  destruct (dataFits b1 d1); [|discriminate].
  destruct (dataFits b2 d2); [|discriminate].
  intros [= <-] [= <- H]. split; [reflexivity|].
  apply app_inj_1 in H as [_ H]; [by symmetry|].
  by rewrite !leBytes_length.
Qed.

Lemma bytes_injective_witness :
  (x02 : byte) = x02 /\ [x0a; x0b] = [x0a; x0b].
Proof.
  exact (bytes_injective OpData2 OpData2 [x0a; x0b] [x0a; x0b]
           [OpData2; x0a; x0b] eq_refl eq_refl).
Defined.

(** X6.  Among the opcodes of the push range (up to PUSHDATA4) that can carry
    a given payload, the one that passes the minimal push check gives the
    shortest encoding, and no other one passes the check. *)
Theorem minimal_push_shortest (b b' : byte) (d out out' : byteSlice) :
  byteZ b <= byteZ OpPushData4 -> byteZ b' <= byteZ OpPushData4 ->
  checkMinimalDataPush (mkParsedOpcode (opcodeArray b) d) = Ok tt ->
  bytes (mkParsedOpcode (opcodeArray b) d) = Ok out ->
  bytes (mkParsedOpcode (opcodeArray b') d) = Ok out' ->
  len out <= len out' /\
  (checkMinimalDataPush (mkParsedOpcode (opcodeArray b') d) = Ok tt -> b' = b).
Proof.
  change (byteZ OpPushData4) with 78. intros Hb Hb' Hmin.
  rewrite !bytes_dataFits.
  destruct (dataFits b d) eqn:Hf; [|discriminate].
  destruct (dataFits b' d) eqn:Hf'; [|discriminate].
  intros [= <-] [= <-].
  pose proof (dataFits_push_range b d Hb Hf) as Hc.
  pose proof (dataFits_push_range b' d Hb' Hf') as Hc'.
  pose proof (len_nonneg d) as Hnn.
  rewrite !len_cons. unfold len at 1 3. rewrite !length_app, !leBytes_length.
  fold (len d).
  destruct (Z.leb_spec (len d) 65535) as [Hlen|Hlen].
  - pose proof (minimal_push_opcode b d Hb Hlen Hmin) as Ho.
    split.
    + destruct (Z.leb_spec (len d) 75); [lia|].
      destruct (Z.leb_spec (len d) 255); lia.
    + intros Hmin'.
      pose proof (minimal_push_opcode b' d Hb' Hlen Hmin') as Ho'.
      apply byteZ_inj. congruence.
  - split; [lia|]. intros _. apply byteZ_inj. lia.
Qed.

Lemma minimal_push_shortest_witness :
  len [OpData2; x0a; x0b] <= len [OpPushData1; x02; x0a; x0b] /\
  (checkMinimalDataPush (mkParsedOpcode (opcodeArray OpPushData1) [x0a; x0b]) = Ok tt ->
   OpPushData1 = OpData2).
Proof.
  apply (minimal_push_shortest OpData2 OpPushData1 [x0a; x0b]);
    [vm_compute; discriminate | vm_compute; discriminate
     | reflexivity | reflexivity | reflexivity].
Defined.

(** X7.  The small integers agree between the minimal push check and the
    handler of the small-integer opcodes: the only opcode that the check
    accepts for the one-byte payload [d], 1 <= d <= 16, is [Op1 + d - 1]; the
    opcode table gives it the handler [opcodeN], which pushes the number
    [d]. *)
Theorem small_integer_opcodes {T : ExtTypes} {P : Primitives}
    (b d : byte) (any : byteSlice) (vm : Engine T) :
  1 <= byteZ d <= 16 ->
  (checkMinimalDataPush (mkParsedOpcode (opcodeArray b) [d]) = Ok tt <->
   byteZ b = byteZ Op1 + byteZ d - 1) /\
  (byteZ b = byteZ Op1 + byteZ d - 1 ->
   opfunc (opcodeArray b) = fn_opcodeN /\
   opcodeN (mkParsedOpcode (opcodeArray b) any) vm =
     Ok (set_dstack vm (PushInt (dstack vm) (byteZ d)))).
Proof.
  intros Hd. split.
  - rewrite minimal_push_decision by (vm_compute; discriminate).
    unfold canonicalPush. cbn [popOpcode data]. rewrite opcodeArray_value.
    change (len [d]) with 1. change (data0 [d]) with (byteZ d).
    cbn [Z.eqb Pos.eqb andb].
    destruct (Z.leb_spec 1 (byteZ d)); [|lia].
    destruct (Z.leb_spec (byteZ d) 16); [|lia].
    destruct (Z.eqb_spec (byteZ b) (byteZ Op1 + byteZ d - 1)); split; done.
  - intros Hb. change (byteZ Op1) with 81 in Hb.
    assert (Eb : b = toByte (80 + byteZ d)).
    { apply byteZ_inj. rewrite byteZ_toByte, Z.mod_small; lia. }
    split.
    + subst b. clear Hb. destruct Hd as [H1%Z.leb_le H2%Z.leb_le].
      revert H1 H2. destruct d; intros H1 H2;
        try discriminate H1; try discriminate H2; reflexivity.
    + unfold opcodeN. cbn [popOpcode]. rewrite opcodeArray_value.
      change (byteZ Op1) with 81.
      rewrite Hb, byteZ_toByte, Z.mod_small by lia.
      do 3 f_equal. lia.
Qed.

Lemma small_integer_opcodes_witness :
  checkMinimalDataPush (mkParsedOpcode (opcodeArray Op5) [x05]) = Ok tt /\
  opfunc (opcodeArray Op5) = fn_opcodeN /\
  opcodeN (P := demoPrimitives)
    (mkParsedOpcode (opcodeArray Op5) []) (demoEngine [] [] [] 0 0) =
    Ok (set_dstack (demoEngine [] [] [] 0 0)
          (PushInt (P := demoPrimitives)
             (dstack (demoEngine [] [] [] 0 0)) 5)).
Proof.
  pose proof (small_integer_opcodes (P := demoPrimitives)
                Op5 x05 [] (demoEngine [] [] [] 0 0)
                ltac:(vm_compute; split; discriminate)) as [Hc Hn].
  split; [apply Hc; reflexivity|]. apply Hn. reflexivity.
Defined.

(** ** The NOP family and the conditional opcodes *)

Section FurtherConditionals.
Context {T : ExtTypes} {X : Externals T} {P : Primitives}.

(** X8.  [opcodeNop] never changes the engine and fails only with the error
    that discourages upgradable NOPs.  Without the discouraging flag it
    succeeds for every opcode; with the flag, among the opcodes that the
    table hands to [opcodeNop], only [OpNoOp] itself succeeds. *)
Theorem opcodeNop_policy (b : byte) (d : byteSlice) (vm : Engine T) :
  let pop := mkParsedOpcode (opcodeArray b) d in
  (hasFlag vm ScriptDiscourageUpgradableNops = false -> opcodeNop pop vm = Ok vm) /\
  (hasFlag vm ScriptDiscourageUpgradableNops = true ->
   opfunc (opcodeArray b) = fn_opcodeNop ->
   opcodeNop pop vm =
     if Byte.eqb b OpNoOp then Ok vm else Err ErrDiscourageUpgradableNOPs) /\
  (forall vm', opcodeNop pop vm = Ok vm' -> vm' = vm) /\
  (forall e, opcodeNop pop vm = Err e ->
     e = ErrDiscourageUpgradableNOPs /\ opfunc (opcodeArray b) = fn_opcodeNop).
Proof.
  cbv zeta. unfold opcodeNop. cbn [popOpcode]. rewrite opcodeArray_value.
  destruct (hasFlag vm ScriptDiscourageUpgradableNops);
    destruct b; cbn; unfold scriptError; repeat split; intros; congruence.
Qed.

(** X9.  With a version 0 witness program active and the minimal-if flag set,
    [popIfBool] accepts exactly the empty item and the item [0x01] on top of
    the stack and gives the minimal-if error for every other item; otherwise
    every item is accepted.  In both modes the item is popped and read as a
    boolean, and an empty stack is an underflow. *)
Theorem popIfBool_minimal (vm : Engine T) :
  let popped below :=
    set_dstack vm (mkStack below (verifyMinimalData (dstack vm))) in
  (isWitnessVersionActive vm 0 = true -> hasFlag vm ScriptVerifyMinimalIf = true ->
   popIfBool vm =
     match stk (dstack vm) with
     | [] => Err ErrStackUnderflow
     | so :: below =>
         if bool_decide (so = [] \/ so = [x01])
         then Ok (asBool so, popped below)
         else Err ErrMinimalIf
     end) /\
  (isWitnessVersionActive vm 0 = false \/ hasFlag vm ScriptVerifyMinimalIf = false ->
   popIfBool vm =
     match stk (dstack vm) with
     | [] => Err ErrStackUnderflow
     | so :: below => Ok (asBool so, popped below)
     end).
Proof.
  cbv zeta. unfold popIfBool, PopBool, PopByteArray. split.
  - intros -> ->. cbn [negb orb].
    destruct (stk (dstack vm)) as [|so below]; [reflexivity|].
    cbn [mbind result_bind]. cbv beta iota.
    destruct so as [|x [|y so]].
    + reflexivity.
    + change (len [x] >? 1) with false. change (len [x] =? 1) with true.
      change (data0 [x]) with (byteZ x). cbn [andb].
      destruct (Z.eqb_spec (byteZ x) 1) as [E|E].
      * assert (x = x01) as -> by (apply byteZ_inj; exact E). reflexivity.
      * rewrite bool_decide_false; [reflexivity|].
        intros [H|H]; [discriminate H|]. injection H as ->. by apply E.
    + assert ((len (x :: y :: so) >? 1) = true) as ->.
      { rewrite !len_cons. pose proof (len_nonneg so).
        destruct (Z.gtb_spec (1 + (1 + len so)) 1); [reflexivity | lia]. }
      rewrite bool_decide_false; [reflexivity|].
      intros [H|H]; discriminate H.
  - intros H.
    assert ((negb (isWitnessVersionActive vm 0) ||
             negb (hasFlag vm ScriptVerifyMinimalIf)) = true) as ->.
    { destruct H as [-> | ->]; [reflexivity | apply orb_true_r]. }
    destruct (stk (dstack vm)); reflexivity.
Qed.

Lemma opcodeIf_pushes (op : parsedOpcode) (vm vm1 : Engine T) :
  opcodeIf op vm = Ok vm1 \/ opcodeNotIf op vm = Ok vm1 ->
  exists c, condStack vm1 = condStack vm ++ [c] /\
            (isBranchExecuting vm = false -> c = OpCondSkip /\ vm1 = set_condStack vm (condStack vm ++ [c])).
Proof.
  unfold opcodeIf, opcodeNotIf.
  destruct (isBranchExecuting vm).
  - destruct (popIfBool vm) as [[b vm']| | |] eqn:Hp;
      cbn; intros [H|H]; try discriminate H; injection H as <-;
      cbn [condStack set_condStack];
      rewrite (popIfBool_condStack _ _ _ Hp); eexists; (split; [reflexivity | done]).
  - cbn. intros [H|H]; injection H as <-; exists OpCondSkip; done.
Qed.

Lemma isBranchExecuting_snoc (vm : Engine T) (cs : list Z) (c : Z) :
  condStack vm = cs ++ [c] ->
  isBranchExecuting vm = forallb (Z.eqb OpCondTrue) cs && (c =? OpCondTrue).
Proof.
  intros H. unfold isBranchExecuting. rewrite H, forallb_app. cbn [forallb].
  by rewrite andb_true_r, (Z.eqb_sym OpCondTrue c).
Qed.

(** X10.  The conditional opcodes compose into blocks.  ENDIF after a
    successful IF or NOTIF gives back the condition stack from before the
    block.  ELSE is its own inverse.  Inside a branch that is not executing,
    the marker of a nested IF or NOTIF is Skip and the nested branch does not
    execute, before and after its ELSE.  Where the enclosing branches
    execute, ELSE switches between executing and not executing. *)
Theorem conditional_blocks (op1 op2 : parsedOpcode) (vm vm1 : Engine T) :
  (opcodeIf op1 vm = Ok vm1 \/ opcodeNotIf op1 vm = Ok vm1 ->
   opcodeEndif op2 vm1 = Ok (set_condStack vm1 (condStack vm)) /\
   (isBranchExecuting vm = false ->
    isBranchExecuting vm1 = false /\ opcodeElse op2 vm1 = Ok vm1)) /\
  (opcodeElse op1 vm = Ok vm1 ->
   opcodeElse op2 vm1 = Ok vm /\
   (forall cs c, condStack vm = cs ++ [c] ->
      forallb (Z.eqb OpCondTrue) cs = true ->
      c = OpCondTrue \/ c = OpCondFalse ->
      isBranchExecuting vm1 = negb (isBranchExecuting vm))).
Proof.
  split.
  - intros H. destruct (opcodeIf_pushes op1 vm vm1 H) as (c & Hc & Hskip).
    split.
    + unfold opcodeEndif. rewrite Hc, len_app_one.
      pose proof (len_nonneg (condStack vm)).
      destruct (Z.eqb_spec (len (condStack vm) + 1) 0); [lia|].
      rewrite <- len_app_one with (x := c), take_last. reflexivity.
    + intros Hne. destruct (Hskip Hne) as [-> _].
      split.
      * rewrite (isBranchExecuting_snoc vm1 _ _ Hc).
        unfold isBranchExecuting in Hne. rewrite Hne. reflexivity.
      * unfold opcodeElse. rewrite Hc, indexZ_last, len_app_one.
        pose proof (len_nonneg (condStack vm)).
        destruct (Z.eqb_spec (len (condStack vm) + 1) 0); [lia|].
        reflexivity.
  - unfold opcodeElse at 1.
    destruct (snoc_case (condStack vm)) as [E | (cs & c & E)].
    { rewrite E. discriminate. }
    rewrite E, indexZ_last, !insert_last, len_app_one.
    pose proof (len_nonneg cs).
    destruct (Z.eqb_spec (len cs + 1) 0); [lia|].
    assert (Hback : forall c', set_condStack (set_condStack vm (cs ++ [c'])) (cs ++ [c]) = vm).
    { intros c'. rewrite <- E. destruct vm; reflexivity. }
    change OpCondTrue with 1. change OpCondFalse with 0.
    destruct (Z.eqb_spec c 1) as [->|Hc1]; [|destruct (Z.eqb_spec c 0) as [->|Hc0]];
      intros [= <-]; (split; [|intros cs' c' E' Hcs Hc']).
    + unfold opcodeElse. cbn [condStack set_condStack].
      rewrite indexZ_last, !insert_last, len_app_one.
      destruct (Z.eqb_spec (len cs + 1) 0); [lia|]. cbn. by rewrite Hback.
    + apply app_inj_tail in E' as [<- _].
      rewrite (isBranchExecuting_snoc vm cs 1 E).
      rewrite (isBranchExecuting_snoc (set_condStack vm (cs ++ [0])) cs 0 eq_refl).
      change OpCondTrue with 1. rewrite Hcs. reflexivity.
    + unfold opcodeElse. cbn [condStack set_condStack].
      rewrite indexZ_last, !insert_last, len_app_one.
      destruct (Z.eqb_spec (len cs + 1) 0); [lia|]. cbn. by rewrite Hback.
    + apply app_inj_tail in E' as [<- _].
      rewrite (isBranchExecuting_snoc vm cs 0 E).
      rewrite (isBranchExecuting_snoc (set_condStack vm (cs ++ [1])) cs 1 eq_refl).
      change OpCondTrue with 1. rewrite Hcs. reflexivity.
    + unfold opcodeElse. rewrite E, indexZ_last, len_app_one.
      destruct (Z.eqb_spec (len cs + 1) 0); [lia|].
      change OpCondTrue with 1. change OpCondFalse with 0.
      destruct (Z.eqb_spec c 1); [done|]. destruct (Z.eqb_spec c 0); done.
    + apply app_inj_tail in E' as [<- <-].
      change OpCondTrue with 1 in Hc'. change OpCondFalse with 0 in Hc'. lia.
Qed.

(** X11.  The two stacks exchange items without loss: FROMALTSTACK after a
    successful TOALTSTACK gives back the engine, and so does TOALTSTACK after
    a successful FROMALTSTACK; each fails exactly on an empty source stack,
    with a stack underflow. *)
Theorem altstack_roundtrip (op1 op2 : parsedOpcode) (vm vm1 : Engine T) :
  (opcodeToAltStack op1 vm = Ok vm1 -> opcodeFromAltStack op2 vm1 = Ok vm) /\
  (opcodeFromAltStack op1 vm = Ok vm1 -> opcodeToAltStack op2 vm1 = Ok vm) /\
  (stk (dstack vm) = [] <-> opcodeToAltStack op1 vm = Err ErrStackUnderflow) /\
  (stk (astack vm) = [] <-> opcodeFromAltStack op1 vm = Err ErrStackUnderflow).
Proof.
  unfold opcodeToAltStack, opcodeFromAltStack, PopByteArray, PushByteArray.
  destruct vm as [[ds dm] [als am] cs n fl t ti ia lc hc sc r].
  cbn [dstack astack stk verifyMinimalData set_dstack set_astack].
  repeat split.
  - destruct ds; cbn; [discriminate|]. intros [= <-]. reflexivity.
  - destruct als; cbn; [discriminate|]. intros [= <-]. reflexivity.
  - intros ->. reflexivity.
  - destruct ds; [reflexivity | discriminate].
  - intros ->. reflexivity.
  - destruct als; [reflexivity | discriminate].
Qed.

End FurtherConditionals.

Lemma opcodeNop_policy_witness :
  opcodeNop (mkParsedOpcode (opcodeArray OpNoOp4) [])
    (demoEngine [] [] [ScriptDiscourageUpgradableNops] 0 0) =
    Err ErrDiscourageUpgradableNOPs /\
  opcodeNop (mkParsedOpcode (opcodeArray OpNoOp4) []) (demoEngine [] [] [] 0 0) =
    Ok (demoEngine [] [] [] 0 0).
Proof.
  split.
  - exact (proj1 (proj2 (opcodeNop_policy OpNoOp4 []
             (demoEngine [] [] [ScriptDiscourageUpgradableNops] 0 0)))
             eq_refl eq_refl).
  - exact (proj1 (opcodeNop_policy OpNoOp4 [] (demoEngine [] [] [] 0 0)) eq_refl).
Defined.

Lemma popIfBool_minimal_witness :
  popIfBool (X := demoExternals) (demoEngine [[x02]] [] [] 0 0) =
    Ok (true, demoEngine [] [] [] 0 0).
Proof.
  exact (proj2 (popIfBool_minimal (X := demoExternals)
                  (demoEngine [[x02]] [] [] 0 0)) (or_intror eq_refl)).
Defined.

Lemma conditional_blocks_witness :
  opcodeEndif (mkParsedOpcode (opcodeArray OpEndIf) [])
    (demoEngine [] [OpCondTrue] [] 0 0) = Ok (demoEngine [] [] [] 0 0) /\
  opcodeElse (mkParsedOpcode (opcodeArray OpElse) [])
    (demoEngine [] [OpCondFalse] [] 0 0) = Ok (demoEngine [] [OpCondTrue] [] 0 0).
Proof.
  split.
  - exact (proj1 (proj1 (conditional_blocks (X := demoExternals)
             (mkParsedOpcode (opcodeArray OpIf) [])
             (mkParsedOpcode (opcodeArray OpEndIf) [])
             (demoEngine [[x01]] [] [] 0 0) (demoEngine [] [OpCondTrue] [] 0 0))
             (or_introl eq_refl))).
  - exact (proj1 (proj2 (conditional_blocks (X := demoExternals)
             (mkParsedOpcode (opcodeArray OpElse) [])
             (mkParsedOpcode (opcodeArray OpElse) [])
             (demoEngine [] [OpCondTrue] [] 0 0) (demoEngine [] [OpCondFalse] [] 0 0))
             eq_refl)).
Defined.

Lemma altstack_roundtrip_witness :
  opcodeFromAltStack (mkParsedOpcode (opcodeArray OpFromAltStack) [])
    (set_astack (demoEngine [] [] [] 0 0) (mkStack [[x07]] false)) =
    Ok (demoEngine [[x07]] [] [] 0 0).
Proof.
  exact (proj1 (altstack_roundtrip
                  (mkParsedOpcode (opcodeArray OpToAltStack) [])
                  (mkParsedOpcode (opcodeArray OpFromAltStack) [])
                  (demoEngine [[x07]] [] [] 0 0)
                  (set_astack (demoEngine [] [] [] 0 0) (mkStack [[x07]] false)))
           eq_refl).
Defined.

(** ** CHECKSEQUENCEVERIFY, the hash opcodes and the verify variants *)

Ltac case_result H :=
  repeat first
    [ discriminate H
    | progress cbn [mbind result_bind] in H
    | match type of H with
      | (?m ≫= _) = _ => destruct m as [?| | |] eqn:?
      | (match ?x with _ => _ end) = _ => destruct x eqn:?
      end ].

Section FurtherVerify.
Context {T : ExtTypes} {X : Externals T} {P : Primitives}.

(** The two tests of [verifyLockTime] as one condition. *)
Lemma verifyLockTime_decision (txLockTime threshold lockTime : Z) :
  verifyLockTime txLockTime threshold lockTime =
    if Bool.eqb (txLockTime <? threshold) (lockTime <? threshold) &&
       (lockTime <=? txLockTime)
    then Ok tt else Err ErrUnsatisfiedLockTime.
Proof.
  unfold verifyLockTime, scriptError.
  destruct (Z.ltb_spec txLockTime threshold);
    destruct (Z.ltb_spec lockTime threshold);
    destruct (Z.geb_spec txLockTime threshold);
    destruct (Z.geb_spec lockTime threshold);
    destruct (Z.gtb_spec lockTime txLockTime);
    destruct (Z.leb_spec lockTime txLockTime);
    cbn; try reflexivity; lia.
Qed.

(** X12.  CHECKSEQUENCEVERIFY.  Without its flag the opcode is an upgradable
    NOP.  With the flag it reads the top item as a number of at most 5 bytes
    without popping it: a negative number is the negative-locktime error; a
    number with the disable bit is accepted as it is; otherwise the
    transaction needs version 2 or more, the sequence of the input must not
    have the disable bit, and the two masked values must be of the same kind
    (blocks or seconds) with the operand not beyond the sequence of the
    input.  The opcode never changes the engine. *)
Theorem checkSequenceVerify_spec (op : parsedOpcode) (vm : Engine T) :
  let mask := Z.lor SequenceLockTimeIsSeconds SequenceLockTimeMask in
  (hasFlag vm ScriptVerifyCheckSequenceVerify = false ->
   opcodeCheckSequenceVerify op vm =
     if hasFlag vm ScriptDiscourageUpgradableNops
     then Err ErrDiscourageUpgradableNOPs else Ok vm) /\
  (forall so below sequence,
     hasFlag vm ScriptVerifyCheckSequenceVerify = true ->
     stk (dstack vm) = so :: below ->
     makeScriptNum so (verifyMinimalData (dstack vm)) 5 = Ok sequence ->
     (sequence < 0 -> opcodeCheckSequenceVerify op vm = Err ErrNegativeLockTime) /\
     (0 <= sequence -> Z.land sequence SequenceLockTimeDisabled <> 0 ->
        opcodeCheckSequenceVerify op vm = Ok vm) /\
     (0 <= sequence -> Z.land sequence SequenceLockTimeDisabled = 0 ->
        Version (tx vm) < 2 ->
        opcodeCheckSequenceVerify op vm = Err ErrUnsatisfiedLockTime) /\
     (forall txin,
        0 <= sequence -> Z.land sequence SequenceLockTimeDisabled = 0 ->
        2 <= Version (tx vm) ->
        indexZ (TxInputs (tx vm)) (txIdx vm) = Some txin ->
        opcodeCheckSequenceVerify op vm =
          if (Z.land (Sequence txin) SequenceLockTimeDisabled =? 0) &&
             Bool.eqb (Z.land (Sequence txin) mask <? SequenceLockTimeIsSeconds)
                      (Z.land sequence mask <? SequenceLockTimeIsSeconds) &&
             (Z.land sequence mask <=? Z.land (Sequence txin) mask)
          then Ok vm else Err ErrUnsatisfiedLockTime)) /\
  (forall vm', opcodeCheckSequenceVerify op vm = Ok vm' -> vm' = vm).
Proof.
  cbv zeta. split; [|split].
  - intros Hf. unfold opcodeCheckSequenceVerify. rewrite Hf. reflexivity.
  - intros so below sequence Hf Hstk Hnum.
    assert (Hpeek : PeekByteArray (dstack vm) 0 = Ok so).
    { unfold PeekByteArray, indexZ. rewrite Hstk. reflexivity. }
    unfold opcodeCheckSequenceVerify. rewrite Hf, Hpeek.
    cbn [negb mbind result_bind]. rewrite Hnum. cbn [mbind result_bind].
    unfold scriptError. repeat split.
    + intros Hneg. destruct (Z.ltb_spec sequence 0); [reflexivity | lia].
    + intros Hpos Hdis. destruct (Z.ltb_spec sequence 0); [lia|].
      destruct (Z.eqb_spec (Z.land sequence SequenceLockTimeDisabled) 0);
        [contradiction | reflexivity].
    + intros Hpos Hdis Hver. destruct (Z.ltb_spec sequence 0); [lia|].
      rewrite Hdis. cbn [Z.eqb negb].
      destruct (Z.ltb_spec (Version (tx vm)) 2); [reflexivity | lia].
    + intros txin Hpos Hdis Hver Hin. destruct (Z.ltb_spec sequence 0); [lia|].
      rewrite Hdis. cbn [Z.eqb negb].
      destruct (Z.ltb_spec (Version (tx vm)) 2); [lia|].
      rewrite Hin.
      destruct (Z.land (Sequence txin) SequenceLockTimeDisabled =? 0);
        cbn [negb andb]; [|reflexivity].
      rewrite verifyLockTime_decision.
      match goal with |- context [Bool.eqb ?a ?b && ?c] =>
        destruct (Bool.eqb a b && c) end; reflexivity.
  - intros vm' H. unfold opcodeCheckSequenceVerify, scriptError in H.
    destruct (hasFlag vm ScriptVerifyCheckSequenceVerify); cbn [negb] in H.
    + destruct (PeekByteArray (dstack vm) 0) as [so| | |]; try discriminate H.
      cbn [mbind result_bind] in H.
      destruct (makeScriptNum so (verifyMinimalData (dstack vm)) 5)
        as [sequence| | |]; try discriminate H.
      cbn [mbind result_bind] in H.
      destruct (sequence <? 0); [discriminate H|].
      destruct (negb (Z.land sequence SequenceLockTimeDisabled =? 0));
        [congruence|].
      destruct (Version (tx vm) <? 2); [discriminate H|].
      destruct (indexZ (TxInputs (tx vm)) (txIdx vm)) as [txin|];
        [|discriminate H].
      destruct (negb (Z.land (Sequence txin) SequenceLockTimeDisabled =? 0));
        [discriminate H|].
      rewrite verifyLockTime_decision in H.
      match type of H with
      | context [if ?c then Ok tt else _] => destruct c
      end; cbn [mbind result_bind] in H; congruence.
    + destruct (hasFlag vm ScriptDiscourageUpgradableNops); congruence.
Qed.

(** X13.  HASH160 is SHA256 followed by RIPEMD160: the handler gives the
    result of running the two single hash handlers one after the other, also
    when the stack is empty. *)
Theorem hash160_composition (op : parsedOpcode) (vm : Engine T) :
  opcodeHash160 op vm = (vm1 ← opcodeSha256 op vm; opcodeRipemd160 op vm1).
Proof.
  unfold opcodeHash160, opcodeSha256, opcodeRipemd160, PopByteArray.
  destruct (stk (dstack vm)); reflexivity.
Qed.

(** X14.  The signature cache is transparent for a cache that only holds
    valid entries.  With a cache the result is "cached or verified"; without
    one it is the verification.  A cached entry is believed without
    verifying; the cache changes only by the added entry, and only when the
    signature was not cached and verifies; nothing else of the engine
    changes.  The cache key is always 32 bytes long. *)
Theorem verifySignature_cache (vm : Engine T) (hash : byteSlice)
    (sig : Signature) (pubKey : PublicKey) :
  let r := verifySignature vm hash sig pubKey in
  length (copyHash hash) = 32%nat /\
  (sigCache vm = None -> r = (Verify sig hash pubKey, vm)) /\
  (forall cache, sigCache vm = Some cache ->
     let cached := SigCache_Exists cache (copyHash hash) sig pubKey in
     r.1 = cached || Verify sig hash pubKey /\
     (cached = true -> r = (true, vm)) /\
     (Verify sig hash pubKey = false -> r = (cached, vm)) /\
     (cached = false -> Verify sig hash pubKey = true ->
        r = (true, set_sigCache vm
                     (Some (SigCache_Add cache (copyHash hash) sig pubKey)))) /\
     ((cached = true -> Verify sig hash pubKey = true) ->
        r.1 = Verify sig hash pubKey)) /\
  r.2 = set_sigCache vm (sigCache r.2).
Proof.
  cbv zeta. split; [|split; [|split]].
  - unfold copyHash. rewrite length_app, length_take, length_replicate. lia.
  - intros H. unfold verifySignature. rewrite H. reflexivity.
  - intros cache H. unfold verifySignature. rewrite H.
    destruct (SigCache_Exists cache (copyHash hash) sig pubKey);
      destruct (Verify sig hash pubKey); cbn; repeat split; intros;
      try reflexivity; try discriminate;
      match goal with
      | H : true = true -> _ |- _ => specialize (H eq_refl); discriminate H
      end.
  - destruct (verifySignature vm hash sig pubKey) as [valid vm'] eqn:E.
    exact (verifySignature_frame _ _ _ _ _ _ E).
Qed.

Lemma abstractVerify_top (op : parsedOpcode) (vm : Engine T) (c : ErrorCode)
    (b : bool) (below : list byteSlice) :
  asBool (fromBool b) = b ->
  stk (dstack vm) = fromBool b :: below ->
  abstractVerify op vm c =
    if b then Ok (set_dstack vm (mkStack below (verifyMinimalData (dstack vm))))
    else Err c.
Proof.
  intros Hb Hstk. unfold abstractVerify, PopBool, PopByteArray.
  rewrite Hstk. cbn [mbind result_bind]. cbv beta iota. rewrite Hb.
  destruct b; reflexivity.
Qed.

Lemma opcodeCheckSig_pushes_bool (op : parsedOpcode) (vm vm1 : Engine T) :
  opcodeCheckSig op vm = Ok vm1 ->
  exists valid s, dstack vm1 = PushBool s valid.
Proof.
  intros H. unfold opcodeCheckSig, scriptError in H.
  case_result H; injection H as <-; cbn [dstack set_dstack]; eauto.
Qed.

(** X15.  CHECKSIGVERIFY is CHECKSIG followed by a verify.  When the booleans
    round-trip through their stack encoding, CHECKSIG leaves a boolean on
    top; CHECKSIGVERIFY then succeeds exactly when that boolean is true,
    removing it, and gives the checksigverify error when it is false.  An
    error of CHECKSIG is passed on unchanged. *)
Theorem checkSigVerify_composition (op : parsedOpcode) (vm : Engine T) :
  (forall b, asBool (fromBool b) = b) ->
  (forall vm1, opcodeCheckSig op vm = Ok vm1 ->
     exists valid below,
       stk (dstack vm1) = fromBool valid :: below /\
       opcodeCheckSigVerify op vm =
         if valid : bool
         then Ok (set_dstack vm1 (mkStack below (verifyMinimalData (dstack vm1))))
         else Err ErrCheckSigVerify) /\
  (forall e, opcodeCheckSig op vm = Err e -> opcodeCheckSigVerify op vm = Err e).
Proof.
  intros Hb. split.
  - intros vm1 H. destruct (opcodeCheckSig_pushes_bool op vm vm1 H) as (valid & s & Hs).
    exists valid, (stk s).
    assert (Hstk : stk (dstack vm1) = fromBool valid :: stk s) by (by rewrite Hs).
    split; [exact Hstk|].
    unfold opcodeCheckSigVerify. rewrite H. cbn [mbind result_bind].
    exact (abstractVerify_top op vm1 ErrCheckSigVerify valid (stk s) (Hb valid) Hstk).
  - intros e H. unfold opcodeCheckSigVerify. rewrite H. reflexivity.
Qed.

(** X16.  CHECKMULTISIGVERIFY is CHECKMULTISIG followed by a verify.  When
    the booleans round-trip through their stack encoding, CHECKMULTISIG
    leaves a boolean on top; CHECKMULTISIGVERIFY succeeds exactly when it is
    true, removing it, and gives the checkmultisigverify error when it is
    false.  An error of CHECKMULTISIG is passed on unchanged. *)
Theorem checkMultiSigVerify_composition (op : parsedOpcode) (vm : Engine T) :
  (forall b, asBool (fromBool b) = b) ->
  (forall vm1, opcodeCheckMultiSig op vm = Ok vm1 ->
     exists success below,
       stk (dstack vm1) = fromBool success :: below /\
       opcodeCheckMultiSigVerify op vm =
         if success : bool
         then Ok (set_dstack vm1 (mkStack below (verifyMinimalData (dstack vm1))))
         else Err ErrCheckMultiSigVerify) /\
  (forall e, opcodeCheckMultiSig op vm = Err e ->
     opcodeCheckMultiSigVerify op vm = Err e).
Proof.
  intros Hb. split.
  - intros vm1 H.
    assert (Hex : exists success below, stk (dstack vm1) = fromBool success :: below).
    { unfold opcodeCheckMultiSig in H.
      destruct (multisigPopArgs vm) as [[[[[nP pubKeys] nS] sigInfos] vm0]| | |];
        try discriminate H.
      cbn [mbind result_bind] in H. cbv beta iota in H.
      destruct (PopByteArray (dstack vm0)) as [[dummy s]| | |]; try discriminate H.
      cbn [mbind result_bind] in H. cbv beta iota zeta in H.
      match type of H with
      | (if ?c then _ else _) = _ => destruct c; [discriminate H|]
      end.
      destruct (multisigVerify_stack _ _ _ _ _ _ H) as (success & Hs). eauto. }
    destruct Hex as (success & below & Hstk). exists success, below.
    split; [exact Hstk|].
    unfold opcodeCheckMultiSigVerify. rewrite H. cbn [mbind result_bind].
    exact (abstractVerify_top op vm1 ErrCheckMultiSigVerify success below
             (Hb success) Hstk).
  - intros e H. unfold opcodeCheckMultiSigVerify. rewrite H. reflexivity.
Qed.

End FurtherVerify.

Lemma checkSequenceVerify_spec_witness :
  let op := mkParsedOpcode (opcodeArray OpCheckSequenceVerify) [] in
  (* a relative lock on a version 1 transaction *)
  opcodeCheckSequenceVerify (X := demoExternals) (P := demoPrimitives) op
    (demoEngine [[x05]] [] [ScriptVerifyCheckSequenceVerify] 0 0)
    = Err ErrUnsatisfiedLockTime /\
  (* an operand with the disable bit *)
  opcodeCheckSequenceVerify (X := demoExternals) (P := demoPrimitives) op
    (demoEngine [[x00; x00; x00; x80; x00]] [] [ScriptVerifyCheckSequenceVerify] 0 0)
    = Ok (demoEngine [[x00; x00; x00; x80; x00]] [] [ScriptVerifyCheckSequenceVerify] 0 0).
Proof.
  intros op. split.
  - refine (proj1 (proj2 (proj2 (proj1 (proj2
      (checkSequenceVerify_spec (X := demoExternals) (P := demoPrimitives) op
         (demoEngine [[x05]] [] [ScriptVerifyCheckSequenceVerify] 0 0)))
      [x05] [] 5 eq_refl eq_refl eq_refl))) _ eq_refl _);
      [discriminate | reflexivity].
  - refine (proj1 (proj2 (proj1 (proj2
      (checkSequenceVerify_spec (X := demoExternals) (P := demoPrimitives) op
         (demoEngine [[x00; x00; x00; x80; x00]] [] [ScriptVerifyCheckSequenceVerify] 0 0)))
      [x00; x00; x00; x80; x00] [] 2147483648 eq_refl eq_refl eq_refl)) _ _);
      discriminate.
Defined.

Lemma verifySignature_cache_witness :
  verifySignature (X := demoExternals) (demoEngine [] [] [] 0 0) [x01] [x0a] [x0a] =
    (true, demoEngine [] [] [] 0 0).
Proof.
  exact (proj1 (proj2 (verifySignature_cache (X := demoExternals)
                         (demoEngine [] [] [] 0 0) [x01] [x0a] [x0a])) eq_refl).
Defined.

Lemma checkSigVerify_composition_witness :
  opcodeCheckSigVerify (X := demoExternals)
    (mkParsedOpcode (opcodeArray OpCheckSigVerify) [])
    (demoEngine [[x02; x0a]; [x02; x0a; x01]] [] [] 0 0) =
    Ok (demoEngine [] [] [] 0 0).
Proof.
  destruct (proj1 (checkSigVerify_composition (X := demoExternals)
                     (mkParsedOpcode (opcodeArray OpCheckSigVerify) [])
                     (demoEngine [[x02; x0a]; [x02; x0a; x01]] [] [] 0 0)
                     (fun b : bool => if b as b0 return
                        (asBool (Externals := demoExternals)
                           (fromBool (Externals := demoExternals) b0) = b0)
                      then eq_refl else eq_refl))
              (demoEngine [[x01]] [] [] 0 0) eq_refl)
    as (valid & below & Hstk & Heq).
  rewrite Heq. destruct valid; [|discriminate Hstk].
  injection Hstk as <-. reflexivity.
Defined.

Lemma checkMultiSigVerify_composition_witness :
  opcodeCheckMultiSigVerify (X := demoExternals)
    (mkParsedOpcode (opcodeArray OpCheckMultiSigVerify) [])
    (demoEngine [[x02]; [x02; x0a]; [x02; x0b]; [x01]; [x02; x0b; x01]; []; [x07]]
       [] [] 0 0) =
    Ok (set_numOps (demoEngine [[x07]] [] [] 0 0) 2).
Proof.
  destruct (proj1 (checkMultiSigVerify_composition (X := demoExternals)
                     (mkParsedOpcode (opcodeArray OpCheckMultiSigVerify) [])
                     (demoEngine
                        [[x02]; [x02; x0a]; [x02; x0b]; [x01]; [x02; x0b; x01]; []; [x07]]
                        [] [] 0 0)
                     (fun b : bool => if b as b0 return
                        (asBool (Externals := demoExternals)
                           (fromBool (Externals := demoExternals) b0) = b0)
                      then eq_refl else eq_refl))
              (set_numOps (demoEngine [[x01]; [x07]] [] [] 0 0) 2) eq_refl)
    as (success & below & Hstk & Heq).
  rewrite Heq. destruct success; [|discriminate Hstk].
  injection Hstk as <-. reflexivity.
Defined.

(** ** The numeric opcodes and the stack effect of the handlers *)

Section FurtherNumeric.
Context {T : ExtTypes} {X : Externals T} {P : Primitives}.

Lemma int64_small (x : Z) : - 2 ^ 63 <= x < 2 ^ 63 -> int64 x = x.
Proof. intros H. unfold int64. rewrite Z.mod_small; lia. Qed.

Lemma PopByteArray_inv (s s' : stack) (so : byteSlice) :
  PopByteArray s = Ok (so, s') ->
  stk s = so :: stk s' /\ verifyMinimalData s' = verifyMinimalData s.
Proof.
  unfold PopByteArray. destruct (stk s); [discriminate|].
  intros [= <- <-]. done.
Qed.

Lemma PeekByteArray_top (s : stack) (so : byteSlice) :
  PeekByteArray s 0 = Ok so -> exists below, stk s = so :: below.
Proof.
  unfold PeekByteArray, indexZ. cbn.
  destruct (stk s) as [|x below]; [discriminate|]. intros [= <-]. eauto.
Qed.

Ltac two_operands Ha Hb :=
  rewrite Ha; cbn [mbind result_bind]; cbv beta iota;
  rewrite Hb; cbn [mbind result_bind]; cbv beta iota.

Lemma unparsed_sigInfos (sigs : list byteSlice) :
  Forall (fun si : parsedSigInfo => parsed si = false /\ parsedSignature si = None)
         (map (fun sig => mkParsedSigInfo sig None false) sigs).
Proof. induction sigs; cbn [map]; constructor; done. Qed.

(** X17.  The argument phase of CHECKMULTISIG.  When it succeeds, the number
    of signatures is between 0 and the number of public keys, which is at
    most the maximum; as many keys and signatures were popped; the operation
    count grew by the number of keys and is within its limit; and no
    signature is marked as parsed.  A key count that is out of range is the
    invalid-pubkey-count error, also when the operation count would be
    exceeded; a key count in range that exceeds the operation limit is the
    too-many-operations error. *)
Theorem multisig_argument_bounds (vm : Engine T) :
  (forall nP pubKeys nS sigInfos vm1,
     multisigPopArgs vm = Ok (nP, pubKeys, nS, sigInfos, vm1) ->
     0 <= nS <= nP /\ nP <= MaxPubKeysPerMultiSig /\
     len pubKeys = nP /\ len sigInfos = nS /\
     numOps vm1 = numOps vm + nP /\ numOps vm1 <= MaxOpsPerScript /\
     Forall (fun si => parsed si = false /\ parsedSignature si = None) sigInfos) /\
  (forall numKeys s,
     PopInt (dstack vm) = Ok (numKeys, s) ->
     (scriptNum_Int32 numKeys < 0 \/
      MaxPubKeysPerMultiSig < scriptNum_Int32 numKeys ->
      multisigPopArgs vm = Err ErrInvalidPubKeyCount) /\
     (0 <= scriptNum_Int32 numKeys <= MaxPubKeysPerMultiSig ->
      MaxOpsPerScript < numOps vm + scriptNum_Int32 numKeys ->
      multisigPopArgs vm = Err ErrTooManyOperations)).
Proof.
  split.
  - intros nP pubKeys nS sigInfos vm1 H.
    destruct (multisigPopArgs_inv _ _ _ _ _ _ H) as (_ & Hp & Hs & Hn & Hvm).
    assert (Hops : numOps vm1 = numOps vm + nP) by (rewrite Hvm; reflexivity).
    split; [exact Hn|]. rewrite Hops.
    unfold multisigPopArgs, scriptError in H.
    destruct (PopInt (dstack vm)) as [[numKeys s]| | |]; try discriminate H.
    cbn [mbind result_bind] in H. cbv beta iota zeta in H.
    destruct (Z.ltb_spec (scriptNum_Int32 numKeys) 0); [discriminate H|].
    destruct (Z.gtb_spec (scriptNum_Int32 numKeys) MaxPubKeysPerMultiSig);
      [discriminate H|].
    cbn [numOps set_numOps set_dstack] in H.
    destruct (Z.gtb_spec (numOps vm + scriptNum_Int32 numKeys) MaxOpsPerScript);
      [discriminate H|].
    case_result H. injection H as <- <- <- <- <-.
    repeat split; try lia; try done.
    apply unparsed_sigInfos.
  - intros numKeys s Hpop. unfold multisigPopArgs, scriptError. rewrite Hpop.
    cbn [mbind result_bind]. cbv beta iota zeta. split.
    + intros Hr. destruct (Z.ltb_spec (scriptNum_Int32 numKeys) 0); [reflexivity|].
      destruct (Z.gtb_spec (scriptNum_Int32 numKeys) MaxPubKeysPerMultiSig);
        [reflexivity | lia].
    + intros Hr Hops. destruct (Z.ltb_spec (scriptNum_Int32 numKeys) 0); [lia|].
      destruct (Z.gtb_spec (scriptNum_Int32 numKeys) MaxPubKeysPerMultiSig); [lia|].
      cbn [numOps set_numOps set_dstack].
      destruct (Z.gtb_spec (numOps vm + scriptNum_Int32 numKeys) MaxOpsPerScript);
        [reflexivity | lia].
Qed.

Ltac complement_pair vm :=
  unfold complementary; split;
  [ intros e;
    destruct (PopInt (dstack vm)) as [[v0 s]| | |]; cbn [mbind result_bind];
    cbv beta iota; try tauto;
    try (match goal with |- context [PopInt s] => idtac end;
         destruct (PopInt s) as [[v1 s']| | |]; cbn [mbind result_bind];
         cbv beta iota; try tauto);
    repeat match goal with
    | |- context [if ?c then _ else _] => destruct c
    end; split; discriminate
  | intros vm1;
    destruct (PopInt (dstack vm)) as [[v0 s]| | |]; cbn [mbind result_bind];
    cbv beta iota; try discriminate;
    try (match goal with |- context [PopInt s] => idtac end;
         destruct (PopInt s) as [[v1 s']| | |]; cbn [mbind result_bind];
         cbv beta iota; try discriminate) ].

(** X18.  The comparisons come in complementary pairs: LESSTHAN and
    GREATERTHANOREQUAL, GREATERTHAN and LESSTHANOREQUAL, NUMEQUAL and
    NUMNOTEQUAL, NOT and 0NOTEQUAL fail with the same errors, and where they
    succeed they leave the same stack except that one pushes 1 where the
    other pushes 0. *)
Theorem comparison_complements (op : parsedOpcode) (vm : Engine T) :
  complementary (opcodeLessThan op) (opcodeGreaterThanOrEqual op) vm /\
  complementary (opcodeGreaterThan op) (opcodeLessThanOrEqual op) vm /\
  complementary (opcodeNumEqual op) (opcodeNumNotEqual op) vm /\
  complementary (opcodeNot op) (opcode0NotEqual op) vm.
Proof.
  unfold opcodeLessThan, opcodeGreaterThanOrEqual, opcodeGreaterThan,
    opcodeLessThanOrEqual, opcodeNumEqual, opcodeNumNotEqual, opcodeNot,
    opcode0NotEqual.
  split; [|split; [|split]].
  - complement_pair vm.
    destruct (Z.ltb_spec v1 v0); destruct (Z.geb_spec v1 v0); try lia;
      intros [= <-]; eexists _, _; (split; [|split; reflexivity]); auto.
  - complement_pair vm.
    destruct (Z.gtb_spec v1 v0); destruct (Z.leb_spec v1 v0); try lia;
      intros [= <-]; eexists _, _; (split; [|split; reflexivity]); auto.
  - complement_pair vm.
    destruct (v0 =? v1); cbn [negb];
      intros [= <-]; eexists _, _; (split; [|split; reflexivity]); auto.
  - complement_pair vm.
    destruct (Z.eqb_spec v0 0) as [->|]; cbn [negb];
      intros [= <-]; eexists _, _; (split; [|split; reflexivity]); auto.
Qed.

(** X19.  The arithmetic opcodes on operands of the 4-byte range.  With [a]
    on top of the stack and [b] below it, ADD gives [b + a] and SUB gives
    [b - a], the top item subtracted from the one below; 1ADD, 1SUB, NEGATE
    and ABS give [a + 1], [a - 1], [- a] and the absolute value of [a].  The
    64-bit wrap-around of the result never shows on such operands. *)
Theorem arithmetic_exact (op : parsedOpcode) (vm : Engine T)
    (a b : Z) (s1 s2 : stack) :
  PopInt (dstack vm) = Ok (a, s1) -> PopInt s1 = Ok (b, s2) ->
  - 2 ^ 31 < a < 2 ^ 31 -> - 2 ^ 31 < b < 2 ^ 31 ->
  opcodeAdd op vm = Ok (set_dstack vm (PushInt s2 (b + a))) /\
  opcodeSub op vm = Ok (set_dstack vm (PushInt s2 (b - a))) /\
  opcode1Add op vm = Ok (set_dstack vm (PushInt s1 (a + 1))) /\
  opcode1Sub op vm = Ok (set_dstack vm (PushInt s1 (a - 1))) /\
  opcodeNegate op vm = Ok (set_dstack vm (PushInt s1 (- a))) /\
  opcodeAbs op vm = Ok (set_dstack vm (PushInt s1 (Z.abs a))).
Proof.
  intros Ha Hb Ra Rb.
  unfold opcodeAdd, opcodeSub, opcode1Add, opcode1Sub, opcodeNegate, opcodeAbs.
  rewrite Ha. cbn [mbind result_bind]. cbv beta iota. rewrite Hb.
  cbn [mbind result_bind]. cbv beta iota zeta.
  rewrite !int64_small by lia.
  repeat split; try (do 3 f_equal; lia).
  destruct (Z.ltb_spec a 0); do 3 f_equal; lia.
Qed.

(** X20.  MIN and MAX give the smaller and the larger of the top two numbers,
    so always one of the two.  WITHIN tests the third item from the top
    against the half-open range from the second item (included) to the top
    item (excluded), and an empty range contains nothing. *)
Theorem min_max_within (op : parsedOpcode) (vm : Engine T)
    (a b : Z) (s1 s2 : stack) :
  PopInt (dstack vm) = Ok (a, s1) -> PopInt s1 = Ok (b, s2) ->
  opcodeMin op vm = Ok (set_dstack vm (PushInt s2 (Z.min b a))) /\
  opcodeMax op vm = Ok (set_dstack vm (PushInt s2 (Z.max b a))) /\
  (forall x s3, PopInt s2 = Ok (x, s3) ->
     opcodeWithin op vm =
       Ok (set_dstack vm (PushInt s3 (if bool_decide (b <= x < a) then 1 else 0))) /\
     (a <= b -> opcodeWithin op vm = Ok (set_dstack vm (PushInt s3 0)))).
Proof.
  intros Ha Hb. unfold opcodeMin, opcodeMax, opcodeWithin.
  two_operands Ha Hb. repeat split.
  - destruct (Z.ltb_spec b a); do 3 f_equal; lia.
  - destruct (Z.gtb_spec b a); do 3 f_equal; lia.
  - rewrite H. cbn [mbind result_bind]. cbv beta iota.
    destruct (Z.geb_spec x b); destruct (Z.ltb_spec x a); cbn [andb];
      [rewrite bool_decide_true by lia | rewrite bool_decide_false by lia ..];
      reflexivity.
  - intros Hab. rewrite H. cbn [mbind result_bind]. cbv beta iota.
    destruct (Z.geb_spec x b); destruct (Z.ltb_spec x a); cbn [andb];
      try reflexivity; lia.
Qed.

End FurtherNumeric.

(** ** The stack effect of the handlers *)

Section StackEffects.
Context {T : ExtTypes} {X : Externals T} {P : Primitives}.

Lemma PopBool_inv (s s' : stack) (b : bool) :
  PopBool s = Ok (b, s') ->
  exists so, stk s = so :: stk s' /\ verifyMinimalData s' = verifyMinimalData s.
Proof.
  unfold PopBool, PopByteArray. destruct (stk s) as [|so below]; [discriminate|].
  intros [= <- <-]. eauto.
Qed.

Lemma PeekByteArray_depth (s : stack) (so : byteSlice) :
  PeekByteArray s 0 = Ok so -> 1 <= len (stk s).
Proof.
  intros (below & ->)%PeekByteArray_top. rewrite len_cons.
  pose proof (len_nonneg below). lia.
Qed.

Ltac stack_facts :=
  repeat match goal with
  | H : PopBool _ = Ok (_, _) |- _ =>
      apply PopBool_inv in H as (? & ?%(f_equal len) & ?)
  | H : PopInt _ = Ok (_, _) |- _ =>
      apply PopInt_inv in H as (? & ?%(f_equal len) & ?)
  | H : PopByteArray _ = Ok (_, _) |- _ =>
      apply PopByteArray_inv in H as [?%(f_equal len) ?]
  | H : PeekByteArray _ 0 = Ok _ |- _ => apply PeekByteArray_depth in H
  end;
  repeat match goal with
  | H : len (stk _) = len (_ :: _) |- _ => rewrite len_cons in H
  end.

Ltac stack_effect H :=
  unfold opcode1Add, opcode1Sub, opcodeNegate, opcodeAbs, opcodeNot,
    opcode0NotEqual, opcodeRipemd160, opcodeSha1, opcodeSha256, opcodeHash160,
    opcodeHash256, opcodeEqual, opcodeAdd, opcodeSub, opcodeBoolAnd,
    opcodeBoolOr, opcodeNumEqual, opcodeNumNotEqual, opcodeLessThan,
    opcodeGreaterThan, opcodeLessThanOrEqual, opcodeGreaterThanOrEqual,
    opcodeMin, opcodeMax, opcodeWithin, opcodeFalse, opcodePushData,
    opcode1Negate, opcodeN, opcodeDepth, opcodeSize, opcodeIfDup, opcodeVerify,
    abstractVerify, scriptError in H;
  case_result H; injection H as <-; stack_facts;
  unfold Depth, PushInt, PushBool, PushByteArray in *;
  cbn [dstack set_dstack stk verifyMinimalData] in *;
  rewrite ?len_cons.

(** X21.  The handlers keep to their declared stack transformation.  On
    success a unary handler leaves the depth of the data stack as it is, a
    binary one lowers it by one, WITHIN by two and VERIFY by one, a pushing
    one raises it by one, and IFDUP raises it by one or leaves the engine as
    it is; each needs as many items as it reads.  None of them touches
    anything of the engine but the data stack, and the minimal-encoding flag
    of the stack stays. *)
Theorem stack_effects (f : parsedOpcode -> Engine T -> result (Engine T))
    (op : parsedOpcode) (vm vm1 : Engine T) :
  f op vm = Ok vm1 ->
  (f ∈ unaryHandlers ->
     Depth (dstack vm1) = Depth (dstack vm) /\ 1 <= Depth (dstack vm)) /\
  (f ∈ binaryHandlers ->
     Depth (dstack vm1) = Depth (dstack vm) - 1 /\ 2 <= Depth (dstack vm)) /\
  (f = opcodeWithin ->
     Depth (dstack vm1) = Depth (dstack vm) - 2 /\ 3 <= Depth (dstack vm)) /\
  (f = opcodeVerify ->
     Depth (dstack vm1) = Depth (dstack vm) - 1 /\ 1 <= Depth (dstack vm)) /\
  (f ∈ pushHandlers -> Depth (dstack vm1) = Depth (dstack vm) + 1) /\
  (f = opcodeIfDup ->
     1 <= Depth (dstack vm) /\
     (vm1 = vm \/ Depth (dstack vm1) = Depth (dstack vm) + 1)) /\
  (f ∈ unaryHandlers ++ binaryHandlers ++ pushHandlers ++
       [opcodeWithin; opcodeVerify; opcodeIfDup] ->
     vm1 = set_dstack vm (dstack vm1) /\
     verifyMinimalData (dstack vm1) = verifyMinimalData (dstack vm)).
Proof.
  intros H. unfold unaryHandlers, binaryHandlers, pushHandlers.
  pose proof (fun l : list byteSlice => len_nonneg l) as Hnn.
  repeat match goal with |- _ /\ _ => split end;
    cbn [app]; intros Hf; rewrite ?elem_of_cons, ?elem_of_nil in Hf;
    repeat match type of Hf with
    | _ \/ _ => destruct Hf as [Hf | Hf]
    | False => destruct Hf
    end; subst f; stack_effect H;
    repeat match goal with
    | |- context [len (stk ?s)] =>
        lazymatch goal with
        | _ : 0 <= len (stk s) |- _ => fail
        | _ => pose proof (Hnn (stk s))
        end
    end;
    repeat match goal with |- _ /\ _ => split end;
    try lia; try congruence; try reflexivity;
    try (destruct vm; reflexivity); auto.
Qed.

End StackEffects.

Lemma opcode_classes_witness :
  opfunc (opcodeArray OpVerIf) = fn_opcodeReserved.
Proof.
  exact (proj1 (proj2 (proj2 (opcode_classes OpVerIf []))) eq_refl).
Defined.

Lemma OpcodeByName_lookup_witness :
  nameTableEntry "OpTrue" Op1.
Proof.
  exact (proj1 (proj2 (proj2 (proj2 (proj2 (proj2 OpcodeByName_lookup)))))
           "OpTrue"%string Op1 ltac:(vm_compute; reflexivity)).
Defined.

Lemma multisig_argument_bounds_witness :
  0 <= 1 <= 2 /\ 2 <= MaxPubKeysPerMultiSig (Externals := demoExternals).
Proof.
  pose (vm0 := demoEngine
         [[x02]; [x02; x0a]; [x02; x0b]; [x01]; [x02; x0b; x01]; []; [x07]] [] [] 0 0).
  destruct (proj1 (multisig_argument_bounds (X := demoExternals) vm0)
              2 [[x02; x0a]; [x02; x0b]] 1
              [mkParsedSigInfo (T := demoTypes) [x02; x0b; x01] None false]
              (set_dstack (set_numOps vm0 2) (mkStack [[]; [x07]] false)) eq_refl)
    as (H1 & H2 & _).
  exact (conj H1 H2).
Defined.

Lemma comparison_complements_witness :
  opcodeGreaterThanOrEqual (X := demoExternals) (P := demoPrimitives)
    (mkParsedOpcode (opcodeArray OpGreaterThanOrEqual) [])
    (demoEngine [[x03]; [x05]] [] [] 0 0) =
    Ok (demoEngine [[x01]] [] [] 0 0).
Proof.
  destruct (proj2 (proj1 (comparison_complements (X := demoExternals)
                            (P := demoPrimitives)
                            (mkParsedOpcode (opcodeArray OpGreaterThanOrEqual) [])
                            (demoEngine [[x03]; [x05]] [] [] 0 0)))
              (demoEngine [[]] [] [] 0 0) eq_refl)
    as (s & r & Hr & Hvm & Hg).
  rewrite Hg. destruct s as [items fl].
  destruct Hr as [-> | ->]; vm_compute in Hvm; [|discriminate Hvm].
  injection Hvm as <- <-. reflexivity.
Defined.

Lemma arithmetic_exact_witness :
  opcodeSub (X := demoExternals) (P := demoPrimitives)
    (mkParsedOpcode (opcodeArray OpSub) []) (demoEngine [[x03]; [x05]] [] [] 0 0) =
    Ok (demoEngine [[x02]] [] [] 0 0).
Proof.
  exact (proj1 (proj2 (arithmetic_exact (X := demoExternals) (P := demoPrimitives)
           (mkParsedOpcode (opcodeArray OpSub) []) (demoEngine [[x03]; [x05]] [] [] 0 0)
           3 5 (mkStack [[x05]] false) (mkStack [] false) eq_refl eq_refl
           (conj eq_refl eq_refl) (conj eq_refl eq_refl)))).
Defined.

Lemma min_max_within_witness :
  opcodeMin (X := demoExternals) (P := demoPrimitives)
    (mkParsedOpcode (opcodeArray OpMin) []) (demoEngine [[x03]; [x05]] [] [] 0 0) =
    Ok (demoEngine [[x03]] [] [] 0 0).
Proof.
  exact (proj1 (min_max_within (X := demoExternals) (P := demoPrimitives)
           (mkParsedOpcode (opcodeArray OpMin) []) (demoEngine [[x03]; [x05]] [] [] 0 0)
           3 5 (mkStack [[x05]] false) (mkStack [] false) eq_refl eq_refl)).
Defined.

Lemma stack_effects_witness :
  Depth (dstack (demoEngine [[x02]] [] [] 0 0)) =
  Depth (dstack (demoEngine [[x03]; [x05]] [] [] 0 0)) - 1.
Proof.
  assert (Hin : opcodeSub (X := demoExternals) (P := demoPrimitives) ∈
                binaryHandlers (X := demoExternals) (P := demoPrimitives)).
  { unfold binaryHandlers. do 2 apply list_elem_of_further.
    apply list_elem_of_here. }
  assert (Hrun : opcodeSub (X := demoExternals) (P := demoPrimitives)
                   (mkParsedOpcode (opcodeArray OpSub) [])
                   (demoEngine [[x03]; [x05]] [] [] 0 0) =
                 Ok (demoEngine [[x02]] [] [] 0 0)).
  { vm_compute. reflexivity. }
  pose proof (stack_effects (X := demoExternals) (P := demoPrimitives)
                opcodeSub (mkParsedOpcode (opcodeArray OpSub) [])
                (demoEngine [[x03]; [x05]] [] [] 0 0)
                (demoEngine [[x02]] [] [] 0 0) Hrun) as H.
  exact (proj1 (proj1 (proj2 H) Hin)).
Defined.
